(** * voidbeam-core: provisioning and launch orchestration

    A shallow embedding of the parts of [components/handler.js] (class
    [Handler]) and of the launcher class ([VoidBeamCore.launch]) that the
    specification talks about, with the properties of the specification
    stated and settled against it.

    Conventions.
    - JavaScript strings are [string]; numbers that the code only uses as
      integers are [Z]; a field that may be missing is an [option].
    - The file system is a finite map from normalised paths (lists of
      segments) to file contents; only files are tracked, and the root
      directory, which always exists.
    - Event emission ([client.emit]) is an explicit log, oldest event first.
    - A promise is represented by the way it settles. The downloads of a
      batch run concurrently: the callbacks run one after the other up to
      their first [await], and the downloads then complete in an order that
      is a parameter of the model. *)

From Stdlib Require Import ZArith Ascii DecimalString.
From stdpp Require Import gmap strings list fin_maps.

Local Open Scope string_scope.
Local Open Scope Z_scope.
Local Open Scope list_scope.

(** ** The JavaScript built-ins the code relies on *)

Module Js.

(** Values that end up in argument lists: strings, numbers and
    [undefined]. *)
Inductive Value :=
| VStr (s : string)
| VNum (n : Z)
| VUndef.

(** How an awaited operation ends: it returns, it throws (a rejected
    promise), or its promise is never settled. *)
Inductive Outcome (A : Type) :=
| Returned (a : A)
| Threw (e : string)
| Never.
Arguments Returned {A} a.
Arguments Threw {A} e.
Arguments Never {A}.

Definition bind {A B} (o : Outcome A) (k : A -> Outcome B) : Outcome B :=
  match o with
  | Returned a => k a
  | Threw e => Threw e
  | Never => Never
  end.

(** [s.split(sep)] for a one-character separator; [cur] is the piece being
    read. *)
Fixpoint split_from (sep : ascii) (cur s : string) : list string :=
  match s with
  | EmptyString => [cur]
  | String c rest =>
      if Ascii.eqb c sep then cur :: split_from sep "" rest
      else split_from sep (cur +:+ String c "") rest
  end.

Definition split (sep : ascii) (s : string) : list string :=
  split_from sep "" s.

(** [hay.includes(needle)] *)
Fixpoint includes (needle hay : string) : bool :=
  String.prefix needle hay ||
  match hay with
  | EmptyString => false
  | String _ rest => includes needle rest
  end.

(** [`${n}`] for an integer number. *)
Definition show (n : Z) : string := NilZero.string_of_int (Z.to_int n).

Definition is_space (c : ascii) : bool :=
  let n := N_of_ascii c in
  ((9 <=? n) && (n <=? 13))%N || (n =? 32)%N.

Fixpoint skip_spaces (s : string) : string :=
  match s with
  | String c rest => if is_space c then skip_spaces rest else s
  | EmptyString => s
  end.

Definition digit_of (radix : Z) (c : ascii) : option Z :=
  let n := Z.of_N (N_of_ascii c) in
  let d :=
    if (48 <=? n) && (n <=? 57) then Some (n - 48)
    else if (97 <=? n) && (n <=? 122) then Some (n - 87)
    else if (65 <=? n) && (n <=? 90) then Some (n - 55)
    else None in
  match d with
  | Some v => if v <? radix then Some v else None
  | None => None
  end.

(** The longest prefix of digits of [s], as a number; [acc] is [None] as
    long as no digit was read. *)
Fixpoint read_digits (radix : Z) (acc : option Z) (s : string) : option Z :=
  match s with
  | EmptyString => acc
  | String c rest =>
      match digit_of radix c with
      | Some d => read_digits radix (Some (radix * default 0 acc + d)) rest
      | None => acc
      end
  end.

(** [parseInt(s)] without a radix argument; [None] is [NaN]. Leading white
    space, a sign and a [0x] prefix are handled as the language says. *)
Definition parseInt_string (s : string) : option Z :=
  let s1 := skip_spaces s in
  let '(sign, s2) :=
    match s1 with
    | String "-" r => (-1, r)
    | String "+" r => (1, r)
    | _ => (1, s1)
    end in
  let '(radix, s3) :=
    match s2 with
    | String "0" (String "x" r) => (16, r)
    | String "0" (String "X" r) => (16, r)
    | _ => (10, s2)
    end in
  (fun v => sign * v) <$> read_digits radix None s3.

(** [parseInt(x)] where [x] may be [undefined] (an index past the end of
    an array): the argument is first converted to a string. *)
Definition parseInt (x : option string) : option Z :=
  parseInt_string (default "undefined" x).

(** Comparisons with a possibly-[NaN] left operand. *)
Definition nan_lt (x : option Z) (k : Z) : bool :=
  match x with Some v => v <? k | None => false end.
Definition nan_ge (x : option Z) (k : Z) : bool :=
  match x with Some v => k <=? v | None => false end.
Definition nan_gt (x : option Z) (k : Z) : bool :=
  match x with Some v => k <? v | None => false end.
Definition nan_eq (x : option Z) (k : Z) : bool :=
  match x with Some v => v =? k | None => false end.
(** [!x] for a number: true for [NaN] and for zero. *)
Definition nan_not (x : option Z) : bool :=
  match x with Some v => v =? 0 | None => true end.

End Js.

(** ** Rule evaluation: [Handler.getOS], [Handler.parseRule] and the rule loop
    of [Handler.getLaunchOptions] *)

Module Rules.

(** [rule.os]: an object whose [name] may be missing (manifests also use
    [arch] and [version] constraints, which the code never reads). *)
Record OsConstraint := mkOs { os_name : option string }.

(** One element of [lib.rules] / [args[index].rules]. *)
Record Rule := mkRule { action : string; os : option OsConstraint }.

(** [Handler.getOS]: the configured OS when it is truthy, otherwise the
    family derived from [process.platform]. *)
Definition getOS (options_os : option string) (platform : string) : string :=
  let by_platform :=
    if String.eqb platform "win32" then "windows"
    else if String.eqb platform "darwin" then "osx"
    else "linux" in
  match options_os with
  | Some o => if String.eqb o "" then by_platform else o
  | None => by_platform
  end.

(** [rule.os.name === this.getOS()] *)
Definition os_is (cur : string) (o : OsConstraint) : bool :=
  match os_name o with
  | Some n => String.eqb n cur
  | None => false
  end.

(** Body of the [for (const rule of lib.rules)] loop of [parseRule]; the
    accumulator is the local variable [action]. *)
Definition parseRule_step (cur : string) (acc : bool) (rule : Rule) : bool :=
  if String.eqb (action rule) "allow" then
    match os rule with
    | Some o => os_is cur o
    | None => true
    end
  else if String.eqb (action rule) "disallow" then
    match os rule with
    | Some o => if os_is cur o then false else acc
    | None => acc
    end
  else acc.

(** [Handler.parseRule(lib)], as a function of [lib.rules] and of the value
    of [this.getOS()]. The result is [true] when the library is to be
    EXCLUDED. *)
Definition parseRule (lib_rules : option (list Rule)) (cur : string) : bool :=
  match lib_rules with
  | None => false
  | Some rules => negb (fold_left (parseRule_step cur) rules false)
  end.

(** A library is part of the launch when [parseRule] does not exclude it
    (the test [!this.parseRule(lib)] of [getClasses]). *)
Definition included (lib_rules : option (list Rule)) (cur : string) : bool :=
  negb (parseRule lib_rules cur).

(** Body of the [for (const rule of args[index].rules)] loop of
    [getLaunchOptions]; the accumulator is [shouldInclude]. *)
Definition shouldInclude_step (cur : string) (acc : bool) (rule : Rule) : bool :=
  if String.eqb (action rule) "allow" then
    match os rule with
    | Some o => os_is cur o
    | None => false
    end
  else acc.

(** Value of [shouldInclude] after the rule loop of [getLaunchOptions]. *)
Definition shouldInclude (rules : list Rule) (cur : string) : bool :=
  fold_left (shouldInclude_step cur) rules true.

(** *** Vocabulary used to state the properties *)

Definition allow_any : Rule := mkRule "allow" None.
Definition allow_on (a : string) : Rule := mkRule "allow" (Some (mkOs (Some a))).
Definition disallow_any : Rule := mkRule "disallow" None.
Definition disallow_on (a : string) : Rule := mkRule "disallow" (Some (mkOs (Some a))).

Definition is_allow (r : Rule) : bool := String.eqb (action r) "allow".

(** The rule names the target OS. *)
Definition names (cur : string) (r : Rule) : bool :=
  match os r with
  | Some o => os_is cur o
  | None => false
  end.

(** A rule "matches" in the sense of the specification: it carries no OS
    constraint, or its constraint names the target OS. *)
Definition matches (cur : string) (r : Rule) : bool :=
  match os r with
  | Some o => os_is cur o
  | None => true
  end.

(** The specification's reading, kept apart from the code: the verdict is
    the action of the last matching rule, [dflt] when no rule matches. *)
Definition spec_last_match (dflt : bool) (rules : list Rule) (cur : string) : bool :=
  fold_left (fun acc r => if matches cur r then is_allow r else acc) rules dflt.

(** A rule that [parseRule] lets decide: every allow rule, and a disallow
    rule constrained to the target OS. *)
Definition decisive (cur : string) (r : Rule) : bool :=
  is_allow r || (String.eqb (action r) "disallow" && names cur r).

(** What a decisive rule decides: inclusion for an allow rule that matches,
    exclusion otherwise. *)
Definition verdict (cur : string) (r : Rule) : bool :=
  is_allow r && matches cur r.

(** The last element of [l] satisfying [p]. *)
Definition find_last {A} (p : A -> bool) (l : list A) : option A :=
  find p (rev l).

End Rules.

(** ** One download: [Handler.downloadAsync] *)

Module Download.

(** What the handlers registered by [downloadAsync] can be called with:
    the request stream's ['response'] and ['error'] events and the write
    stream's ['finish'] and ['error'] events. *)
Inductive StreamEvent :=
| Response (statusCode : Z)
| StreamError (error : string)
| WriteFinish
| WriteError (error : string).

(** The fetch capability as the specification has it, and the events each
    result shows as: a response is piped into the write stream whatever its
    status, and the write stream finishes when the body ends; a transport
    error ends nothing. *)
Inductive Fetch :=
| Success
| BadStatus (statusCode : Z)
| TransportError (error : string).

Definition events_of (f : Fetch) : list StreamEvent :=
  match f with
  | Success => [Response 200; WriteFinish]
  | BadStatus c => [Response c; WriteFinish]
  | TransportError error => [StreamError error]
  end.

(** State of the promise built by [new Promise((resolve, reject) => ...)]. *)
Inductive Settled :=
| Pending
| Resolved
| Rejected (reason : string).

(** Only the first call of [resolve] or [reject] has an effect. *)
Definition resolve (p : Settled) : Settled :=
  match p with Pending => Resolved | _ => p end.
Definition reject (reason : string) (p : Settled) : Settled :=
  match p with Pending => Rejected reason | _ => p end.

Definition rejected (p : Settled) : bool :=
  match p with Rejected _ => true | _ => false end.

(** The parameters of a call, without the [retry] flag. *)
Record Request := mkRequest {
  url : string;
  directory : list string;
  name : string;
  type : string
}.

(** The network: the events the [k]-th request issued (counting from 0)
    gives rise to. *)
Definition World := nat -> list StreamEvent.

Record State := mkState {
  issued : list Request;     (* requests made so far, oldest first *)
  dropped : list Settled     (* promises returned into an event handler *)
}.

Definition init : State := mkState [] [].

Section Handlers.
(** [self] stands for the nested call [this.downloadAsync]. *)
Variable self : bool -> Request -> State -> Settled * State.
Variable retry : bool.
Variable rq : Request.

(** [if (retry) return this.downloadAsync(url, directory, name, false, type)]
    followed by the [reject]: the promise of the nested call is the
    handler's return value, which the event emitter discards. *)
Definition on_failure (reason : string) (p : Settled) (st : State) : Settled * State :=
  if retry then
    let '(q, st') := self false rq st in
    (p, mkState (issued st') (dropped st' ++ [q]))
  else (reject reason p, st).

Definition handle (ev : StreamEvent) (p : Settled) (st : State) : Settled * State :=
  match ev with
  | Response statusCode =>
      if statusCode =? 200 then (p, st)
      else on_failure ("Error: Download failed: " +:+ Js.show statusCode) p st
  | StreamError error => on_failure error p st
  | WriteFinish => (resolve p, st)
  | WriteError error => (reject error p, st)
  end.

Fixpoint handle_all (evs : list StreamEvent) (p : Settled) (st : State) : Settled * State :=
  match evs with
  | [] => (p, st)
  | ev :: rest => let '(p', st') := handle ev p st in handle_all rest p' st'
  end.
End Handlers.

(** The body of [downloadAsync]: issue the request, then run the handlers
    on what the network answers. *)
Definition downloadAsync_body (w : World)
    (self : bool -> Request -> State -> Settled * State)
    (retry : bool) (rq : Request) (st : State) : Settled * State :=
  let k := length (issued st) in
  handle_all self retry rq (w k) Pending (mkState (issued st ++ [rq]) (dropped st)).

(** [downloadAsync(url, directory, name, retry, type)]. The nested call is
    always made with [retry = false] and makes no further call, so two
    layers of the body tie the knot. *)
Definition downloadAsync (w : World) (retry : bool) (rq : Request) (st : State) : Settled * State :=
  downloadAsync_body w
    (downloadAsync_body w (fun _ _ st' => (Pending, st')))
    retry rq st.

(** The network seen through the fetch capability: one result per request. *)
Definition world_of (fs : list Fetch) : World :=
  fun k => match fs !! k with Some f => events_of f | None => [] end.

(** What [await this.downloadAsync(...)] does to the caller. *)
Definition await (p : Settled) : Js.Outcome unit :=
  match p with
  | Resolved => Js.Returned tt
  | Rejected reason => Js.Threw reason
  | Pending => Js.Never
  end.

End Download.

(** ** Download batches: [Handler.downloadToDirectory], [Handler.getClasses]
    and the asset loop of [Handler.getAssets] *)

Module Pipeline.

(** A normalised path, as [path.join] and [path.resolve] produce it: the
    list of its segments. The empty list is the root directory. *)
Definition Path := list string.

(** [path.dirname] and [path.basename] on normalised paths
    ([path.basename('/')] is the empty string). *)
Definition dirname (p : Path) : Path := removelast p.
Definition basename (p : Path) : string := default "" (last p).

(** Payload of a ['progress'] event. *)
Record Progress := mkProgress {
  p_type : string;
  task : nat;
  total : nat
}.

(** [lib.downloads.artifact], or a bare download object. *)
Record Artifact := mkArtifact {
  a_path : Path;
  a_url : string
}.

(** [lib.downloads]; the classifiers are read by [getNatives] only. *)
Record Downloads := mkDownloads {
  artifact : option Artifact
}.

(** An element of [version.libraries]. [lib_path] and [lib_url] are the
    entry's own [path] and [url], read when it has no [downloads]. *)
Record Library := mkLibrary {
  lib_rules : option (list Rules.Rule);
  lib_downloads : option Downloads;
  lib_path : Path;
  lib_url : string
}.

(** An entry of [index.objects]: the asset's name and its hash. *)
Record Asset := mkAsset {
  asset_name : string;
  hash : string
}.

(** A download that was started and has not completed: the arguments of
    the [downloadAsync] call and what the continuation pushes on [libs]. *)
Record Task := mkTask {
  t_url : string;
  t_dir : Path;
  t_name : string;
  t_push : option Path
}.

(** Everything a batch reads and writes: the files on disk, the
    module-level variable [counter], the progress events emitted, the urls
    requested from the network, the local array [libs], and the downloads
    in flight. *)
Record Run := mkRun {
  files : gmap Path string;
  counter : nat;
  events : list Progress;
  fetched : list string;
  libs : list Path;
  pending : list Task
}.

(** [fs.existsSync]; the root directory always exists. *)
Definition existsSync (fs : gmap Path string) (p : Path) : bool :=
  bool_decide (p = []) || bool_decide (is_Some (fs !! p)).

(** [const downloadObj = lib.downloads ? lib.downloads.artifact : lib] *)
Definition downloadObj (lib : Library) : option Artifact :=
  match lib_downloads lib with
  | Some d => artifact d
  | None => Some (mkArtifact (lib_path lib) (lib_url lib))
  end.

(** The tail of each callback: [libs.push(libPath)] (not for assets),
    [counter++], and the progress event. *)
Definition finish (ev : string) (n : nat) (push : option Path) (r : Run) : Run :=
  mkRun (files r) (S (counter r))
        (events r ++ [mkProgress ev (S (counter r)) n])
        (fetched r) (libs r ++ option_list push) (pending r).

(** The call of [downloadAsync] up to the point where the callback is
    suspended on [await]. *)
Definition start (t : Task) (r : Run) : Run :=
  mkRun (files r) (counter r) (events r)
        (fetched r ++ [t_url t]) (libs r) (pending r ++ [t]).

(** A download completes: the file is on disk at [path.join(directory,
    name)] and the suspended callback runs to its end. [net] gives the body
    served at a url. *)
Definition complete (net : string -> string) (ev : string) (n : nat) (t : Task) (r : Run) : Run :=
  finish ev n (t_push t)
    (mkRun (<[t_dir t ++ [t_name t] := net (t_url t)]> (files r))
           (counter r) (events r) (fetched r) (libs r) (pending r)).

(** The downloads in flight complete in the order the schedule says: each
    number picks one of those still pending. A schedule shorter than the
    list of pending downloads leaves some of them unfinished (failed, or
    never answered), and the batch's [Promise.all] is then not resolved. *)
Fixpoint settle (net : string -> string) (ev : string) (n : nat)
    (sched : list nat) (r : Run) : Run :=
  match sched with
  | [] => r
  | k :: sched' =>
      let i := (k mod length (pending r))%nat in
      match pending r !! i with
      | Some t =>
          settle net ev n sched'
            (complete net ev n t
               (mkRun (files r) (counter r) (events r) (fetched r) (libs r)
                      (delete i (pending r))))
      | None => r
      end
  end.

(** The callback of [libraries.map] in [downloadToDirectory], up to its
    first [await]. *)
Definition library_callback (directory : Path) (ev : string) (n : nat)
    (r : Run) (lib : Library) : Run :=
  match downloadObj lib with
  | None => r
  | Some d =>
      let libPath := directory ++ a_path d in
      let libDir := dirname libPath in
      if existsSync (files r) libPath then finish ev n (Some libPath) r
      else start (mkTask (a_url d) libDir (basename libPath) (Some libPath)) r
  end.

(** [downloadToDirectory(directory, libraries, eventName)] run on the
    state [r0]. The promise it returns is resolved, with [libs], when no
    download is left pending. *)
Definition downloadToDirectory (net : string -> string) (sched : list nat)
    (directory : Path) (libraries : list Library) (eventName : string)
    (r0 : Run) : Run :=
  let n := length libraries in
  let r1 := mkRun (files r0) 0
                  (events r0 ++ [mkProgress eventName 0 n])
                  (fetched r0) [] [] in
  settle net eventName n sched
    (fold_left (library_callback directory eventName n) libraries r1).

(** The filter of [getClasses]. *)
Definition on_classpath (cur : string) (lib : Library) : bool :=
  match lib_downloads lib with
  | Some d =>
      match artifact d with
      | Some _ => negb (Rules.parseRule (lib_rules lib) cur)
      | None => false
      end
  | None => false
  end.

(** [getClasses()]: the filtered libraries are downloaded, then [counter]
    is reset. The reset is reached only when the batch is resolved. *)
Definition getClasses (net : string -> string) (sched : list nat) (cur : string)
    (libraryDirectory : Path) (libraries : list Library) (r0 : Run) : Run :=
  let r := downloadToDirectory net sched libraryDirectory
             (filter (fun lib => on_classpath cur lib = true) libraries) "classes" r0 in
  match pending r with
  | [] => mkRun (files r) 0 (events r) (fetched r) (libs r) []
  | _ => r
  end.

(** The callback of [Object.keys(index.objects).map] in [getAssets], up to
    its first [await]. *)
Definition asset_callback (assetDirectory : Path) (resource : string) (n : nat)
    (r : Run) (asset : Asset) : Run :=
  let subhash := String.substring 0 2 (hash asset) in
  let subAsset := assetDirectory ++ ["objects"; subhash] in
  if existsSync (files r) (subAsset ++ [hash asset]) then finish "assets" n None r
  else start (mkTask (resource +:+ "/" +:+ subhash +:+ "/" +:+ hash asset)
                     subAsset (hash asset) None) r.

(** [getAssets()] from the point where the index has been read: [objects]
    lists [index.objects] in key order. *)
Definition getAssets (net : string -> string) (sched : list nat)
    (assetDirectory : Path) (resource : string) (objects : list Asset)
    (r0 : Run) : Run :=
  let n := length objects in
  let r1 := mkRun (files r0) 0
                  (events r0 ++ [mkProgress "assets" 0 n])
                  (fetched r0) (libs r0) [] in
  let r := settle net "assets" n sched
             (fold_left (asset_callback assetDirectory resource n) objects r1) in
  match pending r with
  | [] => mkRun (files r) 0 (events r) (fetched r) (libs r) []
  | _ => r
  end.

(** *** Vocabulary used to state the properties *)

(** The paths that the downloads in flight will push on [libs]. *)
Definition awaited (r : Run) : list Path := omap t_push (pending r).

(** Where a task's file is written: [path.join(directory, name)]. *)
Definition write_path (t : Task) : Path := t_dir t ++ [t_name t].

(** The path whose existence decides whether an entry is fetched. *)
Definition library_path (directory : Path) (lib : Library) : option Path :=
  (fun d => directory ++ a_path d) <$> downloadObj lib.

Definition asset_path (assetDirectory : Path) (asset : Asset) : option Path :=
  Some (assetDirectory ++ ["objects"; String.substring 0 2 (hash asset); hash asset]).

(** The progress events of one batch with the task values [0 .. k]. *)
Definition counting (ev : string) (n k : nat) : list Progress :=
  (fun i => mkProgress ev i n) <$> seq 0 (S k).

(** The events emitted since the batch began, after those in [before],
    count up to the current value of [counter]. *)
Definition counted (ev : string) (n : nat) (before : list Progress) (r : Run) : Prop :=
  events r = before ++ counting ev n (counter r).

(** What the two callbacks have in common: an entry without a path is
    ignored; an entry whose path exists is finished at once; any other
    entry starts a download that writes that very path. *)
Definition checks_then_fetches {X} (check : X -> option Path)
    (callback : Run -> X -> Run) (ev : string) (n : nat) : Prop :=
  forall r x,
    match check x with
    | None => callback r x = r
    | Some p =>
        if existsSync (files r) p
        then exists push, callback r x = finish ev n push r
        else exists t, callback r x = start t r /\ write_path t = p
    end.

End Pipeline.

(** ** Heap sizes: [Handler.getMemory] *)

Module Memory.

(** [memory.max] and [memory.min] are declared [string | number]. *)
Inductive MemValue :=
| MNum (n : Z)
| MStr (s : string).

(** [options.memory] *)
Record Config := mkConfig {
  max : MemValue;
  min : MemValue
}.

Fixpoint all_spaces (s : string) : bool :=
  match s with
  | EmptyString => true
  | String c rest => Js.is_space c && all_spaces rest
  end.

(** Decimal digits followed by white space only. *)
Fixpoint read_decimal (acc : option Z) (s : string) : option Z :=
  match s with
  | EmptyString => acc
  | String c rest =>
      match Js.digit_of 10 c with
      | Some d => read_decimal (Some (10 * default 0 acc + d)) rest
      | None => if all_spaces s then acc else None
      end
  end.

(** The conversion to a number that [isNaN] and [<] apply; [None] is
    [NaN]. For strings the model reads signed decimal integers, surrounded
    by white space, and the empty string (zero); it takes every other
    string as not a number, among them the literals with a fraction, an
    exponent or a radix prefix. Heap sizes are whole numbers of megabytes or
    strings such as ["4G"]. *)
Definition toNumber (v : MemValue) : option Z :=
  match v with
  | MNum n => Some n
  | MStr s =>
      let s1 := Js.skip_spaces s in
      match s1 with
      | EmptyString => Some 0
      | String "-" r => Z.opp <$> read_decimal None r
      | String "+" r => read_decimal None r
      | _ => read_decimal None s1
      end
  end.

Definition isNaN (v : MemValue) : bool :=
  match toNumber v with
  | Some _ => false
  | None => true
  end.

(** [a < b]: two strings are compared as strings, code unit by code unit;
    in every other case both sides are converted to numbers. *)
Definition lt (a b : MemValue) : bool :=
  match a, b with
  | MStr s, MStr t => String.ltb s t
  | _, _ =>
      match toNumber a, toNumber b with
      | Some x, Some y => x <? y
      | _, _ => false
      end
  end.

(** [`${v}`] *)
Definition show (v : MemValue) : string :=
  match v with
  | MNum n => Js.show n
  | MStr s => s
  end.

Record Result := mkResult {
  pair : list string;          (* the array returned *)
  memory : Config;             (* [this.options.memory] afterwards *)
  debug : list string          (* ['debug'] events emitted *)
}.

(** [getMemory()], as a function of [this.options.memory]. *)
Definition getMemory (options_memory : option Config) : Result :=
  let '(m, d) :=
    match options_memory with
    | None => (mkConfig (MNum 1023) (MNum 512),
               ["[VoidBeam]: Memory not set! Setting 1GB as MAX!"])
    | Some m => (m, [])
    end in
  if negb (isNaN (max m)) && negb (isNaN (min m)) then
    if lt (max m) (min m) then
      let m' := mkConfig (MNum 1023) (MNum 512) in
      mkResult [show (max m') +:+ "M"; show (min m') +:+ "M"] m'
               (d ++ ["[VoidBeam]: MIN memory is higher than MAX! Resetting!"])
    else mkResult [show (max m) +:+ "M"; show (min m) +:+ "M"] m d
  else mkResult [show (max m); show (min m)] m d.

(** The two heap flags of [launch]: [`-Xmx${this.handler.getMemory()[0]}`]
    and [`-Xms${this.handler.getMemory()[1]}`]. The second call sees the
    configuration the first one left. *)
Definition heap_flags (options_memory : option Config) : list string :=
  let r1 := getMemory options_memory in
  let r2 := getMemory (Some (memory r1)) in
  ["-Xmx" +:+ default "undefined" (pair r1 !! 0%nat);
   "-Xms" +:+ default "undefined" (pair r2 !! 1%nat)].

End Memory.

(** ** Game arguments: [Handler.getLaunchOptions] *)

Module Options.

(** [authorization.meta] *)
Record Meta := mkMeta {
  type : string;
  xuid : option string
}.

(** The identity record the caller hands over. *)
Record Authorization := mkAuthorization {
  access_token : string;
  client_token : string;
  uuid : string;
  name : string;
  user_properties : string;
  meta : option Meta
}.

(** The objects the caller and the engine both hold a reference to. *)
Definition Ref := nat.

(** [value] of a conditional argument: one token or an array of tokens. *)
Inductive ArgValue :=
| One (v : string)
| Many (vs : list string).

(** An object-typed element of the argument list. *)
Record Conditional := mkConditional {
  rules : option (list Rules.Rule);
  value : option ArgValue
}.

Inductive Arg :=
| Lit (v : Js.Value)
| Obj (o : Conditional).

(** [options.window] *)
Record Window := mkWindow {
  width : option Js.Value;
  height : option Js.Value;
  fullscreen : bool
}.

(** What [getLaunchOptions] reads from [this.options] and [this.version]. *)
Record Input := mkInput {
  minecraftArguments : option string;     (* version.minecraftArguments *)
  arguments_game : list Arg;              (* version.arguments.game *)
  customLaunchArgs : option (list Arg);
  authorization : Ref;
  version_number : string;
  version_type : option string;
  root : string;
  gameDirectory : option string;          (* overrides.gameDirectory *)
  assetRoot : string;                     (* resolved asset root *)
  legacy : bool;                          (* isLegacy() *)
  assetIndex : string;                    (* overrides.assetIndex || version.assetIndex.id *)
  window : option Window
}.

(** Truthiness of [args[index].value]: a missing value and the empty
    string are falsy, an array is truthy. *)
Definition truthy (v : option ArgValue) : bool :=
  match v with
  | Some (One s) => negb (String.eqb s "")
  | Some (Many _) => true
  | None => false
  end.

(** Truthiness of a window dimension. *)
Definition truthy_value (v : option Js.Value) : bool :=
  match v with
  | Some (Js.VStr s) => negb (String.eqb s "")
  | Some (Js.VNum n) => negb (n =? 0)
  | Some Js.VUndef => false
  | None => false
  end.

(** [this.options.authorization.meta = this.options.authorization.meta ||
    { type: 'offline' }], an assignment to a field of the caller's object. *)
Definition default_meta (a : Authorization) : Authorization :=
  mkAuthorization (access_token a) (client_token a) (uuid a) (name a)
    (user_properties a)
    (Some (default (mkMeta "offline" None) (meta a))).

(** [x || d] for a string [x] that may be missing: the empty string is
    falsy as well. *)
Definition or_else (x : option string) (d : string) : string :=
  match x with
  | Some s => if String.eqb s "" then d else s
  | None => d
  end.

(** The table [fields]. *)
Definition fields (i : Input) (a : Authorization) : list (string * Js.Value) :=
  [ ("${auth_player_name}", Js.VStr (name a));
    ("${version_name}", Js.VStr (version_number i));
    ("${game_directory}", Js.VStr (or_else (gameDirectory i) (root i)));
    ("${assets_root}",
       Js.VStr (if legacy i then root i +:+ "/resources" else assetRoot i));
    ("${assets_index_name}", Js.VStr (assetIndex i));
    ("${auth_uuid}", Js.VStr (uuid a));
    ("${auth_access_token}", Js.VStr (access_token a));
    ("${user_type}",
       match meta a with Some m => Js.VStr (type m) | None => Js.VUndef end);
    ("${version_type}", Js.VStr (or_else (version_type i) "release"));
    ("${resolution_width}",
       match window i with
       | Some w => default Js.VUndef (width w)
       | None => Js.VNum 856
       end);
    ("${resolution_height}",
       match window i with
       | Some w => default Js.VUndef (height w)
       | None => Js.VNum 482
       end) ].

Definition lookup_field (tbl : list (string * Js.Value)) (k : string) : option Js.Value :=
  snd <$> find (fun kv => String.eqb (fst kv) k) tbl.

(** [if (Object.keys(fields).includes(args[index])) args[index] =
    fields[args[index]]] *)
Definition substitute (tbl : list (string * Js.Value)) (v : Js.Value) : Js.Value :=
  match v with
  | Js.VStr s => default v (lookup_field tbl s)
  | _ => v
  end.

(** One iteration of the loop "Replace argument variables". The array and
    the index are kept as the elements before [index] and those from
    [index] on; the result is the array and the index the next iteration
    starts with. *)
Definition iteration (cur : string) (tbl : list (string * Js.Value))
    (before : list Arg) (rest : list Arg) : list Arg * list Arg :=
  match rest with
  | [] => (before, rest)
  | Obj o :: tl =>
      match rules o with
      | Some rs =>
          if Rules.shouldInclude rs cur && truthy (value o) then
            match value o with
            | Some (Many vs) =>
                (* args.splice(index, 1, ...value); then index++ *)
                let spliced := (Lit ∘ Js.VStr <$> vs) ++ tl in
                (before ++ take 1 spliced, drop 1 spliced)
            | Some (One v) => (before ++ [Lit (Js.VStr v)], tl)
            | None => (before ++ [Obj o], tl)
            end
          else
            (* args.splice(index, 1); index--; then index++ *)
            (before, tl)
      | None => (before ++ [Obj o], tl)
      end
  | Lit v :: tl => (before ++ [Lit (substitute tbl v)], tl)
  end.

(** The loop, run for at most [fuel] iterations; [None] when they do not
    suffice. *)
Fixpoint loop (fuel : nat) (cur : string) (tbl : list (string * Js.Value))
    (before rest : list Arg) : option (list Arg) :=
  match rest with
  | [] => Some before
  | _ =>
      match fuel with
      | O => None
      | S fuel' =>
          let '(before', rest') := iteration cur tbl before rest in
          loop fuel' cur tbl before' rest'
      end
  end.

(** A bound on the number of iterations. *)
Definition weight (a : Arg) : nat :=
  match a with
  | Obj o =>
      match value o with
      | Some (Many vs) => S (length vs)
      | _ => 1
      end
  | Lit _ => 1
  end.

Definition iterations (args : list Arg) : nat :=
  foldr (fun a n => (weight a + n)%nat) O args.

(** The tokens of a conditional argument's value. *)
Definition values (val : ArgValue) : list string :=
  match val with
  | One v => [v]
  | Many vs => vs
  end.

(** What the loop makes of the tokens that take the place of an included
    conditional argument and of the literal tokens after them: the loop
    steps over the first one, and substitutes the variables of the others. *)
Definition step_over (tbl : list (string * Js.Value)) (l : list Js.Value) : list Arg :=
  match l with
  | [] => []
  | x :: rest => Lit x :: (Lit ∘ substitute tbl <$> rest)
  end.

(** The window flags appended after the loop. *)
Definition window_args (w : option Window) : list Arg :=
  match w with
  | Some w =>
      if fullscreen w then [Lit (Js.VStr "--fullscreen")]
      else
        (if truthy_value (width w)
         then [Lit (Js.VStr "--width"); Lit (default Js.VUndef (width w))]
         else []) ++
        (if truthy_value (height w)
         then [Lit (Js.VStr "--height"); Lit (default Js.VUndef (height w))]
         else [])
  | None => []
  end.

(** [args.filter(value => typeof value === 'string' || typeof value ===
    'number')] *)
Definition plain (a : Arg) : option Js.Value :=
  match a with
  | Lit (Js.VStr s) => Some (Js.VStr s)
  | Lit (Js.VNum n) => Some (Js.VNum n)
  | _ => None
  end.

(** [getLaunchOptions(null)] on the object store [heap]: the store
    afterwards and what the promise settles to. A missing authorization
    object makes the assignment to [meta] throw. *)
Definition getLaunchOptions (cur : string) (i : Input)
    (heap : gmap Ref Authorization) : gmap Ref Authorization * Js.Outcome (list Js.Value) :=
  let args0 :=
    match minecraftArguments i with
    | Some s => if String.eqb s "" then arguments_game i
                else Lit ∘ Js.VStr <$> Js.split " " s
    | None => arguments_game i
    end in
  let args1 :=
    match customLaunchArgs i with
    | Some extra => args0 ++ extra
    | None => args0
    end in
  match heap !! authorization i with
  | None => (heap, Js.Threw "TypeError")
  | Some a =>
      let a' := default_meta a in
      let heap' := <[authorization i := a']> heap in
      match loop (iterations args1) cur (fields i a') [] args1 with
      | Some args2 => (heap', Js.Returned (omap plain (args2 ++ window_args (window i))))
      | None => (heap', Js.Never)
      end
  end.

End Options.

(** ** The orchestration: [VoidBeamCore.launch] *)

Module Launch.

Import Js.

(** What [launch] itself emits. *)
Inductive Event :=
| Debug (message : string)
| Arguments (args : list Value)
| Close (code : Z).

(** What the caller of [launch] gets: the handle of the process started
    with the given arguments, [null], or nothing at all when an awaited
    promise is never settled. *)
Inductive Result :=
| Process (args : list Value)
| Null
| NoReturn.

(** The part of [options] that [launch] reads; [os] is the value of
    [handler.getOS()]. *)
Record LaunchOptions := mkOptions {
  javaPath : option string;
  root : Pipeline.Path;
  version_number : string;
  memory : option Memory.Config;
  os : string;
  customArgs : option (list Value);
  directory : option Pipeline.Path;          (* overrides.directory *)
  minecraftJar : option Pipeline.Path;       (* overrides.minecraftJar *)
  cwd : option Pipeline.Path;                (* overrides.cwd *)
  classes : option (list string)             (* overrides.classes *)
}.

(** The part of the version descriptor that [launch] reads. *)
Record Version := mkVersion {
  id : string;
  mainClass : Value;
  client_url : string
}.

(** The collaborators of one invocation: how each awaited call of the
    handler ends, and what the file system answers. *)
Record Env := mkEnv {
  package_json : bool;                                (* printVersion *)
  checkJava : bool * string;                          (* run, message *)
  root_exists : bool;
  getVersion : Outcome (string + Version);            (* an Error's message, or the descriptor *)
  getNatives : Outcome Pipeline.Path;
  jar_exists : bool;                                  (* fs.existsSync(mcPath), before the download *)
  jar_exists_after : bool;                            (* fs.existsSync(mcPath), when the class path is built *)
  download : Download.Request -> Outcome unit;        (* await downloadAsync(..., true, ...) *)
  getClasses : Outcome (list Pipeline.Path);
  getAssets : Outcome unit;
  getLaunchOptions : Outcome (list Value);
  spawn : list Value -> Outcome unit                  (* child.spawn and the listeners *)
}.

Record State := mkState {
  log : list Event;
  requests : list Download.Request
}.

(** Statements of an [async] function: they read and extend the state and
    end as an [Outcome]. *)
Definition M (A : Type) := State -> State * Outcome A.

Definition ret {A} (a : A) : M A := fun s => (s, Returned a).

Definition seq {A B} (m : M A) (k : A -> M B) : M B :=
  fun s =>
    let '(s', o) := m s in
    match o with
    | Returned a => k a s'
    | Threw e => (s', Threw e)
    | Never => (s', Never)
    end.

Notation "'let*' x ':=' m 'in' k" := (seq m (fun x => k))
  (at level 10, x name, m at level 100, k at level 200).
Notation "m ';;;' k" := (seq m (fun _ => k))
  (at level 100, k at level 200, right associativity).

Definition emit (e : Event) : M unit :=
  fun s => (mkState (log s ++ [e]) (requests s), Returned tt).

Definition await {A} (o : Outcome A) : M A := fun s => (s, o).

Definition when (b : bool) (m : M unit) : M unit :=
  if b then m else ret tt.

(** Paths enter a command line as text. *)
Definition render (p : Pipeline.Path) : string := "/" +:+ String.concat "/" p.

(** [`${v}`] and the conversion [join] applies. *)
Definition text (v : Value) : string :=
  match v with
  | VStr s => s
  | VNum n => Js.show n
  | VUndef => ""
  end.

(** [handler.downloadAsync(url, directory, name, true, type)], awaited. *)
Definition downloadAsync (env : Env) (rq : Download.Request) : M unit :=
  fun s => (mkState (log s) (requests s ++ [rq]), download env rq).

(** [handler.getJar()] once [launch] found the jar missing; the handler
    checks again. *)
Definition getJar (env : Env) (v : Version) (jarPath : Pipeline.Path) : M unit :=
  if jar_exists env then ret tt
  else
    downloadAsync env
      (Download.mkRequest (client_url v) (Pipeline.dirname jarPath)
                          (Pipeline.basename jarPath) "client").

(** [handler.getJVM()]: [opts[this.getOS()]]. *)
Definition getJVM (cur : string) : Value :=
  if String.eqb cur "windows" then
    VStr "-XX:HeapDumpPath=MojangTricksIntelDriversForPerformance_javaw.exe_minecraft.exe.heapdump"
  else if String.eqb cur "osx" then VStr "-XstartOnFirstThread"
  else if String.eqb cur "linux" then VStr "-Xss1M"
  else VUndef.

(** [handler.cleanUp]: [array.filter(item => item != null)]. *)
Definition cleanUp {A} (array : list (option A)) : list A :=
  omap (fun item => item) array.

(** [parseInt(versionFile.id.split('.')[1])] and
    [parseInt(versionFile.id.split('.')[2])]. *)
Definition minor (id : string) : option Z := parseInt (split "." id !! 1%nat).
Definition patch (id : string) : option Z := parseInt (split "." id !! 2%nat).

Definition configurationFile : string := "Dlog4j.configurationFile".
Definition formatMsgNoLookups : Value := VStr "-Dlog4j2.formatMsgNoLookups=true".

(** [jvm.find(arg => arg.includes('Dlog4j.configurationFile'))]; an
    element that is not a string has no [includes]. *)
Fixpoint find_configurationFile (jvm : list Value) : Outcome (option Value) :=
  match jvm with
  | [] => Returned None
  | VStr s :: rest =>
      if includes configurationFile s then Returned (Some (VStr s))
      else find_configurationFile rest
  | _ :: _ => Threw "TypeError"
  end.

(** The version table of the log4j configuration files: the lowest minor
    version each file serves, the object it is fetched from and its name. *)
Definition log4j_table : list (Z * (string * string)) :=
  [ (12, ("https://launcher.mojang.com/v1/objects/02937d122c86ce73319ef9975b58896fc1b491d1/log4j2_112-116.xml",
          "log4j2_112-116.xml"));
    (7,  ("https://launcher.mojang.com/v1/objects/dd2b723346a8dcd48e7f4d245f6bf09e98db9696/log4j2_17-111.xml",
          "log4j2_17-111.xml")) ].

(** The chain [if (intVersion >= 12) ... else if (intVersion >= 7) ...]. *)
Definition log4j_file (intVersion : option Z) : option (string * string) :=
  snd <$> find (fun row => nan_ge intVersion (fst row)) log4j_table.

(** "Add log4j configuration for security". *)
Definition log4j_configuration (env : Env) (o : LaunchOptions) (v : Version)
    (jvm : list Value) : M (list Value) :=
  if nan_lt (minor (id v)) 17 then
    let* found := await (find_configurationFile jvm) in
    match found with
    | Some _ => ret jvm
    | None =>
        let configPath := default (root o) (cwd o) in
        match log4j_file (minor (id v)) with
        | Some (url, file) =>
            downloadAsync env (Download.mkRequest url configPath file "log4j") ;;;
            ret (jvm ++ [VStr ("-Dlog4j.configurationFile=" +:+ file)])
        | None => ret jvm
        end
    end
  else ret jvm.

(** "Add log4j security fix for newer versions". *)
Definition log4j_lookups (v : Version) (jvm : list Value) : list Value :=
  let jvm1 :=
    if nan_eq (minor (id v)) 18 && nan_not (patch (id v))
    then jvm ++ [formatMsgNoLookups] else jvm in
  if nan_eq (minor (id v)) 17 then jvm1 ++ [formatMsgNoLookups] else jvm1.

(** The two log4j sections, one after the other. *)
Definition log4j (env : Env) (o : LaunchOptions) (v : Version)
    (jvm : list Value) : M (list Value) :=
  let* jvm1 := log4j_configuration env o v jvm in
  ret (log4j_lookups v jvm1).

(** The JVM flags before the log4j section. *)
Definition base_jvm (o : LaunchOptions) (v : Version) (nativePath : Pipeline.Path) : list Value :=
  let jvm :=
    [ VStr "-XX:-UseAdaptiveSizePolicy";
      VStr "-XX:-OmitStackTraceInFastThrow";
      VStr "-Dfml.ignorePatchDiscrepancies=true";
      VStr "-Dfml.ignoreInvalidMinecraftCertificates=true";
      VStr ("-Djava.library.path=" +:+ render nativePath) ]
    ++ (VStr <$> Memory.heap_flags (memory o)) in
  let jvm :=
    if String.eqb (os o) "osx" then
      if nan_gt (minor (id v)) 12 then jvm ++ [getJVM (os o)] else jvm
    else jvm ++ [getJVM (os o)] in
  match customArgs o with
  | Some extra => jvm ++ extra
  | None => jvm
  end.

Definition separator (cur : string) : string :=
  if String.eqb cur "windows" then ";" else ":".

(** "Get class paths" and "Build class path string": the array
    [classPaths]. *)
Definition classPaths (cur : string) (classes : list string)
    (jarPath : Pipeline.Path) (mainClass : Value) : list Value :=
  let jar := separator cur +:+ render jarPath in
  [ VStr "-cp";
    VStr (String.concat (separator cur) classes +:+ jar);
    mainClass ].

(** [startMinecraft(launchArguments)] *)
Definition startMinecraft (env : Env) (launchArguments : list Value) : M Result :=
  await (spawn env launchArguments) ;;;
  ret (Process launchArguments).

(** The [try] block of [launch]. *)
Definition launch_try (env : Env) (o : LaunchOptions) : M Result :=
  emit (Debug (if package_json env
               then "[VoidBeam]: VoidBeam Core version"
               else "[VoidBeam]: Package JSON not found, skipping version check.")) ;;;
  if negb (fst (checkJava env)) then
    emit (Debug ("[VoidBeam]: Couldn't start Minecraft due to: " +:+ snd (checkJava env))) ;;;
    emit (Close 1) ;;;
    ret Null
  else
    when (negb (root_exists env))
         (emit (Debug "[VoidBeam]: Attempting to create root folder")) ;;;
    let dir := default (root o ++ ["versions"; version_number o]) (directory o) in
    let* versionFile := await (getVersion env) in
    match versionFile with
    | inl message =>
        emit (Debug ("[VoidBeam]: " +:+ message)) ;;;
        emit (Close 1) ;;;
        ret Null
    | inr v =>
        let mcPath := default (dir ++ [version_number o +:+ ".jar"]) (minecraftJar o) in
        let* nativePath := await (getNatives env) in
        when (negb (jar_exists env))
             (emit (Debug "[VoidBeam]: Attempting to download Minecraft version jar") ;;;
              getJar env v mcPath) ;;;
        let* jvm := log4j env o v (base_jvm o v nativePath) in
        let* cls :=
          match classes o with
          | Some cs => ret cs
          | None =>
              let* libs := await (getClasses env) in
              ret (cleanUp (Some ∘ render <$> libs))
          end in
        emit (Debug ("[VoidBeam]: Using " +:+ separator (os o) +:+ " to separate class paths")) ;;;
        let jarPath :=
          if jar_exists_after env then mcPath
          else dir ++ [version_number o +:+ ".jar"] in
        let cp := classPaths (os o) cls jarPath (mainClass v) in
        emit (Debug "[VoidBeam]: Attempting to download assets") ;;;
        await (getAssets env) ;;;
        let* launchOptions := await (getLaunchOptions env) in
        let launchArguments := [] ++ jvm ++ cp ++ launchOptions in
        emit (Arguments launchArguments) ;;;
        emit (Debug ("[VoidBeam]: Launching with arguments "
                     +:+ String.concat " " (text <$> launchArguments))) ;;;
        startMinecraft env launchArguments
    end.

(** [launch(options)]: the [try] block and its [catch]. *)
Definition launch (env : Env) (o : LaunchOptions) : State * Result :=
  let '(s, out) := launch_try env o (mkState [] []) in
  match out with
  | Returned r => (s, r)
  | Threw e =>
      (mkState (log s ++ [Debug ("[VoidBeam]: Failed to start due to " +:+ e +:+ ", closing...");
                          Close 1])
               (requests s),
       Null)
  | Never => (s, NoReturn)
  end.

(** The collaborator [download] when every download talks to the network
    [net rq], through [Handler.downloadAsync]. *)
Definition download_via (net : Download.Request -> Download.World)
    (rq : Download.Request) : Outcome unit :=
  Download.await (fst (Download.downloadAsync (net rq) true rq Download.init)).

(** The process was started. *)
Definition started (r : Result) : bool :=
  match r with
  | Process _ => true
  | _ => false
  end.

End Launch.

(** ** Version resolution: [Handler.getVersion] *)

Module Resolver.

(** An element of [manifest.versions]. *)
Record ManifestEntry := mkEntry {
  id : string;
  url : string
}.

(** What [JSON.parse] can return, as far as [getVersion] looks into it: an
    object with a [versions] array, a version descriptor, or any other
    value. *)
Inductive JsonValue :=
| Manifest (versions : list ManifestEntry)
| Descriptor (version : Launch.Version)
| Other.

(** The text of a file or of a response body, taken up to what
    [JSON.parse] makes of it; [JSON.stringify(v, null, 2)] is [Json v]. *)
Inductive Document :=
| Unparsable
| Json (v : JsonValue).

(** What [request.get] hands to its callback: an error with its [code] and
    [message], or a body. *)
Inductive Answer :=
| Failed (code message : string)
| Body (body : Document).

(** The part of [this.options] that [getVersion] reads. *)
Record Options := mkOptions {
  root : Pipeline.Path;
  number : string;                       (* version.number *)
  directory : Pipeline.Path;
  versionJson : option Pipeline.Path;    (* overrides.versionJson *)
  cache : option Pipeline.Path;
  meta : string                          (* overrides.url.meta *)
}.

(** The collaborators: the network, and the error [fs.writeFile] may pass
    to its callback. *)
Record Env := mkEnv {
  net : string -> Answer;
  writeFile_error : option string
}.

Record Result := mkResult {
  files : gmap Pipeline.Path Document;   (* the files afterwards *)
  requests : list string;                (* the urls requested, in order *)
  outcome : Js.Outcome (string + JsonValue)
    (* an Error's message or the version the promise is resolved with; an
       exception in the executor rejects the promise, one in a callback
       leaves it unsettled *)
}.

(** [fs.existsSync] on this file system. *)
Definition existsSync (fs : gmap Pipeline.Path Document) (p : Pipeline.Path) : bool :=
  bool_decide (p = []) || bool_decide (is_Some (fs !! p)).

Definition versionJsonPath (o : Options) : Pipeline.Path :=
  default (directory o ++ [number o +:+ ".json"]) (versionJson o).

Definition manifest_url (o : Options) : string :=
  meta o +:+ "/mc/game/version_manifest.json".

Definition cache_directory (o : Options) : Pipeline.Path :=
  default (root o ++ ["cache"]) (cache o) ++ ["json"].

(** [manifest.versions.find(version => version.id === number)] *)
Definition desiredVersion (o : Options) (versions : list ManifestEntry) : option ManifestEntry :=
  find (fun version => String.eqb (id version) (number o)) versions.

Definition no_connection : string :=
  "No internet connection and no cached version available".

(** The [else] branch of the manifest callback: "Offline mode". *)
Definition offline (o : Options) (fs : gmap Pipeline.Path Document)
    : Js.Outcome (string + JsonValue) :=
  let cachedManifest := cache_directory o ++ ["version_manifest.json"] in
  if existsSync fs cachedManifest then
    match fs !! cachedManifest with
    | Some (Json (Manifest versions)) =>
        match desiredVersion o versions with
        | Some _ =>
            let cachedVersion := cache_directory o ++ [number o +:+ ".json"] in
            if existsSync fs cachedVersion then
              match fs !! cachedVersion with
              | Some (Json v) => Js.Returned (inr v)
              | _ => Js.Never
              end
            else Js.Returned (inl no_connection)
        | None => Js.Returned (inl no_connection)
        end
    | _ => Js.Never
    end
  else Js.Returned (inl no_connection).

(** The callback of the request for the version's own descriptor. *)
Definition fetch_descriptor (env : Env) (o : Options) (fs : gmap Pipeline.Path Document)
    (desired : ManifestEntry) : Result :=
  let rs := [manifest_url o; url desired] in
  match net env (url desired) with
  | Failed _ message => mkResult fs rs (Js.Returned (inl message))
  | Body Unparsable => mkResult fs rs Js.Never
  | Body (Json v) =>
      mkResult (<[versionJsonPath o := Json v]> fs) rs (Js.Returned (inr v))
  end.

(** [getVersion()] on the files [fs]. Directories are not part of [fs], so
    the two [mkdirSync] calls, and the ['debug'] event that tells of the first,
    leave no trace here. *)
Definition getVersion (env : Env) (o : Options) (fs : gmap Pipeline.Path Document) : Result :=
  if existsSync fs (versionJsonPath o) then
    match fs !! versionJsonPath o with
    | Some (Json v) => mkResult fs [] (Js.Returned (inr v))
    | Some Unparsable => mkResult fs [] (Js.Threw "SyntaxError")
    | None => mkResult fs [] (Js.Threw "EISDIR")
    end
  else
    match net env (manifest_url o) with
    | Failed code message =>
        if negb (String.eqb code "ENOTFOUND")
        then mkResult fs [manifest_url o] (Js.Returned (inl message))
        else mkResult fs [manifest_url o] (offline o fs)
    | Body body =>
        match writeFile_error env with
        | Some err => mkResult fs [manifest_url o] (Js.Returned (inl err))
        | None =>
            let fs1 := <[cache_directory o ++ ["version_manifest.json"] := body]> fs in
            match body with
            | Json (Manifest versions) =>
                match desiredVersion o versions with
                | Some desired => fetch_descriptor env o fs1 desired
                | None =>
                    mkResult fs1 [manifest_url o]
                      (Js.Returned (inl ("Version " +:+ number o +:+ " not found")))
                end
            | _ => mkResult fs1 [manifest_url o] Js.Never
            end
        end
    end.

(** What [launch] sees of the result: [versionFile], read as a descriptor. *)
Definition versionFile (r : Result) : Js.Outcome (string + Launch.Version) :=
  match outcome r with
  | Js.Returned (inl message) => Js.Returned (inl message)
  | Js.Returned (inr (Descriptor v)) => Js.Returned (inr v)
  | Js.Returned (inr _) => Js.Threw "TypeError"
  | Js.Threw e => Js.Threw e
  | Js.Never => Js.Never
  end.

End Resolver.

(** ** Native libraries: [Handler.getNatives] *)

Module Natives.

Import Pipeline.

(** What [getNatives] reads of an element of [version.libraries]:
    [lib.rules] and [lib.downloads.classifiers], which is missing when the
    library has no [downloads] or no classifiers. *)
Record Library := mkLibrary {
  rules : option (list Rules.Rule);
  classifiers : option (gmap string Artifact)
}.

(** The part of [this.options] that [getNatives] reads. *)
Record Options := mkOptions {
  root : Path;
  cwd : option Path;        (* overrides.cwd *)
  natives : option Path     (* overrides.natives *)
}.

(** A download in flight: its url and the file it writes. *)
Record Task := mkTask {
  t_url : string;
  t_file : Path
}.

Record Run := mkRun {
  files : gmap Path string;
  fetched : list string;
  pending : list Task
}.

(** The callback of the first [Promise.all]: the classifier of a library
    for the current OS, if the library has classifiers and its rules do not
    exclude it. *)
Definition native (cur : string) (lib : Library) : option Artifact :=
  match classifiers lib with
  | None => None
  | Some cs =>
      if Rules.parseRule (rules lib) cur then None
      else if String.eqb cur "osx" then
        match cs !! "natives-osx" with
        | Some n => Some n
        | None => cs !! "natives-macos"
        end
      else cs !! ("natives-" +:+ cur)
  end.

(** [s.endsWith(suffix)] *)
Definition endsWith (suffix s : string) : bool :=
  String.prefix (String.rev suffix) (String.rev s).

(** [p] names a file directly in [dir]: its name. *)
Fixpoint entry (dir p : Path) : option string :=
  match dir, p with
  | [], [name] => Some name
  | d :: dir', x :: p' => if String.eqb d x then entry dir' p' else None
  | _, _ => None
  end.

(** [p] lies somewhere below [dir]. *)
Fixpoint below (dir p : Path) : bool :=
  match dir, p with
  | [], _ :: _ => true
  | d :: dir', x :: p' => String.eqb d x && below dir' p'
  | _, _ => false
  end.

(** [fs.readdirSync(dir).length] is not zero: some file lies below [dir]. *)
Definition populated (fs : gmap Path string) (dir : Path) : bool :=
  existsb (fun kv => below dir kv.1) (map_to_list fs).

(** [fs.readdirSync(dir).filter(file => file.endsWith('.jar'))] *)
Definition archives (fs : gmap Path string) (dir : Path) : list string :=
  filter (fun file => endsWith ".jar" file = true)
         (omap (fun kv => entry dir kv.1) (map_to_list fs)).

(** The callback of the second [Promise.all], up to its [await]. *)
Definition native_callback (nativeDirectory : Path) (r : Run) (n : Artifact) : Run :=
  let nativePath := nativeDirectory ++ [basename (a_path n)] in
  if existsSync (files r) nativePath then r
  else mkRun (files r) (fetched r ++ [a_url n])
             (pending r ++ [mkTask (a_url n) nativePath]).

(** The downloads complete in the order of the schedule, each writing its
    file. They are made with [retry = true], where [downloadAsync] resolves
    once the write stream has finished, whatever the status of the response,
    and is left pending by a transport error: [net] gives what ends up in
    the file, and a download that never completes is one the schedule leaves
    out. *)
Fixpoint settle (net : string -> string) (sched : list nat) (r : Run) : Run :=
  match sched with
  | [] => r
  | k :: sched' =>
      let i := (k mod length (pending r))%nat in
      match pending r !! i with
      | Some t =>
          settle net sched'
            (mkRun (<[t_file t := net (t_url t)]> (files r)) (fetched r)
                   (delete i (pending r)))
      | None => r
      end
  end.

(** The callback of the third [Promise.all]: the archive is unpacked into
    the natives directory, over what is there, and removed. [unzip] gives the
    entries an archive's bytes hold; a broken archive holds none. *)
Definition extract (unzip : string -> list (Path * string)) (nativeDirectory : Path)
    (fs : gmap Path string) (file : string) : gmap Path string :=
  let unpacked :=
    match fs !! (nativeDirectory ++ [file]) with
    | Some bytes =>
        fold_left (fun fs' e => <[nativeDirectory ++ e.1 := e.2]> fs') (unzip bytes) fs
    | None => fs
    end in
  delete (nativeDirectory ++ [file]) unpacked.

(** [getNatives()] for the version [id]: the files and the requests
    afterwards, and the directory the promise is resolved with. *)
Definition getNatives (net : string -> string) (unzip : string -> list (Path * string))
    (sched : list nat) (cur : string) (o : Options) (id : string)
    (libraries : list Library) (fs : gmap Path string)
    : Run * Js.Outcome Path :=
  let nativeDirectory := default (root o ++ ["natives"; id]) (natives o) in
  if Js.nan_ge (Launch.minor id) 19 then
    (mkRun fs [] [], Js.Returned (default (root o) (cwd o)))
  else if bool_decide (is_Some (fs !! nativeDirectory)) then
    (mkRun fs [] [], Js.Threw "ENOTDIR")
  else if populated fs nativeDirectory then
    (mkRun fs [] [], Js.Returned nativeDirectory)
  else
    let found := omap (native cur) libraries in
    let r := settle net sched
               (fold_left (native_callback nativeDirectory) found (mkRun fs [] [])) in
    match pending r with
    | [] =>
        let fs' := fold_left (extract unzip nativeDirectory)
                             (archives (files r) nativeDirectory) (files r) in
        (mkRun fs' (fetched r) [], Js.Returned nativeDirectory)
    | _ => (r, Js.Never)
    end.

End Natives.

(** ** Identities: [components/authenticator.js] *)

Module Authenticator.

(** [ToInt32]: the value a bitwise operator makes of a number. *)
Definition toInt32 (z : Z) : Z := (z + 2 ^ 31) mod 2 ^ 32 - 2 ^ 31.

(** [data.charCodeAt(i)] for every [i]; a [string] is the sequence of its
    code units. *)
Fixpoint charCodes (data : string) : list Z :=
  match data with
  | EmptyString => []
  | String c rest => Z.of_N (N_of_ascii c) :: charCodes rest
  end.

(** The body of the loop of [generateOfflineUuid]:
    [hash = ((hash << 5) - hash) + char; hash = hash & hash]. *)
Definition hash_step (hash char : Z) : Z :=
  let hash := (toInt32 (toInt32 hash * 2 ^ 5) - hash) + char in
  toInt32 hash.

Definition hashCode (codes : list Z) : Z := fold_left hash_step codes 0.

Definition hex_char (d : Z) : ascii :=
  default "0"%char (String.get (Z.to_nat d) "0123456789abcdef").

(** The hexadecimal digits of [n], most significant first, in front of
    [acc]. *)
Fixpoint toString16_from (fuel : nat) (n : Z) (acc : string) : string :=
  match fuel with
  | O => acc
  | S fuel' =>
      let acc' := String (hex_char (n mod 16)) acc in
      if n / 16 =? 0 then acc' else toString16_from fuel' (n / 16) acc'
  end.

(** [n.toString(16)] for a natural number [n]. *)
Definition toString16 (n : Z) : string :=
  toString16_from (S (Z.to_nat (Z.log2 n))) n "".

Fixpoint repeat_char (k : nat) (c : ascii) : string :=
  match k with
  | O => ""
  | S k' => String c (repeat_char k' c)
  end.

(** [s.padStart(targetLength, c)] *)
Definition padStart (targetLength : nat) (c : ascii) (s : string) : string :=
  repeat_char (targetLength - String.length s) c +:+ s.

(** [generateOfflineUuid(username)] *)
Definition generateOfflineUuid (username : string) : string :=
  let data := "OfflinePlayer:" +:+ username in
  let hash := hashCode (charCodes data) in
  let hex := padStart 8 "0" (toString16 (Z.abs hash)) in
  String.substring 0 8 hex +:+ "-" +:+ String.substring 0 4 hex
    +:+ "-4" +:+ String.substring 1 3 hex
    +:+ "-8" +:+ String.substring 0 3 hex
    +:+ "-" +:+ String.substring 0 12 hex.

(** [meta] of a profile. *)
Record ProfileMeta := mkProfileMeta {
  type : string;
  demo : bool;
  xuid : option string;
  legacy : option bool
}.

(** The user profile object the authentication functions return. *)
Record Profile := mkProfile {
  access_token : string;
  client_token : string;
  uuid : string;
  name : string;
  user_properties : string;
  meta : ProfileMeta
}.

(** The profile as the authorization object of a launch. *)
Definition authorization (p : Profile) : Options.Authorization :=
  Options.mkAuthorization (access_token p) (client_token p) (uuid p) (name p)
    (user_properties p)
    (Some (Options.mkMeta (type (meta p)) (xuid (meta p)))).

(** [getOfflineAuth(username)]; anything but a non-empty string makes it
    throw. *)
Definition getOfflineAuth (username : Js.Value) : Js.Outcome Profile :=
  match username with
  | Js.VStr s =>
      if String.eqb s "" then
        Js.Threw "Error: Username is required for offline authentication"
      else
        let offlineUuid := generateOfflineUuid s in
        Js.Returned (mkProfile offlineUuid offlineUuid offlineUuid s "{}"
                               (mkProfileMeta "offline" false None None))
  | _ => Js.Threw "Error: Username is required for offline authentication"
  end.

(** [refreshAuth(accessToken, clientToken, type)]; [yggdrasil] is how the
    case that talks to the server ends. *)
Definition refreshAuth (yggdrasil : Js.Outcome Profile)
    (accessToken clientToken : string) (type : string) : Js.Outcome Profile :=
  if String.eqb type "yggdrasil" then yggdrasil
  else if String.eqb type "microsoft" then
    Js.Threw "Error: Microsoft token refresh requires re-authentication"
  else
    Js.Returned (mkProfile accessToken clientToken accessToken "OfflineUser" "{}"
                           (mkProfileMeta "offline" false None None)).

(** [validate(accessToken, clientToken, type)]; [post] is the status of the
    server's response, or the failure of the request. *)
Definition validate (post : Js.Outcome Z) (accessToken clientToken : string)
    (type : string) : Js.Outcome bool :=
  if String.eqb type "yggdrasil" then
    match post with
    | Js.Returned status => Js.Returned (status =? 204)
    | Js.Threw _ => Js.Returned false
    | Js.Never => Js.Never
    end
  else if String.eqb type "microsoft" then
    Js.Returned (negb (String.eqb accessToken "")
                 && (length (Js.split "." accessToken) =? 3)%nat)
  else Js.Returned true.

(** [API_URLS.yggdrasil] *)
Record Urls := mkUrls {
  authenticate : string;
  refresh : string;
  validate_url : string;
  invalidate : string;
  signout : string
}.

Definition endpoints (baseUrl : string) : Urls :=
  mkUrls (baseUrl +:+ "/authenticate") (baseUrl +:+ "/refresh")
         (baseUrl +:+ "/validate") (baseUrl +:+ "/invalidate")
         (baseUrl +:+ "/signout").

Definition default_urls : Urls := endpoints "https://authserver.mojang.com".

(** [url.replace(/\/$/, '')]: a slash at the very end is removed. *)
Fixpoint chop_slash (url : string) : string :=
  match url with
  | EmptyString => EmptyString
  | String c rest =>
      match rest with
      | EmptyString => if Ascii.eqb c "/" then EmptyString else url
      | _ => String c (chop_slash rest)
      end
  end.

(** [changeApiUrl(url, service)] on the module-level [API_URLS]: the urls
    afterwards and the object returned. *)
Definition changeApiUrl (url : Js.Value) (service : string) (urls : Urls)
    : Urls * Js.Outcome Urls :=
  match url with
  | Js.VStr s =>
      if String.eqb s "" then (urls, Js.Threw "Error: URL is required and must be a string")
      else
        let baseUrl := chop_slash s in
        let urls' :=
          if String.eqb service "yggdrasil" || String.eqb service "all"
          then endpoints baseUrl else urls in
        (urls', Js.Returned urls')
  | _ => (urls, Js.Threw "Error: URL is required and must be a string")
  end.

(** [resetApiUrls()] *)
Definition resetApiUrls (urls : Urls) : Urls * Urls := (default_urls, default_urls).

End Authenticator.

(** ** Further vocabulary *)

Module More.

(** With respect to the files [fs0] a batch started from: every download in
    flight writes a file that did not exist then, and no file that existed
    then has changed. *)
Definition untouched (fs0 : gmap Pipeline.Path string) (r : Pipeline.Run) : Prop :=
  (forall t, t ∈ Pipeline.pending r -> fs0 !! Pipeline.write_path t = None)
  /\ (forall p c, fs0 !! p = Some c -> Pipeline.files r !! p = Some c).


(** A fetch that calls for a retry: a status other than 200, or a
    transport error. *)
Definition failed (f : option Download.Fetch) : bool :=
  match f with
  | Some (Download.BadStatus c) => negb (c =? 200)
  | Some (Download.TransportError _) => true
  | _ => false
  end.

(** The codes of the ['close'] events of a log, and the argument lists of
    its ['arguments'] events. *)
Definition closes (log : list Launch.Event) : list Z :=
  omap (fun e => match e with Launch.Close code => Some code | _ => None end) log.

Definition announced (log : list Launch.Event) : list (list Js.Value) :=
  omap (fun e => match e with Launch.Arguments args => Some args | _ => None end) log.

(** A statement of [launch] that emits neither ['close'] nor
    ['arguments']. *)
Definition quiet {A} (m : Launch.M A) : Prop :=
  forall s, closes (Launch.log (m s).1) = closes (Launch.log s)
            /\ announced (Launch.log (m s).1) = announced (Launch.log s).

(** A tail of the [try] block that ends in one of the three ways [launch]
    can end, when no ['close'] event has been emitted before it. *)
Definition closing (m : Launch.M Launch.Result) : Prop :=
  forall s, closes (Launch.log s) = [] ->
    match (m s).2 with
    | Js.Returned (Launch.Process args) =>
        closes (Launch.log (m s).1) = []
        /\ announced (Launch.log (m s).1) = announced (Launch.log s) ++ [args]
    | Js.Returned Launch.Null =>
        closes (Launch.log (m s).1) = [1]
        /\ last (Launch.log (m s).1) = Some (Launch.Close 1)
    | Js.Returned Launch.NoReturn => False
    | Js.Threw _ => closes (Launch.log (m s).1) = []
    | Js.Never => closes (Launch.log (m s).1) = []
    end.

(** The test the argument loop makes on the rule list of a token, in
    words: the list has no allow rule, or its last allow rule names the
    target OS. *)
Definition allowed_token (cur : string) (rs : list Rules.Rule) : bool :=
  match Rules.find_last Rules.is_allow rs with
  | Some r => Rules.names cur r
  | None => true
  end.

(** What the loop "Replace argument variables" makes of an argument list,
    told token by token from left to right. A string is looked up in the
    table. A token with a rule list is dropped unless its rules pass the test
    and its value is truthy; otherwise its value takes its place: a single
    string as it is, an array with its first element as it is and the others
    looked up in the table. After an included token whose value is an empty
    array the loop steps over the next element without looking at it:
    [stepped] says that the first element of [args] is such an element. An
    object without a rule list stays where it is. *)
Fixpoint expansion (cur : string) (tbl : list (string * Js.Value)) (stepped : bool)
    (args : list Options.Arg) : list Options.Arg :=
  match args with
  | [] => []
  | a :: tl =>
      if stepped then a :: expansion cur tbl false tl
      else
        match a with
        | Options.Lit v =>
            Options.Lit (Options.substitute tbl v) :: expansion cur tbl false tl
        | Options.Obj o =>
            match Options.rules o with
            | None => a :: expansion cur tbl false tl
            | Some rs =>
                if allowed_token cur rs && Options.truthy (Options.value o) then
                  match Options.value o with
                  | Some (Options.One v) =>
                      Options.Lit (Js.VStr v) :: expansion cur tbl false tl
                  | Some (Options.Many []) => expansion cur tbl true tl
                  | Some (Options.Many (v :: vs)) =>
                      Options.Lit (Js.VStr v)
                      :: (Options.Lit ∘ Options.substitute tbl ∘ Js.VStr <$> vs)
                      ++ expansion cur tbl false tl
                  | None => a :: expansion cur tbl false tl
                  end
                else expansion cur tbl false tl
            end
        end
  end.

(** The list the loop of [getLaunchOptions] starts from: the tokens of the
    legacy argument string or [arguments.game], and the custom arguments
    after them. *)
Definition arguments (i : Options.Input) : list Options.Arg :=
  match Options.minecraftArguments i with
  | Some s => if String.eqb s "" then Options.arguments_game i
              else Options.Lit ∘ Js.VStr <$> Js.split " " s
  | None => Options.arguments_game i
  end ++ default [] (Options.customLaunchArgs i).

(** [hay] contains [needle]: some text, then [needle], then some text. *)
Definition contains (needle hay : string) : Prop :=
  exists pre post, hay = pre +:+ needle +:+ post.

(** None of the flags names a log4j configuration file. *)
Definition unconfigured (flags : list string) : Prop :=
  forall flag, flag ∈ flags -> ~ contains "Dlog4j.configurationFile" flag.

(** A stream event that reports a failed fetch: a response with a status
    other than 200, or an error of the request stream. *)
Definition failure (ev : Download.StreamEvent) : bool :=
  match ev with
  | Download.Response statusCode => negb (statusCode =? 200)
  | Download.StreamError _ => true
  | _ => false
  end.

Fixpoint failures (evs : list Download.StreamEvent) : nat :=
  match evs with
  | [] => O
  | ev :: rest => ((if failure ev then 1 else 0) + failures rest)%nat
  end.

(** The collaborators of a launch whose version descriptor is the one this
    call of [getVersion] comes to. *)
Definition resolving (env : Launch.Env) (r : Resolver.Result) : Launch.Env :=
  Launch.mkEnv (Launch.package_json env) (Launch.checkJava env) (Launch.root_exists env)
    (Resolver.versionFile r)
    (Launch.getNatives env) (Launch.jar_exists env) (Launch.jar_exists_after env)
    (Launch.download env) (Launch.getClasses env) (Launch.getAssets env)
    (Launch.getLaunchOptions env) (Launch.spawn env).

End More.

(** ** Concrete inputs on which the properties are exercised *)

(** A network, a library batch and an asset index to run the pipeline on. *)
Definition sample_net (url : string) : string := "body of " +:+ url.

Definition sample_libraries : list Pipeline.Library :=
  [ Pipeline.mkLibrary None
      (Some (Pipeline.mkDownloads
               (Some (Pipeline.mkArtifact ["com"; "mojang"; "brigadier.jar"]
                                          "https://libraries.minecraft.net/brigadier.jar"))))
      [] "";
    Pipeline.mkLibrary (Some [Rules.allow_any])
      (Some (Pipeline.mkDownloads
               (Some (Pipeline.mkArtifact ["org"; "lwjgl"; "lwjgl.jar"]
                                          "https://libraries.minecraft.net/lwjgl.jar"))))
      [] "" ].

Definition sample_objects : list Pipeline.Asset :=
  [ Pipeline.mkAsset "icons/icon_16x16.png" "bdf48ef6b5d0d23bbb02e17d04865216179f510a";
    Pipeline.mkAsset "minecraft/lang/en_gb.json" "0a5c1a9d1f3f0a4e8e6c2c5f4e0b6a1d2c3e4f50" ].

Definition sample_run : Pipeline.Run := Pipeline.mkRun ∅ 7 [] [] [] [].

(** An identity without a [meta] field, and a launch that uses it. *)
Definition sample_identity : Options.Authorization :=
  Options.mkAuthorization "token" "client" "069a79f4-44e9-4726-a5be-fca90e38aaf5"
                          "Steve" "{}" None.

Definition sample_input : Options.Input :=
  Options.mkInput None
    [ Options.Lit (Js.VStr "--username");
      Options.Lit (Js.VStr "${auth_player_name}");
      Options.Obj (Options.mkConditional (Some [Rules.allow_on "osx"])
                                         (Some (Options.One "--demo"))) ]
    None 1%nat "1.20.1" (Some "release") "/home/steve/.minecraft" None
    "/home/steve/.minecraft/assets" false "5" None.

(** A launch of 1.20.1 on linux with no jar on disk. *)
Definition sample_options : Launch.LaunchOptions :=
  Launch.mkOptions None ["home"; "steve"; ".minecraft"] "1.20.1"
    (Some (Memory.mkConfig (Memory.MStr "4G") (Memory.MStr "2G")))
    "linux" None None None None None.

Definition sample_version : Launch.Version :=
  Launch.mkVersion "1.20.1" (Js.VStr "net.minecraft.client.main.Main")
                   "https://piston-data.mojang.com/v1/objects/client.jar".

(** Collaborators that all succeed, except that the server answers every
    download as [answers] says: the first element for the request, the
    second for its retry. *)
Definition sample_env (answers : list Download.Fetch) : Launch.Env :=
  Launch.mkEnv true (true, "") true
    (Js.Returned (inr sample_version))
    (Js.Returned ["home"; "steve"; ".minecraft"])
    false true
    (Launch.download_via (fun _ => Download.world_of answers))
    (Js.Returned [["home"; "steve"; ".minecraft"; "libraries"; "brigadier.jar"];
                  ["home"; "steve"; ".minecraft"; "libraries"; "lwjgl.jar"]])
    (Js.Returned tt)
    (Js.Returned [Js.VStr "--username"; Js.VStr "Steve"])
    (fun _ => Js.Returned tt).

(** A version resolver with an empty disk: the manifest lists 1.20.1, and
    the descriptor is served at the url the manifest gives. *)
Definition sample_resolver_options : Resolver.Options :=
  Resolver.mkOptions ["home"; "steve"; ".minecraft"] "1.20.1"
    ["home"; "steve"; ".minecraft"; "versions"; "1.20.1"] None None
    "https://launchermeta.mojang.com".

Definition sample_resolver_env : Resolver.Env :=
  Resolver.mkEnv
    (fun url =>
       if String.eqb url "https://launchermeta.mojang.com/mc/game/version_manifest.json"
       then Resolver.Body (Resolver.Json (Resolver.Manifest
              [Resolver.mkEntry "1.20.1" "https://piston-meta.mojang.com/1.20.1.json"]))
       else Resolver.Body (Resolver.Json (Resolver.Descriptor sample_version)))
    None.

(** The same resolver asked for a version the manifest does not list, and
    one without a connection. *)
Definition sample_unlisted_options : Resolver.Options :=
  Resolver.mkOptions ["home"; "steve"; ".minecraft"] "1.99"
    ["home"; "steve"; ".minecraft"; "versions"; "1.99"] None None
    "https://launchermeta.mojang.com".

Definition sample_offline_env : Resolver.Env :=
  Resolver.mkEnv (fun _ => Resolver.Failed "ENOTFOUND" "getaddrinfo ENOTFOUND") None.

(** Libraries with and without native classifiers, for 1.16.5 on linux. *)
Definition sample_native_libraries : list Natives.Library :=
  [ Natives.mkLibrary None
      (Some {[ "natives-linux" :=
                 Pipeline.mkArtifact ["org"; "lwjgl"; "lwjgl-natives-linux.jar"]
                   "https://libraries.minecraft.net/lwjgl-natives-linux.jar" ]});
    Natives.mkLibrary None None;
    Natives.mkLibrary (Some [Rules.allow_on "osx"])
      (Some {[ "natives-osx" :=
                 Pipeline.mkArtifact ["ca"; "weblite"; "java-objc-bridge-natives-osx.jar"]
                   "https://libraries.minecraft.net/java-objc-bridge-natives-osx.jar" ]}) ].

Definition sample_native_options : Natives.Options :=
  Natives.mkOptions ["home"; "steve"; ".minecraft"] None None.

(** A version of the old format, with its argument string. *)
Definition sample_legacy_input : Options.Input :=
  Options.mkInput (Some "--username ${auth_player_name} --session ${auth_session}")
    [] None 1%nat "1.5.2" None "/home/steve/.minecraft" None
    "/home/steve/.minecraft/assets" true "legacy" None.

(** * Properties *)

(** ** Rule evaluation *)

(** The rule lists found in version manifests. *)
Example parseRule_allow_then_disallow_osx :
  Rules.included (Some [Rules.allow_any; Rules.disallow_on "osx"]) "linux" = true
  /\ Rules.included (Some [Rules.allow_any; Rules.disallow_on "osx"]) "osx" = false
  /\ Rules.included (Some [Rules.allow_on "osx"]) "osx" = true
  /\ Rules.included (Some [Rules.allow_on "osx"]) "windows" = false
  /\ Rules.included None "windows" = true
  /\ Rules.included (Some []) "windows" = false.
Proof. repeat split. Qed.

Section RuleFacts.
Import Rules.
Variable cur : string.

Lemma find_last_snoc {A} (p : A -> bool) (l : list A) (x : A) :
  find_last p (l ++ [x]) = if p x then Some x else find_last p l.
Proof. unfold find_last. rewrite rev_app_distr. reflexivity. Qed.

(** A decisive rule overwrites the accumulator with its verdict, any other
    rule leaves it alone. *)
Lemma parseRule_step_decisive (acc : bool) (r : Rule) :
  parseRule_step cur acc r = if decisive cur r then verdict cur r else acc.
Proof.
  unfold parseRule_step, decisive, verdict, is_allow, names, matches.
  destruct (String.eqb (action r) "allow") eqn:Ha; simpl.
  - destruct (os r); reflexivity.
  - destruct (String.eqb (action r) "disallow"); simpl; [|reflexivity].
    destruct (os r) as [o|]; [|reflexivity].
    destruct (os_is cur o); reflexivity.
Qed.

Lemma parseRule_fold (rules : list Rule) (acc : bool) :
  fold_left (parseRule_step cur) rules acc =
  match find_last (decisive cur) rules with
  | Some r => verdict cur r
  | None => acc
  end.
Proof.
  induction rules as [|r rules IH] using rev_ind; [reflexivity|].
  rewrite fold_left_app, find_last_snoc. simpl.
  rewrite parseRule_step_decisive, IH.
  destruct (decisive cur r); reflexivity.
Qed.

Lemma shouldInclude_step_allow (acc : bool) (r : Rule) :
  shouldInclude_step cur acc r = if is_allow r then names cur r else acc.
Proof. reflexivity. Qed.

Lemma shouldInclude_fold (rules : list Rule) (acc : bool) :
  fold_left (shouldInclude_step cur) rules acc =
  match find_last is_allow rules with
  | Some r => names cur r
  | None => acc
  end.
Proof.
  induction rules as [|r rules IH] using rev_ind; [reflexivity|].
  rewrite fold_left_app, find_last_snoc. simpl.
  rewrite shouldInclude_step_allow, IH.
  destruct (is_allow r); reflexivity.
Qed.

Lemma os_is_named (a : string) : os_is cur (mkOs (Some a)) = String.eqb a cur.
Proof. reflexivity. Qed.

End RuleFacts.

(** C1, as the specification words it, does not hold: an allow rule for
    another OS overrides an earlier unconstrained allow rule although it does
    not match, and an unconstrained disallow rule is ignored although it
    matches. Whatever the default, "last matching rule wins" gives the
    opposite verdict on both lists. *)
Lemma parseRule_not_last_match :
  Rules.included (Some [Rules.allow_any; Rules.allow_on "osx"]) "linux" = false
  /\ (forall dflt,
        Rules.spec_last_match dflt [Rules.allow_any; Rules.allow_on "osx"] "linux" = true)
  /\ Rules.included (Some [Rules.allow_any; Rules.disallow_any]) "linux" = true
  /\ (forall dflt,
        Rules.spec_last_match dflt [Rules.allow_any; Rules.disallow_any] "linux" = false).
Proof. repeat split. Qed.

(** C1 (amended): [parseRule] reads the rules left to right and the last
    DECISIVE rule wins, where every allow rule is decisive (it includes the
    library when it has no OS constraint or names the target OS and excludes
    it when it names another OS) and a disallow rule is decisive only when it
    is constrained to the target OS; a rule list without a decisive rule
    excludes. Hence a final unconstrained allow rule includes on every
    platform, a final disallow rule constrained to an OS excludes exactly
    that OS and leaves the verdict of the rules before it on every other,
    and a library without a [rules] field is always included. *)
Theorem parseRule_last_decisive_rule_wins (cur : string) (rules : list Rules.Rule) :
  Rules.parseRule None cur = false
  /\ Rules.parseRule (Some rules) cur =
       match Rules.find_last (Rules.decisive cur) rules with
       | Some r => negb (Rules.verdict cur r)
       | None => true
       end
  /\ Rules.parseRule (Some (rules ++ [Rules.allow_any])) cur = false
  /\ (forall a, Rules.parseRule (Some (rules ++ [Rules.disallow_on a])) cur =
                if String.eqb a cur then true else Rules.parseRule (Some rules) cur).
Proof.
  unfold Rules.parseRule. repeat split.
  - rewrite parseRule_fold. destruct (Rules.find_last _ _); reflexivity.
  - rewrite fold_left_app. reflexivity.
  - intros a. rewrite fold_left_app. simpl.
    unfold Rules.parseRule_step at 1. simpl. rewrite os_is_named.
    destruct (String.eqb a cur); reflexivity.
Qed.

(** ** The argument loop of [getLaunchOptions] *)

(** The player's name takes the place of its placeholder, and the token for
    osx is kept on osx only. *)
Example getLaunchOptions_sample :
  (Options.getLaunchOptions "osx" sample_input {[ 1%nat := sample_identity ]}).2
  = Js.Returned [Js.VStr "--username"; Js.VStr "Steve"; Js.VStr "--demo"]
  /\ (Options.getLaunchOptions "linux" sample_input {[ 1%nat := sample_identity ]}).2
     = Js.Returned [Js.VStr "--username"; Js.VStr "Steve"].
Proof. split; reflexivity. Qed.

Section ArgumentLoop.
Import Options.
Variable cur : string.
Variable tbl : list (string * Js.Value).

Lemma iterations_app (l1 l2 : list Arg) :
  iterations (l1 ++ l2) = (iterations l1 + iterations l2)%nat.
Proof.
  induction l1 as [|a l1 IH]; [reflexivity|].
  change (iterations ((a :: l1) ++ l2)) with (weight a + iterations (l1 ++ l2))%nat.
  change (iterations (a :: l1)) with (weight a + iterations l1)%nat.
  rewrite IH. lia.
Qed.

Lemma iterations_literals (vs : list Js.Value) :
  iterations (Lit <$> vs) = length vs.
Proof.
  induction vs as [|v vs IH]; [reflexivity|].
  change (iterations (Lit <$> v :: vs)) with (S (iterations (Lit <$> vs))).
  rewrite IH. reflexivity.
Qed.

Lemma iterations_drop1 (l : list Arg) :
  (iterations (drop 1 l) <= iterations l)%nat.
Proof.
  destruct l as [|a l]; [reflexivity|].
  change (drop 1 (a :: l)) with l.
  change (iterations (a :: l)) with (weight a + iterations l)%nat. lia.
Qed.

(** Every iteration brings the loop closer to its end. *)
Lemma iterations_cons (a : Arg) (l : list Arg) :
  iterations (a :: l) = (weight a + iterations l)%nat.
Proof. reflexivity. Qed.

Lemma weight_pos (a : Arg) : (1 <= weight a)%nat.
Proof. destruct a as [?|o]; simpl; [lia|]. destruct (value o) as [[?|?]|]; lia. Qed.

Lemma iteration_decreases (before : list Arg) (a : Arg) (tl : list Arg) :
  (iterations (iteration cur tbl before (a :: tl)).2 < iterations (a :: tl))%nat.
Proof.
  rewrite iterations_cons. pose proof (weight_pos a) as Hw.
  destruct a as [v|o]; cbn [iteration snd]; [lia|].
  destruct (rules o) as [rs|]; cbn [snd]; [|lia].
  destruct (Rules.shouldInclude rs cur && truthy (value o)); cbn [snd]; [|lia].
  unfold weight in *.
  destruct (value o) as [[v|vs]|]; cbn [snd]; try lia.
  rewrite list_fmap_compose.
  pose proof (iterations_drop1 ((Lit <$> (Js.VStr <$> vs)) ++ tl)) as Hd.
  rewrite iterations_app, iterations_literals, length_fmap in Hd. lia.
Qed.

(** The loop ends within [iterations] steps. *)
Lemma loop_total (fuel : nat) (before rest : list Arg) :
  (iterations rest <= fuel)%nat -> is_Some (loop fuel cur tbl before rest).
Proof.
  revert before rest. induction fuel as [|fuel IH]; intros before rest Hle.
  - destruct rest as [|a tl]; [eexists; reflexivity|].
    exfalso. rewrite iterations_cons in Hle. pose proof (weight_pos a). lia.
  - destruct rest as [|a tl]; [eexists; reflexivity|].
    cbn [loop]. pose proof (iteration_decreases before a tl) as Hd.
    destruct (iteration cur tbl before (a :: tl)) as [before' rest'].
    apply IH. cbn [snd] in Hd. lia.
Qed.

(** Literal tokens are substituted one by one. *)
Lemma loop_literals (vs : list Js.Value) (fuel : nat) (before rest : list Arg) :
  loop (length vs + fuel) cur tbl before ((Lit <$> vs) ++ rest) =
  loop fuel cur tbl (before ++ (Lit ∘ substitute tbl <$> vs)) rest.
Proof.
  revert before. induction vs as [|v vs IH]; intros before; simpl.
  - rewrite app_nil_r. reflexivity.
  - rewrite IH, <- app_assoc. reflexivity.
Qed.

Lemma loop_literals_enough (vs : list Js.Value) (fuel : nat) (before : list Arg) :
  (length vs <= fuel)%nat ->
  loop fuel cur tbl before (Lit <$> vs) =
  Some (before ++ (Lit ∘ substitute tbl <$> vs)).
Proof.
  intros Hle.
  pose proof (loop_literals vs (fuel - length vs) before []) as H.
  rewrite app_nil_r in H.
  replace (length vs + (fuel - length vs))%nat with fuel in H by lia.
  rewrite H. destruct (fuel - length vs)%nat; reflexivity.
Qed.

(** One conditional token followed by literal tokens. *)
Lemma loop_conditional_step (fuel : nat) (before : list Arg) (post : list Js.Value)
    (rs : list Rules.Rule) (val : ArgValue) :
  (length (values val) + length post <= S fuel)%nat -> (length post <= fuel)%nat ->
  loop (S fuel) cur tbl before (Obj (mkConditional (Some rs) (Some val)) :: (Lit <$> post)) =
  Some (before ++
        (if Rules.shouldInclude rs cur && truthy (Some val)
         then step_over tbl ((Js.VStr <$> values val) ++ post)
         else Lit ∘ substitute tbl <$> post)).
Proof.
  intros Hle Hpost. cbn [loop iteration rules value].
  destruct (Rules.shouldInclude rs cur && truthy (Some val)).
  - destruct val as [v|vs]; cbn [values] in *.
    + rewrite loop_literals_enough by exact Hpost.
      rewrite <- app_assoc. reflexivity.
    + rewrite list_fmap_compose, <- fmap_app.
      destruct ((Js.VStr <$> vs) ++ post) as [|x rest] eqn:E.
      * simpl. destruct fuel; rewrite app_nil_r; reflexivity.
      * assert (Hlen : (length rest <= fuel)%nat).
        { apply (f_equal length) in E.
          rewrite length_app, length_fmap in E. simpl in E. lia. }
        rewrite fmap_cons. cbn [take drop]. rewrite take_0, drop_0.
        rewrite loop_literals_enough by exact Hlen.
        rewrite <- app_assoc. reflexivity.
  - rewrite loop_literals_enough by lia. reflexivity.
Qed.

(** A conditional token between literal tokens. *)
Lemma loop_conditional (pre post : list Js.Value) (rs : list Rules.Rule) (val : ArgValue) :
  let args := (Lit <$> pre) ++ [Obj (mkConditional (Some rs) (Some val))]
              ++ (Lit <$> post) in
  loop (iterations args) cur tbl [] args =
  Some ((Lit ∘ substitute tbl <$> pre)
        ++ (if Rules.shouldInclude rs cur && truthy (Some val)
            then step_over tbl ((Js.VStr <$> values val) ++ post)
            else Lit ∘ substitute tbl <$> post)).
Proof.
  intros args. unfold args.
  rewrite !iterations_app, !iterations_literals.
  rewrite loop_literals.
  change ([Obj (mkConditional (Some rs) (Some val))] ++ (Lit <$> post))
    with (Obj (mkConditional (Some rs) (Some val)) :: (Lit <$> post)).
  assert (Hw : iterations [Obj (mkConditional (Some rs) (Some val))]
               = S (length (values val) - match val with One _ => 1 | Many _ => 0 end)).
  { destruct val as [v|vs]; simpl; [reflexivity|]. f_equal. lia. }
  rewrite Hw. cbn [Nat.add].
  destruct val as [v|vs]; cbn [values length Nat.sub] in *.
  - apply (loop_conditional_step (length post) _ post rs (One v)); simpl; lia.
  - rewrite Nat.sub_0_r.
    apply (loop_conditional_step (length vs + length post) _ post rs (Many vs));
      simpl; lia.
Qed.

End ArgumentLoop.

(** [getLaunchOptions] returns whenever the authorization object exists. *)
Lemma getLaunchOptions_returns (cur : string) (i : Options.Input)
    (heap : gmap Options.Ref Options.Authorization) :
  is_Some (heap !! Options.authorization i) ->
  exists args, (Options.getLaunchOptions cur i heap).2 = Js.Returned args.
Proof.
  intros [a Ha]. unfold Options.getLaunchOptions. rewrite Ha.
  match goal with
  | |- context [Options.loop (Options.iterations ?l) ?c ?t [] ?l] =>
      destruct (loop_total c t (Options.iterations l) [] l) as [args2 Hargs]; [lia|];
      rewrite Hargs
  end.
  eexists. reflexivity.
Qed.

(** C2, as the specification words it, does not hold. An argument token
    whose rules are a single disallow rule for the target OS is included
    although none of its rules is an allow rule; a library whose only rule
    allows another OS is excluded although no rule disallows it. *)
Lemma defaults_not_opt_in_opt_out :
  Rules.shouldInclude [Rules.disallow_on "linux"] "linux" = true
  /\ existsb Rules.is_allow [Rules.disallow_on "linux"] = false
  /\ Options.loop 1 "linux" []
       [] [Options.Obj (Options.mkConditional (Some [Rules.disallow_on "linux"])
                                              (Some (Options.One "--demo")))]
     = Some [Options.Lit (Js.VStr "--demo")]
  /\ Rules.included (Some [Rules.allow_on "osx"]) "linux" = false
  /\ existsb (fun r => String.eqb (Rules.action r) "disallow")
             [Rules.allow_on "osx"] = false.
Proof. repeat split. Qed.

Section ArgumentExpansion.
Import Options.
Variable cur : string.
Variable tbl : list (string * Js.Value).

Lemma expansion_literals (vs : list Js.Value) (tl : list Arg) :
  More.expansion cur tbl false ((Lit <$> vs) ++ tl)
  = (Lit ∘ substitute tbl <$> vs) ++ More.expansion cur tbl false tl.
Proof.
  induction vs as [|v vs IH]; [reflexivity|].
  rewrite !fmap_cons. cbn [app More.expansion]. rewrite IH. reflexivity.
Qed.

Lemma expansion_stepped (l : list Arg) :
  More.expansion cur tbl true l = take 1 l ++ More.expansion cur tbl false (drop 1 l).
Proof. destruct l as [|a l]; reflexivity. Qed.

(** The loop, given enough iterations, computes the expansion of what is
    left of the list. *)
Lemma loop_expansion (fuel : nat) :
  forall before rest,
    (iterations rest <= fuel)%nat ->
    loop fuel cur tbl before rest = Some (before ++ More.expansion cur tbl false rest).
Proof.
  induction fuel as [|fuel IH]; intros before rest Hle.
  - destruct rest as [|a tl]; [cbn; rewrite app_nil_r; reflexivity|].
    exfalso. rewrite iterations_cons in Hle. pose proof (weight_pos a). lia.
  - destruct rest as [|a tl]; [cbn; rewrite app_nil_r; reflexivity|].
    rewrite iterations_cons in Hle. pose proof (weight_pos a) as Hw.
    cbn [loop]. destruct a as [v|o].
    + cbn [iteration More.expansion]. rewrite IH by lia.
      rewrite <- app_assoc. reflexivity.
    + cbn [iteration More.expansion]. destruct (rules o) as [rs|] eqn:Er.
      * unfold Rules.shouldInclude. rewrite shouldInclude_fold.
        fold (More.allowed_token cur rs).
        destruct (More.allowed_token cur rs && truthy (value o)) eqn:Ei.
        -- unfold weight in Hle.
           destruct (value o) as [[v|[|v vs]]|] eqn:Ev.
           ++ rewrite IH by lia. rewrite <- app_assoc. reflexivity.
           ++ cbn [fmap list_fmap app]. 
              pose proof (iterations_drop1 tl) as Hd.
              rewrite IH by lia.
              rewrite expansion_stepped, <- app_assoc. reflexivity.
           ++ rewrite fmap_cons. cbn [app take drop]. rewrite take_0, drop_0.
              rewrite list_fmap_compose.
              rewrite IH.
              ** rewrite expansion_literals, <- app_assoc, <- !list_fmap_compose.
                 reflexivity.
              ** rewrite iterations_app, iterations_literals, length_fmap.
                 cbn [length] in Hle. lia.
           ++ rewrite IH by lia. rewrite <- app_assoc. reflexivity.
        -- rewrite IH by lia. reflexivity.
      * rewrite IH by lia. rewrite <- app_assoc. reflexivity.
Qed.

End ArgumentExpansion.

(** A token that follows an included token with an empty array as its value
    is stepped over by the loop: its rules are never read, it stays an
    object, and the final filter removes it. *)
Example token_after_empty_array :
  let first := Options.Obj (Options.mkConditional (Some [Rules.allow_on "linux"])
                                                  (Some (Options.Many []))) in
  let second := Options.Obj (Options.mkConditional (Some [Rules.allow_on "linux"])
                                                   (Some (Options.One "--demo"))) in
  Options.loop (Options.iterations [first; second]) "linux" [] [] [first; second]
    = Some [second]
  /\ omap Options.plain [second] = []
  /\ Options.loop (Options.iterations [second]) "linux" [] [] [second]
     = Some [Options.Lit (Js.VStr "--demo")].
Proof. repeat split. Qed.

(** C2 (amended): an argument token with the rule list [[{allow, os=A}]]
    and a truthy value, when the loop visits it, is included, its value in
    its place, exactly when the target OS is [A], and dropped otherwise; a
    library with that rule list is included exactly when the target OS is
    [A]. In general the loop goes through the list from left to right, and
    for every argument list its result is the expansion of the list: a
    visited token that carries a rule list is included exactly when its value
    is truthy and either the list has no allow rule or its last allow rule
    names the target OS (disallow rules are not read); the one token the loop
    does not visit is the element that follows an included token whose value
    is an empty array, which stays as it is, so that a rule-carrying token
    there is removed by the final filter whatever its rules. A library with
    a rule list is included exactly when its last decisive rule is an allow
    rule that is unconstrained or names the target OS. *)
Theorem conditional_inclusion (cur a : string) (rules : list Rules.Rule) :
  (forall tbl args,
     Options.loop (Options.iterations args) cur tbl [] args
     = Some (More.expansion cur tbl false args))
  /\ (forall i heap identity,
        heap !! Options.authorization i = Some identity ->
        (Options.getLaunchOptions cur i heap).2
        = Js.Returned
            (omap Options.plain
               (More.expansion cur (Options.fields i (Options.default_meta identity))
                               false (More.arguments i)
                ++ Options.window_args (Options.window i))))
  /\ More.allowed_token cur [Rules.allow_on a] = String.eqb a cur
  /\ (forall rs, Rules.shouldInclude rs cur = More.allowed_token cur rs)
  /\ (forall tbl pre post val,
     let token := Options.Obj (Options.mkConditional (Some [Rules.allow_on a]) (Some val)) in
     let args := (Options.Lit <$> pre) ++ [token] ++ (Options.Lit <$> post) in
     Options.loop (Options.iterations args) cur tbl [] args =
     Some ((Options.Lit ∘ Options.substitute tbl <$> pre)
           ++ (if String.eqb a cur && Options.truthy (Some val)
               then Options.step_over tbl ((Js.VStr <$> Options.values val) ++ post)
               else Options.Lit ∘ Options.substitute tbl <$> post)))
  /\ Rules.included (Some [Rules.allow_on a]) cur = String.eqb a cur
  /\ (forall tbl pre post val,
     let token := Options.Obj (Options.mkConditional (Some rules) (Some val)) in
     let args := (Options.Lit <$> pre) ++ [token] ++ (Options.Lit <$> post) in
     Options.loop (Options.iterations args) cur tbl [] args =
     Some ((Options.Lit ∘ Options.substitute tbl <$> pre)
           ++ (if More.allowed_token cur rules && Options.truthy (Some val)
               then Options.step_over tbl ((Js.VStr <$> Options.values val) ++ post)
               else Options.Lit ∘ Options.substitute tbl <$> post)))
  /\ Rules.included (Some rules) cur =
       match Rules.find_last (Rules.decisive cur) rules with
       | Some r => Rules.verdict cur r
       | None => false
       end.
Proof.
  assert (Hallow : More.allowed_token cur [Rules.allow_on a] = String.eqb a cur).
  { reflexivity. }
  split; [|split; [|split; [|split; [|split; [|split; [|split]]]]]].
  - intros tbl args. rewrite loop_expansion by lia. reflexivity.
  - intros i heap identity Hid. unfold Options.getLaunchOptions. rewrite Hid.
    match goal with
    | |- context [Options.loop (Options.iterations ?l) cur ?t [] ?l] =>
        rewrite (loop_expansion cur t (Options.iterations l) [] l) by lia;
        replace l with (More.arguments i)
    end; [reflexivity|].
    unfold More.arguments.
    destruct (Options.customLaunchArgs i); cbn [default]; [reflexivity|].
    rewrite app_nil_r. reflexivity.
  - exact Hallow.
  - intros rs. unfold Rules.shouldInclude. rewrite shouldInclude_fold. reflexivity.
  - intros tbl pre post val token args.
    unfold args, token. rewrite loop_conditional.
    unfold Rules.shouldInclude. rewrite shouldInclude_fold.
    fold (More.allowed_token cur [Rules.allow_on a]). rewrite Hallow. reflexivity.
  - unfold Rules.included, Rules.parseRule. simpl.
    unfold Rules.parseRule_step. simpl. rewrite os_is_named.
    destruct (String.eqb a cur); reflexivity.
  - intros tbl pre post val token args.
    unfold args, token. rewrite loop_conditional.
    unfold Rules.shouldInclude. rewrite shouldInclude_fold. reflexivity.
  - unfold Rules.included, Rules.parseRule.
    rewrite parseRule_fold, negb_involutive. reflexivity.
Qed.

(** ** One download *)

Section DownloadFacts.
Import Download.
Variable rq : Request.

(** With [retry] set, the handlers never call [reject] on a fetch failure:
    only a failing write stream rejects the promise. *)
Lemma handle_all_retry_no_reject self (evs : list StreamEvent) (p : Settled) (st : State) :
  rejected p = false -> (forall error, WriteError error ∉ evs) ->
  rejected (handle_all self true rq evs p st).1 = false.
Proof.
  revert p st. induction evs as [|ev evs IH]; intros p st Hp Hw; [exact Hp|].
  cbn [handle_all].
  destruct (handle self true rq ev p st) as [p' st'] eqn:Hh.
  apply IH.
  - destruct ev as [statusCode|error| |error]; cbn [handle on_failure] in Hh.
    + destruct (statusCode =? 200); [congruence|].
      destruct (self false rq st). congruence.
    + destruct (self false rq st). congruence.
    + inversion Hh; subst. destruct p; simpl in *; congruence.
    + exfalso. apply (Hw error). apply elem_of_cons. left. reflexivity.
  - intros error Hin. apply (Hw error). apply elem_of_cons. right. exact Hin.
Qed.

Lemma downloadAsync_retry_no_reject (w : World) (st : State) :
  (forall error, WriteError error ∉ w (length (issued st))) ->
  rejected (downloadAsync w true rq st).1 = false.
Proof.
  intros Hw. unfold downloadAsync, downloadAsync_body.
  apply handle_all_retry_no_reject; [reflexivity|exact Hw].
Qed.

(** A first fetch that fails is followed by exactly one more request, with
    the same parameters; a first fetch that succeeds by none. *)
Lemma downloadAsync_requests (first second : Fetch) :
  issued (downloadAsync (world_of [first; second]) true rq init).2 =
  match first with
  | Success => [rq]
  | BadStatus c => if c =? 200 then [rq] else [rq; rq]
  | TransportError _ => [rq; rq]
  end.
Proof.
  destruct first as [|c|e]; cbn.
  - reflexivity.
  - destruct (c =? 200); [reflexivity|].
    destruct second as [|c2|e2]; cbn; try reflexivity.
    destruct (c2 =? 200); reflexivity.
  - destruct second as [|c2|e2]; cbn; try reflexivity.
    destruct (c2 =? 200); reflexivity.
Qed.

(** The nested call, made without [retry], does reject when it fails. *)
Lemma downloadAsync_final_failure (w : World) (st : State) (f : Fetch) :
  w (length (issued st)) = events_of f -> f <> Success ->
  (forall c, f = BadStatus c -> c <> 200) ->
  rejected (downloadAsync w false rq st).1 = true.
Proof.
  intros Hw Hf Hc. unfold downloadAsync, downloadAsync_body. rewrite Hw.
  destruct f as [|c|e]; [congruence| |reflexivity].
  cbn. destruct (c =? 200) eqn:E; [|reflexivity].
  apply Z.eqb_eq in E. exfalso. exact (Hc c eq_refl E).
Qed.

End DownloadFacts.

(** C3 at the failing inputs. The server answers both requests with status
    404: the request is repeated once with the same parameters and the
    nested promise is rejected, but that promise is only the return value of
    an event handler; the promise the caller holds is resolved when the
    error body has been written. Both requests fail in transport: the
    caller's promise is never settled. In neither case is it rejected. *)
Theorem downloadAsync_second_failure (rq : Download.Request) :
  Download.downloadAsync
    (Download.world_of [Download.BadStatus 404; Download.BadStatus 404])
    true rq Download.init
  = (Download.Resolved,
     Download.mkState [rq; rq] [Download.Rejected "Error: Download failed: 404"])
  /\ Download.downloadAsync
       (Download.world_of [Download.TransportError "Error: connect ECONNREFUSED";
                           Download.TransportError "Error: connect ECONNREFUSED"])
       true rq Download.init
     = (Download.Pending,
        Download.mkState [rq; rq] [Download.Rejected "Error: connect ECONNREFUSED"]).
Proof. split; reflexivity. Qed.

(** ** Download batches *)

Section BatchFacts.
Import Pipeline.

Lemma dirname_basename (p : Path) : p <> [] -> dirname p ++ [basename p] = p.
Proof.
  unfold dirname, basename.
  induction p as [|x [|y l] IH]; intros Hp; [congruence|reflexivity|].
  change (removelast (x :: y :: l)) with (x :: removelast (y :: l)).
  change (last (x :: y :: l)) with (last (y :: l)).
  simpl. f_equal. apply IH. discriminate.
Qed.

Lemma existsSync_true (fs : gmap Path string) (p : Path) :
  existsSync fs p = true <-> p = [] \/ is_Some (fs !! p).
Proof.
  unfold existsSync. rewrite orb_true_iff, !bool_decide_eq_true. reflexivity.
Qed.

Lemma existsSync_insert (fs : gmap Path string) (p q : Path) (c : string) :
  existsSync fs p = true -> existsSync (<[q := c]> fs) p = true.
Proof.
  rewrite !existsSync_true. intros [->|Hs]; [left; reflexivity|right].
  destruct (decide (q = p)) as [->|Hne].
  - rewrite lookup_insert_eq. eauto.
  - rewrite lookup_insert_ne; assumption.
Qed.

Lemma existsSync_written (fs : gmap Path string) (q : Path) (c : string) :
  existsSync (<[q := c]> fs) q = true.
Proof. apply existsSync_true. right. rewrite lookup_insert_eq. eauto. Qed.

Lemma library_callback_checks (directory : Path) (ev : string) (n : nat) :
  checks_then_fetches (library_path directory) (library_callback directory ev n) ev n.
Proof.
  intros r lib. unfold library_path, library_callback.
  destruct (downloadObj lib) as [d|]; simpl; [|reflexivity].
  destruct (existsSync (files r) (directory ++ a_path d)) eqn:E.
  - eexists. reflexivity.
  - eexists. split; [reflexivity|].
    unfold write_path. simpl. apply dirname_basename.
    intros Hnil. rewrite Hnil in E. discriminate.
Qed.

Lemma asset_callback_checks (assetDirectory : Path) (resource : string) (n : nat) :
  checks_then_fetches (asset_path assetDirectory)
    (asset_callback assetDirectory resource n) "assets" n.
Proof.
  intros r asset. unfold asset_path, asset_callback.
  replace (assetDirectory ++ ["objects"; String.substring 0 2 (hash asset); hash asset])
    with ((assetDirectory ++ ["objects"; String.substring 0 2 (hash asset)]) ++ [hash asset])
    by (rewrite <- app_assoc; reflexivity).
  destruct (existsSync _ _).
  - eexists. reflexivity.
  - eexists. split; reflexivity.
Qed.

Section Generic.
Context {X : Type}.
Variable check : X -> option Path.
Variable callback : Run -> X -> Run.
Variable net : string -> string.
Variable ev : string.
Variable n : nat.
Hypothesis Hcb : checks_then_fetches check callback ev n.

(** The three ways a callback can go. *)
Lemma callback_cases (r : Run) (x : X) :
  (check x = None /\ callback r x = r)
  \/ (exists p push, check x = Some p /\ existsSync (files r) p = true
                     /\ callback r x = finish ev n push r)
  \/ (exists p t, check x = Some p /\ existsSync (files r) p = false
                  /\ callback r x = start t r /\ write_path t = p).
Proof.
  pose proof (Hcb r x) as H. destruct (check x) as [p|]; [|left; auto].
  right. destruct (existsSync (files r) p) eqn:E.
  - left. destruct H as [push H]. eauto 6.
  - right. destruct H as [t [H1 H2]]. eauto 8.
Qed.

(** *** The synchronous part never writes *)

Lemma fold_files (xs : list X) (r : Run) :
  files (fold_left callback xs r) = files r.
Proof.
  revert r. induction xs as [|x xs IH]; intros r; [reflexivity|].
  simpl. rewrite IH.
  destruct (callback_cases r x) as [[_ ->]|[(p & push & _ & _ & ->)|(p & t & _ & _ & -> & _)]];
    reflexivity.
Qed.

(** *** Counting *)

Lemma fold_count (xs : list X) (r : Run) :
  (counter (fold_left callback xs r) + length (pending (fold_left callback xs r))
   = counter r + length (pending r) + length (omap check xs))%nat.
Proof.
  revert r. induction xs as [|x xs IH]; intros r; simpl; [lia|].
  rewrite IH.
  destruct (callback_cases r x) as [[E ->]|[(p & push & E & _ & ->)|(p & t & E & _ & -> & _)]];
    rewrite E; simpl; rewrite ?length_app; simpl;
    change (list_omap X Path check xs) with (omap check xs); lia.
Qed.

Lemma settle_count (sched : list nat) (r : Run) :
  (counter (settle net ev n sched r) + length (pending (settle net ev n sched r))
   = counter r + length (pending r))%nat.
Proof.
  revert r. induction sched as [|k sched IH]; intros r; simpl; [reflexivity|].
  destruct (pending r !! (k mod length (pending r))%nat) as [t|] eqn:E; [|reflexivity].
  rewrite IH. simpl.
  apply lookup_lt_Some in E. rewrite length_delete by eauto using lookup_lt_is_Some_2.
  lia.
Qed.

(** *** The progress events count up from zero, one by one *)

Lemma counted_finish before push r : counted ev n before r -> counted ev n before (finish ev n push r).
Proof.
  unfold counted, counting, finish. cbn [events counter]. intros H. rewrite H.
  rewrite (seq_S (S (counter r)) 0), fmap_app, app_assoc. reflexivity.
Qed.

Lemma counted_fold before (xs : list X) (r : Run) :
  counted ev n before r -> counted ev n before (fold_left callback xs r).
Proof.
  revert r. induction xs as [|x xs IH]; intros r H; [exact H|].
  simpl. apply IH.
  destruct (callback_cases r x) as [[_ ->]|[(p & push & _ & _ & ->)|(p & t & _ & _ & -> & _)]].
  - exact H.
  - apply counted_finish. exact H.
  - exact H.
Qed.

Lemma counted_settle before (sched : list nat) (r : Run) :
  counted ev n before r -> counted ev n before (settle net ev n sched r).
Proof.
  revert r. induction sched as [|k sched IH]; intros r H; [exact H|].
  simpl. destruct (pending r !! (k mod length (pending r))%nat) as [t|]; [|exact H].
  apply IH. unfold complete. apply counted_finish. exact H.
Qed.

(** *** Every entry ends up on disk *)

Lemma callback_files (r : Run) (x : X) : files (callback r x) = files r.
Proof. exact (fold_files [x] r). Qed.

Lemma fold_pending_mono (xs : list X) (r : Run) (t : Task) :
  t ∈ pending r -> t ∈ pending (fold_left callback xs r).
Proof.
  revert r. induction xs as [|x xs IH]; intros r H; [exact H|].
  simpl. apply IH.
  destruct (callback_cases r x) as [[_ ->]|[(p & push & _ & _ & ->)|(p & t' & _ & _ & -> & _)]];
    simpl; [exact H|exact H|].
  apply elem_of_app. left. exact H.
Qed.

(** After the synchronous part an entry's file exists already or its
    download is in flight. *)
Lemma fold_covers (xs : list X) (r : Run) (x : X) (p : Path) :
  x ∈ xs -> check x = Some p ->
  existsSync (files r) p = true
  \/ exists t, t ∈ pending (fold_left callback xs r) /\ write_path t = p.
Proof.
  revert r. induction xs as [|x0 xs IH]; intros r Hin Hx.
  - apply elem_of_nil in Hin. contradiction.
  - apply elem_of_cons in Hin as [->|Hin].
    + simpl.
      destruct (callback_cases r x0)
        as [[E _]|[(p' & push & E & Hex & _)|(p' & t & E & _ & Hc & Hw)]].
      * congruence.
      * left. congruence.
      * right. exists t. split; [|congruence].
        apply fold_pending_mono. rewrite Hc. simpl.
        apply elem_of_app. right. apply elem_of_cons. left. reflexivity.
    + simpl. destruct (IH (callback r x0) Hin Hx) as [H|H].
      * left. rewrite callback_files in H. exact H.
      * right. exact H.
Qed.

Lemma settle_exists_mono (sched : list nat) (r : Run) (p : Path) :
  existsSync (files r) p = true ->
  existsSync (files (settle net ev n sched r)) p = true.
Proof.
  revert r. induction sched as [|k sched IH]; intros r H; [exact H|].
  simpl. destruct (pending r !! (k mod length (pending r))%nat) as [t|]; [|exact H].
  apply IH. simpl. apply existsSync_insert. exact H.
Qed.

Lemma elem_of_delete_or (l : list Task) (i : nat) (t t0 : Task) :
  t ∈ l -> l !! i = Some t0 -> t ∈ delete i l \/ t = t0.
Proof.
  intros Hin Hi. apply list_elem_of_lookup in Hin as [j Hj].
  destruct (Nat.lt_total j i) as [Hlt|[->|Hgt]].
  - left. apply list_elem_of_lookup. exists j.
    rewrite list_lookup_delete_lt; assumption.
  - right. congruence.
  - left. apply list_elem_of_lookup. exists (pred j).
    rewrite list_lookup_delete_ge by lia.
    replace (S (pred j)) with j by lia. exact Hj.
Qed.

(** A download in flight is still in flight at the end, or its file has
    been written. *)
Lemma settle_covers (sched : list nat) (r : Run) (t : Task) :
  t ∈ pending r ->
  t ∈ pending (settle net ev n sched r)
  \/ existsSync (files (settle net ev n sched r)) (write_path t) = true.
Proof.
  revert r. induction sched as [|k sched IH]; intros r H; [left; exact H|].
  simpl. destruct (pending r !! (k mod length (pending r))%nat) as [t0|] eqn:E;
    [|left; exact H].
  destruct (elem_of_delete_or _ _ _ _ H E) as [Hd| ->].
  - apply IH. simpl. exact Hd.
  - right. apply settle_exists_mono. simpl. apply existsSync_written.
Qed.

Lemma settle_done (sched : list nat) (r : Run) :
  pending r = [] -> settle net ev n sched r = r.
Proof. intros H. destruct sched; simpl; [reflexivity|]. rewrite H. reflexivity. Qed.

(** When the batch is resolved every entry's file exists. *)
Lemma batch_materialises (sched : list nat) (xs : list X) (r : Run) (x : X) (p : Path) :
  pending (settle net ev n sched (fold_left callback xs r)) = [] ->
  x ∈ xs -> check x = Some p ->
  existsSync (files (settle net ev n sched (fold_left callback xs r))) p = true.
Proof.
  intros Hdone Hin Hx.
  destruct (fold_covers xs r x p Hin Hx) as [H|[t [Ht Hw]]].
  - apply settle_exists_mono. rewrite fold_files. exact H.
  - destruct (settle_covers sched _ t Ht) as [H|H].
    + rewrite Hdone in H. apply elem_of_nil in H. contradiction.
    + rewrite Hw in H. exact H.
Qed.

(** When every entry's file exists nothing is fetched and nothing is
    written. *)
Lemma fold_all_present (xs : list X) (r : Run) :
  (forall x p, x ∈ xs -> check x = Some p -> existsSync (files r) p = true) ->
  files (fold_left callback xs r) = files r
  /\ fetched (fold_left callback xs r) = fetched r
  /\ pending (fold_left callback xs r) = pending r.
Proof.
  revert r. induction xs as [|x xs IH]; intros r H; [auto|].
  simpl.
  assert (Hx : x ∈ x :: xs) by (apply elem_of_cons; left; reflexivity).
  destruct (callback_cases r x)
    as [[E Hc]|[(p & push & E & Hex & Hc)|(p & t & E & Hex & _)]].
  - rewrite Hc. apply IH. intros y q Hy. apply H. apply elem_of_cons. right. exact Hy.
  - rewrite Hc.
    destruct (IH (finish ev n push r)) as (H1 & H2 & H3).
    + intros y q Hy Hq. simpl. apply (H y q); [|exact Hq].
      apply elem_of_cons. right. exact Hy.
    + rewrite H1, H2, H3. auto.
  - rewrite (H x p Hx E) in Hex. discriminate.
Qed.

(** The generic form of idempotence: a batch that follows a resolved one
    on the same entries fetches nothing and writes nothing. *)
Lemma batch_idempotent (sched1 sched2 : list nat) (xs : list X) (ra rb : Run) :
  let r1 := settle net ev n sched1 (fold_left callback xs ra) in
  let r2 := settle net ev n sched2 (fold_left callback xs rb) in
  pending r1 = [] -> files rb = files r1 -> pending rb = [] ->
  files r2 = files rb /\ fetched r2 = fetched rb /\ pending r2 = [].
Proof.
  intros r1 r2 Hdone Hfiles Hpend.
  destruct (fold_all_present xs rb) as (H1 & H2 & H3).
  - intros x p Hin Hx. rewrite Hfiles.
    exact (batch_materialises sched1 xs ra x p Hdone Hin Hx).
  - unfold r2. rewrite settle_done by congruence.
    rewrite H1, H2, H3. auto.
Qed.

(** The generic form of the progress property. *)
Lemma batch_counts (sched : list nat) (xs : list X) (r : Run) (before : list Progress) :
  let r' := settle net ev n sched (fold_left callback xs r) in
  counted ev n before r -> counter r = 0%nat -> pending r = [] ->
  events r' = before ++ counting ev n (counter r')
  /\ (counter r' + length (pending r') = length (omap check xs))%nat.
Proof.
  intros r' Hc H0 Hp. split.
  - apply counted_settle, counted_fold. exact Hc.
  - unfold r'. rewrite settle_count, fold_count, H0, Hp. simpl. lia.
Qed.

End Generic.

Lemma counting_task (ev : string) (n k : nat) :
  task <$> counting ev n k = seq 0 (S k).
Proof.
  unfold counting. generalize (seq 0 (S k)). intros l.
  induction l as [|i l IH]; [reflexivity|].
  rewrite !fmap_cons, IH. reflexivity.
Qed.

Lemma counting_total (ev : string) (n k : nat) :
  Forall (fun e => p_type e = ev /\ total e = n) (counting ev n k).
Proof.
  unfold counting. apply Forall_fmap, Forall_forall. intros i _. split; reflexivity.
Qed.

Lemma omap_all_some {A B} (f : A -> option B) (l : list A) :
  Forall (fun a => is_Some (f a)) l -> length (omap f l) = length l.
Proof.
  induction 1 as [|a l [b Hb] _ IH]; [reflexivity|].
  simpl. rewrite Hb. simpl. f_equal. exact IH.
Qed.

Lemma omap_length_le {A B} (f : A -> option B) (l : list A) :
  (length (omap f l) <= length l)%nat.
Proof.
  induction l as [|a l IH]; [reflexivity|].
  change (omap f (a :: l)) with (match f a with Some b => b :: omap f l | None => omap f l end).
  destruct (f a); simpl; lia.
Qed.

End BatchFacts.

Section PipelineFacts.
Import Pipeline.
Variable net : string -> string.

Lemma getAssets_resolved (sched : list nat) (assetDirectory : Path) (resource : string)
    (objects : list Asset) (r0 : Run) :
  let core :=
    settle net "assets" (length objects) sched
      (fold_left (asset_callback assetDirectory resource (length objects)) objects
         (mkRun (files r0) 0
                (events r0 ++ [mkProgress "assets" 0 (length objects)])
                (fetched r0) (libs r0) [])) in
  pending (getAssets net sched assetDirectory resource objects r0) = [] ->
  pending core = []
  /\ getAssets net sched assetDirectory resource objects r0
     = mkRun (files core) 0 (events core) (fetched core) (libs core) [].
Proof.
  intros core. unfold getAssets. fold core.
  destruct (pending core) eqn:E; intros H; [auto|].
  rewrite E in H. discriminate.
Qed.

(** Entries whose files exist, whatever they contain, are skipped. *)
Lemma downloadToDirectory_skips (sched : list nat) (directory : Path)
    (libraries : list Library) (eventName : string) (r0 : Run) :
  (forall lib p, lib ∈ libraries -> library_path directory lib = Some p ->
                 existsSync (files r0) p = true) ->
  let r := downloadToDirectory net sched directory libraries eventName r0 in
  fetched r = fetched r0 /\ files r = files r0 /\ pending r = [].
Proof.
  intros H r. unfold r, downloadToDirectory.
  match goal with
  | |- context [fold_left ?cb libraries ?ra] =>
      destruct (fold_all_present (library_path directory) cb eventName (length libraries)
                  (library_callback_checks directory eventName (length libraries))
                  libraries ra H) as (H1 & H2 & H3)
  end.
  rewrite settle_done by (rewrite H3; reflexivity).
  rewrite H1, H2, H3. auto.
Qed.

(** The events of a batch count up to [counter], which never passes the
    number of entries, whether or not the batch is resolved. *)
Lemma downloadToDirectory_progress (sched : list nat) (directory : Path)
    (libraries : list Library) (eventName : string) (r0 : Run) :
  let r := downloadToDirectory net sched directory libraries eventName r0 in
  events r = events r0 ++ counting eventName (length libraries) (counter r)
  /\ (counter r + length (pending r)
      = length (omap (library_path directory) libraries))%nat
  /\ (counter r <= length libraries)%nat.
Proof.
  intros r. unfold r, downloadToDirectory.
  match goal with
  | |- context [fold_left ?cb libraries ?ra] =>
      destruct (batch_counts (library_path directory) cb net eventName (length libraries)
                  (library_callback_checks directory eventName (length libraries))
                  sched libraries ra (events r0)) as [H1 H2];
        [reflexivity|reflexivity|reflexivity|]
  end.
  split; [exact H1|]. split; [exact H2|].
  pose proof (omap_length_le (library_path directory) libraries) as Hle.
  pose proof H2. lia.
Qed.

Lemma getAssets_progress (sched : list nat) (assetDirectory : Path) (resource : string)
    (objects : list Asset) (r0 : Run) :
  let r := getAssets net sched assetDirectory resource objects r0 in
  pending r = [] ->
  events r = events r0 ++ counting "assets" (length objects) (length objects).
Proof.
  intros r Hdone. unfold r in *.
  destruct (getAssets_resolved _ _ _ _ _ Hdone) as [Hcore ->]. simpl.
  match goal with
  | |- context [fold_left ?cb objects ?ra] =>
      destruct (batch_counts (asset_path assetDirectory) cb net "assets" (length objects)
                  (asset_callback_checks assetDirectory resource (length objects))
                  sched objects ra (events r0)) as [H1 H2];
        [reflexivity|reflexivity|reflexivity|]
  end.
  simpl in Hcore. rewrite Hcore in H2. simpl in H2.
  rewrite (omap_all_some (asset_path assetDirectory)) in H2
    by (apply Forall_forall; intros a _; eexists; reflexivity).
  rewrite H1. f_equal. f_equal. lia.
Qed.

Lemma downloadToDirectory_again (sched1 sched2 : list nat) (directory : Path)
    (libraries : list Library) (eventName : string) (r0 r1 : Run) :
  r1 = downloadToDirectory net sched1 directory libraries eventName r0 ->
  pending r1 = [] ->
  let r2 := downloadToDirectory net sched2 directory libraries eventName r1 in
  fetched r2 = fetched r1 /\ files r2 = files r1 /\ pending r2 = [].
Proof.
  intros Heq Hr r2. unfold r2, downloadToDirectory.
  match goal with
  | |- context [fold_left ?cb libraries ?rb] =>
      destruct (batch_idempotent (library_path directory) cb net eventName
                  (length libraries)
                  (library_callback_checks directory eventName (length libraries))
                  sched1 sched2 libraries
                  (mkRun (files r0) 0
                         (events r0 ++ [mkProgress eventName 0 (length libraries)])
                         (fetched r0) [] [])
                  rb) as (H1 & H2 & H3)
  end.
  - rewrite Heq in Hr. exact Hr.
  - rewrite Heq. reflexivity.
  - reflexivity.
  - rewrite H1, H2, H3. auto.
Qed.

Lemma getAssets_again (sched1 sched2 : list nat) (assetDirectory : Path)
    (resource : string) (objects : list Asset) (r0 a1 : Run) :
  a1 = getAssets net sched1 assetDirectory resource objects r0 ->
  pending a1 = [] ->
  let a2 := getAssets net sched2 assetDirectory resource objects a1 in
  fetched a2 = fetched a1 /\ files a2 = files a1 /\ pending a2 = [].
Proof.
  intros Heq Ha a2.
  rewrite Heq in Ha.
  destruct (getAssets_resolved _ _ _ _ _ Ha) as [Hcore Hshape].
  match type of Hcore with
  | pending (settle _ _ _ _ (fold_left ?cb _ ?ra)) = [] =>
      pose proof (batch_idempotent (asset_path assetDirectory) cb net "assets"
                    (length objects)
                    (asset_callback_checks assetDirectory resource (length objects))
                    sched1 sched2 objects ra
                    (mkRun (files a1) 0
                           (events a1 ++ [mkProgress "assets" 0 (length objects)])
                           (fetched a1) (libs a1) [])
                    Hcore) as Hidem
  end.
  destruct Hidem as (H1 & H2 & H3).
  - rewrite Heq, Hshape. reflexivity.
  - reflexivity.
  - unfold a2, getAssets. simpl in H3. rewrite H3. simpl.
    simpl in H1, H2. rewrite H1, H2. auto.
Qed.

End PipelineFacts.

(** C4: the download pipeline is idempotent. When a batch of libraries, or
    of assets, has been resolved, running the same batch again on the file
    system it left requests nothing from the network and leaves every file
    as it is: each entry is skipped because its destination exists (for an
    asset, the path derived from its hash), which is the only check made. *)
Theorem download_pipeline_idempotent (net : string -> string)
    (sched1 sched2 sched3 sched4 : list nat)
    (directory : Pipeline.Path) (libraries : list Pipeline.Library) (eventName : string)
    (assetDirectory : Pipeline.Path) (resource : string) (objects : list Pipeline.Asset)
    (r0 : Pipeline.Run) :
  let r1 := Pipeline.downloadToDirectory net sched1 directory libraries eventName r0 in
  let r2 := Pipeline.downloadToDirectory net sched2 directory libraries eventName r1 in
  let a1 := Pipeline.getAssets net sched3 assetDirectory resource objects r0 in
  let a2 := Pipeline.getAssets net sched4 assetDirectory resource objects a1 in
  Pipeline.pending r1 = [] -> Pipeline.pending a1 = [] ->
  (Pipeline.fetched r2 = Pipeline.fetched r1
   /\ Pipeline.files r2 = Pipeline.files r1
   /\ Pipeline.pending r2 = [])
  /\ (Pipeline.fetched a2 = Pipeline.fetched a1
      /\ Pipeline.files a2 = Pipeline.files a1
      /\ Pipeline.pending a2 = []).
Proof.
  intros r1 r2 a1 a2 Hr Ha. split.
  - exact (downloadToDirectory_again net sched1 sched2 directory libraries eventName
             r0 r1 eq_refl Hr).
  - exact (getAssets_again net sched3 sched4 assetDirectory resource objects
             r0 a1 eq_refl Ha).
Qed.

Lemma download_pipeline_idempotent_witness :
  let r1 := Pipeline.downloadToDirectory sample_net [1; 0]%nat ["root"; "libraries"]
              sample_libraries "classes" sample_run in
  let r2 := Pipeline.downloadToDirectory sample_net [] ["root"; "libraries"]
              sample_libraries "classes" r1 in
  let a1 := Pipeline.getAssets sample_net [0; 0]%nat ["root"; "assets"]
              "https://resources.download.minecraft.net" sample_objects sample_run in
  let a2 := Pipeline.getAssets sample_net [] ["root"; "assets"]
              "https://resources.download.minecraft.net" sample_objects a1 in
  (Pipeline.pending r1 = [] /\ Pipeline.pending a1 = [])
  /\ (Pipeline.fetched r2 = Pipeline.fetched r1
      /\ Pipeline.files r2 = Pipeline.files r1
      /\ Pipeline.pending r2 = [])
  /\ (Pipeline.fetched a2 = Pipeline.fetched a1
      /\ Pipeline.files a2 = Pipeline.files a1
      /\ Pipeline.pending a2 = []).
Proof.
  split.
  - split; vm_compute; reflexivity.
  - apply (download_pipeline_idempotent sample_net [1; 0]%nat [] [0; 0]%nat []
             ["root"; "libraries"] sample_libraries "classes"
             ["root"; "assets"] "https://resources.download.minecraft.net"
             sample_objects sample_run); vm_compute; reflexivity.
Defined.

(** C5: within one batch of N entries the 'task' values of the progress
    events are exactly 0, 1, ..., N when the batch is resolved: they start at
    zero, grow by one per entry (so they never decrease and no entry is
    counted twice), stay within the emitted total N and end at N. For
    [downloadToDirectory] the entries are those that carry a download object,
    as all those handed over by [getClasses] do. *)
Theorem progress_counts_to_total (net : string -> string) (sched sched' : list nat)
    (directory : Pipeline.Path) (libraries : list Pipeline.Library) (eventName : string)
    (assetDirectory : Pipeline.Path) (resource : string) (objects : list Pipeline.Asset)
    (r0 : Pipeline.Run) :
  let r := Pipeline.downloadToDirectory net sched directory libraries eventName r0 in
  let a := Pipeline.getAssets net sched' assetDirectory resource objects r0 in
  Forall (fun lib => is_Some (Pipeline.downloadObj lib)) libraries ->
  Pipeline.pending r = [] -> Pipeline.pending a = [] ->
  (exists emitted,
      Pipeline.events r = Pipeline.events r0 ++ emitted
      /\ Pipeline.task <$> emitted = seq 0 (S (length libraries))
      /\ Forall (fun e => Pipeline.p_type e = eventName
                          /\ Pipeline.total e = length libraries) emitted)
  /\ (exists emitted,
      Pipeline.events a = Pipeline.events r0 ++ emitted
      /\ Pipeline.task <$> emitted = seq 0 (S (length objects))
      /\ Forall (fun e => Pipeline.p_type e = "assets"
                          /\ Pipeline.total e = length objects) emitted).
Proof.
  intros r a Hobj Hr Ha. split.
  - destruct (downloadToDirectory_progress net sched directory libraries eventName r0)
      as (Hev & Hcount & _).
    fold r in Hev, Hcount. rewrite Hr in Hcount. simpl in Hcount.
    rewrite (omap_all_some (Pipeline.library_path directory)) in Hcount.
    + exists (Pipeline.counting eventName (length libraries) (length libraries)).
      split; [|split].
      * rewrite Hev. do 2 f_equal. lia.
      * apply counting_task.
      * apply counting_total.
    + eapply Forall_impl; [exact Hobj|].
      intros lib [d Hd]. unfold Pipeline.library_path. rewrite Hd. eexists. reflexivity.
  - exists (Pipeline.counting "assets" (length objects) (length objects)).
    split; [|split].
    + exact (getAssets_progress net sched' assetDirectory resource objects r0 Ha).
    + apply counting_task.
    + apply counting_total.
Qed.

Lemma progress_counts_to_total_witness :
  let r := Pipeline.downloadToDirectory sample_net [1; 0]%nat ["root"; "libraries"]
             sample_libraries "classes" sample_run in
  let a := Pipeline.getAssets sample_net [0; 0]%nat ["root"; "assets"]
             "https://resources.download.minecraft.net" sample_objects sample_run in
  (Forall (fun lib => is_Some (Pipeline.downloadObj lib)) sample_libraries
   /\ Pipeline.pending r = [] /\ Pipeline.pending a = [])
  /\ (exists emitted,
      Pipeline.events r = Pipeline.events sample_run ++ emitted
      /\ Pipeline.task <$> emitted = seq 0 (S (length sample_libraries))
      /\ Forall (fun e => Pipeline.p_type e = "classes"
                          /\ Pipeline.total e = length sample_libraries) emitted)
  /\ (exists emitted,
      Pipeline.events a = Pipeline.events sample_run ++ emitted
      /\ Pipeline.task <$> emitted = seq 0 (S (length sample_objects))
      /\ Forall (fun e => Pipeline.p_type e = "assets"
                          /\ Pipeline.total e = length sample_objects) emitted).
Proof.
  assert (Hobj : Forall (fun lib => is_Some (Pipeline.downloadObj lib)) sample_libraries).
  { repeat constructor; eexists; reflexivity. }
  split.
  - split; [exact Hobj|]. split; vm_compute; reflexivity.
  - apply (progress_counts_to_total sample_net [1; 0]%nat [0; 0]%nat
             ["root"; "libraries"] sample_libraries "classes"
             ["root"; "assets"] "https://resources.download.minecraft.net"
             sample_objects sample_run Hobj); vm_compute; reflexivity.
Defined.

(** The batch of [getClasses] needs no side condition: the filter keeps
    only libraries with an artifact. *)
Lemma getClasses_progress (net : string -> string) (sched : list nat) (cur : string)
    (libraryDirectory : Pipeline.Path) (libraries : list Pipeline.Library)
    (r0 : Pipeline.Run) :
  let r := Pipeline.getClasses net sched cur libraryDirectory libraries r0 in
  let n := length (filter (fun lib => Pipeline.on_classpath cur lib = true) libraries) in
  Pipeline.pending r = [] ->
  Pipeline.events r = Pipeline.events r0 ++ Pipeline.counting "classes" n n.
Proof.
  intros r n Hr. unfold r, Pipeline.getClasses in *.
  set (chosen := filter (fun lib => Pipeline.on_classpath cur lib = true) libraries) in *.
  destruct (downloadToDirectory_progress net sched libraryDirectory chosen "classes" r0)
    as (Hev & Hcount & _).
  set (d := Pipeline.downloadToDirectory net sched libraryDirectory chosen "classes" r0) in *.
  assert (Hd : Pipeline.pending d = []).
  { destruct (Pipeline.pending d) eqn:E; [reflexivity|]. rewrite E in Hr. discriminate. }
  rewrite Hd in *. simpl. rewrite Hev. do 2 f_equal.
  rewrite (omap_all_some (Pipeline.library_path libraryDirectory)) in Hcount.
  - simpl in Hcount. fold n in Hcount. lia.
  - apply Forall_forall. intros lib Hin.
    apply list_elem_of_filter in Hin as [Hon _].
    unfold Pipeline.on_classpath in Hon. unfold Pipeline.library_path, Pipeline.downloadObj.
    destruct (Pipeline.lib_downloads lib) as [dl|]; [|discriminate].
    destruct (Pipeline.artifact dl); [|discriminate]. eexists. reflexivity.
Qed.

(** ** Heap sizes *)

Example heap_flags_4G_2G :
  Memory.heap_flags (Some (Memory.mkConfig (Memory.MStr "4G") (Memory.MStr "2G")))
  = ["-Xmx4G"; "-Xms2G"]
  /\ Memory.heap_flags (Some (Memory.mkConfig (Memory.MNum 2048) (Memory.MNum 4096)))
     = ["-Xmx1023M"; "-Xms512M"]
  /\ Memory.heap_flags (Some (Memory.mkConfig (Memory.MNum 4096) (Memory.MStr "2048")))
     = ["-Xmx4096M"; "-Xms2048M"].
Proof. repeat split. Qed.

Section MemoryFacts.
Import Memory.

(** Without a memory option the defaults are 1023 and 512 megabytes. *)
Lemma getMemory_default :
  pair (getMemory None) = ["1023M"; "512M"]
  /\ memory (getMemory None) = mkConfig (MNum 1023) (MNum 512)
  /\ heap_flags None = ["-Xmx1023M"; "-Xms512M"].
Proof. repeat split. Qed.

(** Two numbers: the pair is reset when the maximum is below the minimum,
    so the returned maximum is never below the returned minimum. *)
Lemma getMemory_numbers (a b : Z) :
  let r := getMemory (Some (mkConfig (MNum a) (MNum b))) in
  pair r = (if a <? b then ["1023M"; "512M"]
            else [Js.show a +:+ "M"; Js.show b +:+ "M"])
  /\ memory r = (if a <? b then mkConfig (MNum 1023) (MNum 512)
                 else mkConfig (MNum a) (MNum b))
  /\ (forall x y, max (memory r) = MNum x -> min (memory r) = MNum y -> y <= x).
Proof.
  unfold getMemory. simpl. destruct (a <? b) eqn:E; simpl.
  - repeat split. intros x y Hx Hy. inversion Hx; inversion Hy; lia.
  - repeat split. intros x y Hx Hy. inversion Hx; inversion Hy; subst.
    apply Z.ltb_ge in E. exact E.
Qed.

(** A value that is not a number makes both values pass through as they
    are, without a suffix. *)
Lemma getMemory_verbatim (m : Config) :
  isNaN (max m) || isNaN (min m) = true ->
  pair (getMemory (Some m)) = [show (max m); show (min m)]
  /\ memory (getMemory (Some m)) = m.
Proof.
  intros H. unfold getMemory.
  destruct (isNaN (max m)), (isNaN (min m)); simpl in *; try discriminate; auto.
Qed.

(** A number and a numeric string are compared as numbers. *)
Lemma lt_mixed (a : Z) (s : string) (b : Z) :
  toNumber (MStr s) = Some b ->
  lt (MNum a) (MStr s) = (a <? b) /\ lt (MStr s) (MNum a) = (b <? a).
Proof. intros H. unfold lt. rewrite H. simpl. auto. Qed.

End MemoryFacts.

(** C10 at the failing input [memory: { max: "999", min: "1000" }]. Both
    values are numeric ([isNaN] is false for each, and each gets the [M]
    suffix), the maximum is below the minimum, and yet nothing is reset: two
    strings are compared as strings, and ["999"] is not below ["1000"] in
    that order. The flags are [-Xmx999M] and [-Xms1000M]. *)
Theorem getMemory_numeric_strings :
  let m := Memory.mkConfig (Memory.MStr "999") (Memory.MStr "1000") in
  Memory.isNaN (Memory.max m) = false
  /\ Memory.isNaN (Memory.min m) = false
  /\ Memory.toNumber (Memory.max m) = Some 999
  /\ Memory.toNumber (Memory.min m) = Some 1000
  /\ Memory.pair (Memory.getMemory (Some m)) = ["999M"; "1000M"]
  /\ Memory.debug (Memory.getMemory (Some m)) = []
  /\ Memory.heap_flags (Some m) = ["-Xmx999M"; "-Xms1000M"].
Proof. repeat split. Qed.

(** ** The log4j patches *)

Section Log4jFacts.
Import Js Launch.

Lemma minor_1_17 (x : string) : minor ("1.17." +:+ x) = Some 17.
Proof. reflexivity. Qed.

(** Which file each minor version gets. *)
Lemma log4j_file_ranges (n : Z) :
  log4j_file (Some n) =
  if 12 <=? n then
    Some ("https://launcher.mojang.com/v1/objects/02937d122c86ce73319ef9975b58896fc1b491d1/log4j2_112-116.xml",
          "log4j2_112-116.xml")
  else if 7 <=? n then
    Some ("https://launcher.mojang.com/v1/objects/dd2b723346a8dcd48e7f4d245f6bf09e98db9696/log4j2_17-111.xml",
          "log4j2_17-111.xml")
  else None.
Proof.
  unfold log4j_file, log4j_table. simpl.
  destruct (12 <=? n); [reflexivity|]. destruct (7 <=? n); reflexivity.
Qed.

(** A flag list that already names a configuration file is left alone by
    the first section. *)
Lemma log4j_configuration_present env o v jvm flag s :
  find_configurationFile jvm = Returned (Some flag) ->
  log4j_configuration env o v jvm s = (s, Returned jvm).
Proof.
  intros H. unfold log4j_configuration.
  destruct (nan_lt (minor (id v)) 17); [|reflexivity].
  unfold seq, await. rewrite H. reflexivity.
Qed.

End Log4jFacts.

Section FlagSearch.
Import Js Launch.

Lemma prefix_append (a b : string) :
  String.prefix a b = true <-> exists post, b = a +:+ post.
Proof.
  revert b. induction a as [|c a IH]; intros b.
  - split; [intros _; exists b; reflexivity|intros _; destruct b; reflexivity].
  - destruct b as [|d b]; cbn [String.prefix].
    + split; [discriminate|intros [post H]; discriminate H].
    + destruct (Ascii.ascii_dec c d) as [->|Hne].
      * rewrite IH. split; intros [post H]; exists post.
        -- rewrite H. reflexivity.
        -- change (String d a +:+ post) with (String d (a +:+ post)) in H.
           injection H as H. exact H.
      * split; [discriminate|].
        intros [post H].
        change (String c a +:+ post) with (String c (a +:+ post)) in H.
        injection H as H1 H2. congruence.
Qed.

(** [includes] answers whether the needle occurs somewhere in the text. *)
Lemma includes_contains (needle hay : string) :
  includes needle hay = true <-> More.contains needle hay.
Proof.
  unfold More.contains. split.
  - induction hay as [|c hay IH]; cbn [includes]; intros H.
    + rewrite orb_false_r in H. apply prefix_append in H as [post H].
      exists "", post. exact H.
    + apply orb_true_iff in H as [H|H].
      * apply prefix_append in H as [post H]. exists "", post. exact H.
      * destruct (IH H) as (pre & post & E).
        exists (String c pre), post. rewrite E. reflexivity.
  - intros (pre & post & E). subst hay.
    induction pre as [|c pre IH].
    + change ("" +:+ needle +:+ post) with (needle +:+ post).
      assert (Hp : String.prefix needle (needle +:+ post) = true)
        by (apply prefix_append; eauto).
      destruct (needle +:+ post); cbn [includes]; rewrite Hp; reflexivity.
    + change (String c pre +:+ needle +:+ post) with (String c (pre +:+ needle +:+ post)).
      cbn [includes]. rewrite IH. apply orb_true_r.
Qed.

(** The search goes past the flags that do not name a configuration
    file. *)
Lemma find_configurationFile_past (flags : list string) (rest : list Value) :
  More.unconfigured flags ->
  find_configurationFile ((VStr <$> flags) ++ rest) = find_configurationFile rest.
Proof.
  induction flags as [|flag flags IH]; intros Hfree; [reflexivity|].
  rewrite fmap_cons. cbn [app find_configurationFile].
  destruct (includes configurationFile flag) eqn:E.
  - exfalso. apply (Hfree flag); [left|]. apply includes_contains. exact E.
  - apply IH. intros f Hf. apply Hfree. right. exact Hf.
Qed.

(** The log4j sections for a minor version below 17 that has a file in the
    table, by what the search finds. *)
Lemma log4j_by_search (env : Env) (o : LaunchOptions) (v : Version) (jvm : list Value)
    (s : State) (url file : string) :
  nan_lt (minor (id v)) 17 = true ->
  log4j_file (minor (id v)) = Some (url, file) ->
  log4j_lookups v = (fun l => l) ->
  log4j env o v jvm s =
  match find_configurationFile jvm with
  | Returned None =>
      let rq := Download.mkRequest url (default (root o) (cwd o)) file "log4j" in
      (mkState (log s) (requests s ++ [rq]),
       Js.bind (download env rq)
         (fun _ => Returned (jvm ++ [VStr ("-Dlog4j.configurationFile=" +:+ file)])))
  | Returned (Some _) => (s, Returned jvm)
  | Threw e => (s, Threw e)
  | Never => (s, Never)
  end.
Proof.
  intros Hlt Hrow Hlook. unfold log4j, log4j_configuration.
  rewrite Hlt, Hrow, Hlook. unfold seq, await, downloadAsync.
  destruct (find_configurationFile jvm) as [[flag|]|e|]; try reflexivity.
  unfold ret. cbn. destruct (download env _); reflexivity.
Qed.

End FlagSearch.

(** C6: the log4j table. For the descriptor id "1.16.5" the file
    [log4j2_112-116.xml] is requested into the working directory and the flag
    [-Dlog4j.configurationFile=log4j2_112-116.xml] is appended once the
    download is done, unless one of the JVM flags already contains the text
    [Dlog4j.configurationFile]: then nothing is requested and the flags stay
    as they are. For "1.7.10" the same happens with [log4j2_17-111.xml]. (A
    flag that is not a string, met before any flag with that text, makes the
    search throw.) For "1.18", for "1.17" and for every id "1.17.x" no file is
    requested and [-Dlog4j2.formatMsgNoLookups=true] is appended, whatever the
    flags already are. *)
Theorem log4j_patch_table (env : Launch.Env) (o : Launch.LaunchOptions)
    (mainClass : Js.Value) (client_url : string)
    (jvm : list Js.Value) (s : Launch.State) (x : string) :
  let version id := Launch.mkVersion id mainClass client_url in
  let configPath := default (Launch.root o) (Launch.cwd o) in
  let fetched url file :=
    let rq := Download.mkRequest url configPath file "log4j" in
    (Launch.mkState (Launch.log s) (Launch.requests s ++ [rq]),
     Js.bind (Launch.download env rq)
       (fun _ => Js.Returned (jvm ++ [Js.VStr ("-Dlog4j.configurationFile=" +:+ file)]))) in
  (forall flags,
     jvm = Js.VStr <$> flags -> More.unconfigured flags ->
     Launch.log4j env o (version "1.16.5") jvm s =
       fetched
         "https://launcher.mojang.com/v1/objects/02937d122c86ce73319ef9975b58896fc1b491d1/log4j2_112-116.xml"
         "log4j2_112-116.xml"
     /\ Launch.log4j env o (version "1.7.10") jvm s =
       fetched
         "https://launcher.mojang.com/v1/objects/dd2b723346a8dcd48e7f4d245f6bf09e98db9696/log4j2_17-111.xml"
         "log4j2_17-111.xml")
  /\ (forall flags flag rest,
        jvm = (Js.VStr <$> flags) ++ Js.VStr flag :: rest ->
        More.unconfigured flags -> More.contains "Dlog4j.configurationFile" flag ->
        Launch.log4j env o (version "1.16.5") jvm s = (s, Js.Returned jvm)
        /\ Launch.log4j env o (version "1.7.10") jvm s = (s, Js.Returned jvm))
  /\ (forall flags other rest,
        jvm = (Js.VStr <$> flags) ++ other :: rest ->
        More.unconfigured flags -> (forall flag, other <> Js.VStr flag) ->
        Launch.log4j env o (version "1.16.5") jvm s = (s, Js.Threw "TypeError")
        /\ Launch.log4j env o (version "1.7.10") jvm s = (s, Js.Threw "TypeError"))
  /\ Launch.log4j env o (version "1.18") jvm s =
       (s, Js.Returned (jvm ++ [Js.VStr "-Dlog4j2.formatMsgNoLookups=true"]))
  /\ Launch.log4j env o (version "1.17") jvm s =
       (s, Js.Returned (jvm ++ [Js.VStr "-Dlog4j2.formatMsgNoLookups=true"]))
  /\ Launch.log4j env o (version ("1.17." +:+ x)) jvm s =
       (s, Js.Returned (jvm ++ [Js.VStr "-Dlog4j2.formatMsgNoLookups=true"])).
Proof.
  intros version configPath fetched.
  assert (H16 : forall v, v = version "1.16.5" \/ v = version "1.7.10" ->
            exists url file,
              Launch.log4j env o v jvm s =
              match Launch.find_configurationFile jvm with
              | Js.Returned None => fetched url file
              | Js.Returned (Some _) => (s, Js.Returned jvm)
              | Js.Threw e => (s, Js.Threw e)
              | Js.Never => (s, Js.Never)
              end
              /\ (v = version "1.16.5" ->
                  url = "https://launcher.mojang.com/v1/objects/02937d122c86ce73319ef9975b58896fc1b491d1/log4j2_112-116.xml"
                  /\ file = "log4j2_112-116.xml")
              /\ (v = version "1.7.10" ->
                  url = "https://launcher.mojang.com/v1/objects/dd2b723346a8dcd48e7f4d245f6bf09e98db9696/log4j2_17-111.xml"
                  /\ file = "log4j2_17-111.xml")).
  { intros v [->| ->]; eexists; eexists; (split; [apply log4j_by_search; reflexivity|]);
      split; intros E; try (split; reflexivity); discriminate E. }
  destruct (H16 _ (or_introl eq_refl)) as (u1 & f1 & E1 & K1 & _).
  destruct (K1 eq_refl) as [-> ->]. clear K1.
  destruct (H16 _ (or_intror eq_refl)) as (u2 & f2 & E2 & _ & K2).
  destruct (K2 eq_refl) as [-> ->]. clear K2 H16.
  split; [|split; [|split; [|split; [|split]]]].
  - intros flags Hj Hfree. rewrite E1, E2.
    assert (Hs : Launch.find_configurationFile jvm = Js.Returned None).
    { rewrite Hj, <- (app_nil_r (Js.VStr <$> flags)).
      rewrite find_configurationFile_past by exact Hfree. reflexivity. }
    rewrite Hs. split; reflexivity.
  - intros flags flag rest Hj Hfree Hflag. rewrite E1, E2.
    assert (Hs : Launch.find_configurationFile jvm = Js.Returned (Some (Js.VStr flag))).
    { rewrite Hj, find_configurationFile_past by exact Hfree.
      cbn [Launch.find_configurationFile].
      apply includes_contains in Hflag. unfold Launch.configurationFile.
      rewrite Hflag. reflexivity. }
    rewrite Hs. split; reflexivity.
  - intros flags other rest Hj Hfree Hother. rewrite E1, E2.
    assert (Hs : Launch.find_configurationFile jvm = Js.Threw "TypeError").
    { rewrite Hj, find_configurationFile_past by exact Hfree.
      destruct other as [flag| |]; [exfalso; apply (Hother flag); reflexivity| |];
        reflexivity. }
    rewrite Hs. split; reflexivity.
  - reflexivity.
  - reflexivity.
  - unfold Launch.log4j, Launch.log4j_configuration, Launch.log4j_lookups, version.
    cbn [Launch.id]. rewrite minor_1_17. reflexivity.
Qed.

Lemma log4j_patch_table_witness :
  let kept := [Js.VStr "-Xss1M"; Js.VStr "-Dlog4j.configurationFile=mine.xml"] in
  let s := Launch.mkState [] [] in
  let version := Launch.mkVersion "1.16.5" (Js.VStr "net.minecraft.client.main.Main") "" in
  Launch.log4j (sample_env []) sample_options version kept s = (s, Js.Returned kept)
  /\ Launch.requests (Launch.log4j (sample_env []) sample_options version
                        [Js.VStr "-Xss1M"] s).1
     = [Download.mkRequest
          "https://launcher.mojang.com/v1/objects/02937d122c86ce73319ef9975b58896fc1b491d1/log4j2_112-116.xml"
          ["home"; "steve"; ".minecraft"] "log4j2_112-116.xml" "log4j"].
Proof.
  cbv zeta.
  assert (Hfree : More.unconfigured ["-Xss1M"]).
  { intros flag Hin Hc. apply list_elem_of_singleton in Hin. subst flag.
    apply includes_contains in Hc. vm_compute in Hc. discriminate Hc. }
  split.
  - destruct (log4j_patch_table (sample_env []) sample_options
                (Js.VStr "net.minecraft.client.main.Main") ""
                [Js.VStr "-Xss1M"; Js.VStr "-Dlog4j.configurationFile=mine.xml"]
                (Launch.mkState [] []) "") as (_ & H & _).
    apply (H ["-Xss1M"] "-Dlog4j.configurationFile=mine.xml" []).
    + reflexivity.
    + exact Hfree.
    + exists "-", "=mine.xml". reflexivity.
  - destruct (log4j_patch_table (sample_env []) sample_options
                (Js.VStr "net.minecraft.client.main.Main") ""
                [Js.VStr "-Xss1M"] (Launch.mkState [] []) "") as (H & _).
    destruct (H ["-Xss1M"] eq_refl Hfree) as [H1 _].
    rewrite H1. reflexivity.
Defined.

(** ** The identity record *)

(** C8, as the specification words it, does not hold. An identity that comes
    without [meta] is the caller's object, and after [getLaunchOptions] that
    object carries [meta = { type: 'offline' }]. *)
Lemma getLaunchOptions_writes_meta :
  let heap : gmap Options.Ref Options.Authorization := {[ 1%nat := sample_identity ]} in
  let heap' := (Options.getLaunchOptions "linux" sample_input heap).1 in
  Options.meta <$> heap !! 1%nat = Some None
  /\ Options.meta <$> heap' !! 1%nat = Some (Some (Options.mkMeta "offline" None))
  /\ heap' <> heap.
Proof.
  split; [reflexivity|]. split; [reflexivity|].
  intros H. apply (f_equal (fun h => Options.meta <$> h !! 1%nat)) in H.
  vm_compute in H. discriminate.
Qed.

(** C8 (amended): [getLaunchOptions] changes nothing in the object store
    except, at most, the [meta] field of the authorization object: an
    identity that carries a [meta] tag is left exactly as the caller passed
    it; an identity without one gets [meta = { type: 'offline' }] assigned,
    and all its other fields stay as they were. *)
Theorem getLaunchOptions_identity (cur : string) (i : Options.Input)
    (heap : gmap Options.Ref Options.Authorization) :
  (Options.getLaunchOptions cur i heap).1 =
  match heap !! Options.authorization i with
  | Some a =>
      match Options.meta a with
      | Some _ => heap
      | None =>
          <[Options.authorization i :=
              Options.mkAuthorization
                (Options.access_token a) (Options.client_token a) (Options.uuid a)
                (Options.name a) (Options.user_properties a)
                (Some (Options.mkMeta "offline" None))]> heap
      end
  | None => heap
  end.
Proof.
  unfold Options.getLaunchOptions.
  destruct (heap !! Options.authorization i) as [a|] eqn:Ha; [|reflexivity].
  assert (Hstore : (<[Options.authorization i := Options.default_meta a]> heap) =
                   match Options.meta a with
                   | Some _ => heap
                   | None =>
                       <[Options.authorization i :=
                           Options.mkAuthorization
                             (Options.access_token a) (Options.client_token a)
                             (Options.uuid a) (Options.name a)
                             (Options.user_properties a)
                             (Some (Options.mkMeta "offline" None))]> heap
                   end).
  { destruct a as [t c u nm up [m|]]; simpl; [|reflexivity].
    apply insert_id. exact Ha. }
  destruct (Options.loop _ _ _ _ _); simpl; exact Hstore.
Qed.

(** ** The orchestration *)

Section LaunchFacts.
Import Js Launch.

Lemma seq_returned {A B} (m : M A) (k : A -> M B) (s s' : State) (b : B) :
  seq m k s = (s', Returned b) ->
  exists a s1, m s = (s1, Returned a) /\ k a s1 = (s', Returned b).
Proof.
  unfold seq. destruct (m s) as [s1 [a|e|]]; intros H; try discriminate.
  eauto.
Qed.

(** An error from the version resolver: a debug event, ['close'] with
    code 1, and [null]. *)
Lemma launch_version_error (env : Env) (o : LaunchOptions) (message : string) :
  fst (checkJava env) = true ->
  getVersion env = Returned (inl message) ->
  exists before,
    launch env o =
    (mkState (before ++ [Debug ("[VoidBeam]: " +:+ message); Close 1]) [], Null).
Proof.
  intros Hj Hv. unfold launch, launch_try, seq, emit, await, when, ret.
  rewrite Hj, Hv. simpl.
  destruct (root_exists env); simpl; [eexists [_]|eexists [_; _]]; reflexivity.
Qed.

(** Whatever is thrown inside the [try] block ends the same way. *)
Lemma launch_catches (env : Env) (o : LaunchOptions) (s : State) (e : string) :
  launch_try env o (mkState [] []) = (s, Threw e) ->
  launch env o =
  (mkState (log s ++ [Debug ("[VoidBeam]: Failed to start due to " +:+ e +:+ ", closing...");
                      Close 1])
           (requests s),
   Null).
Proof. intros H. unfold launch. rewrite H. reflexivity. Qed.

(** A download whose promise is rejected is such a throw. *)
Lemma launch_jar_rejected (env : Env) (o : LaunchOptions) (v : Version) (nativePath : Pipeline.Path) :
  fst (checkJava env) = true ->
  getVersion env = Returned (inr v) ->
  getNatives env = Returned nativePath ->
  jar_exists env = false ->
  (forall rq, download env rq = Threw "Error: Download failed: 404") ->
  exists before rq,
    launch env o =
    (mkState (before ++ [Debug "[VoidBeam]: Failed to start due to Error: Download failed: 404, closing...";
                         Close 1]) [rq],
     Null).
Proof.
  intros Hj Hv Hn He Hd. unfold launch, launch_try, seq, emit, await, when, ret, getJar, downloadAsync.
  rewrite Hj, Hv, Hn, He. simpl. rewrite Hd.
  destruct (root_exists env); simpl; [eexists [_; _]|eexists [_; _; _]]; eexists; reflexivity.
Qed.

End LaunchFacts.

(** C9 at the failing input: the jar is missing and the server answers the
    request for it, and the retry, with status 404. [downloadAsync] resolves
    all the same (see C3), so nothing is thrown into the [try] block: no
    ['close'] event is emitted and the process is started. When both requests
    fail in transport the promise is never settled and [launch] never
    returns, again without a ['close'] event. *)
Theorem launch_after_failed_download :
  let not_found := [Download.BadStatus 404; Download.BadStatus 404] in
  let unreachable := [Download.TransportError "Error: connect ECONNREFUSED";
                      Download.TransportError "Error: connect ECONNREFUSED"] in
  Launch.started (Launch.launch (sample_env not_found) sample_options).2 = true
  /\ (Launch.Close 1 ∉
        Launch.log (Launch.launch (sample_env not_found) sample_options).1)
  /\ length (Launch.requests (Launch.launch (sample_env not_found) sample_options).1) = 1%nat
  /\ (Launch.launch (sample_env unreachable) sample_options).2 = Launch.NoReturn
  /\ (Launch.Close 1 ∉
        Launch.log (Launch.launch (sample_env unreachable) sample_options).1).
Proof.
  split; [reflexivity|]. split.
  - vm_compute. intros H. repeat (apply elem_of_cons in H as [H|H]; [discriminate|]).
    apply elem_of_nil in H. exact H.
  - split; [reflexivity|]. split; [reflexivity|].
    vm_compute. intros H. repeat (apply elem_of_cons in H as [H|H]; [discriminate|]).
    apply elem_of_nil in H. exact H.
Qed.

(** ** The class path *)

Section ClasspathFacts.
Import Js Launch.

Lemma cleanUp_some {A} (l : list A) : cleanUp (Some <$> l) = l.
Proof.
  unfold cleanUp. induction l as [|a l IH]; [reflexivity|].
  rewrite fmap_cons. cbn [omap list_omap]. f_equal. exact IH.
Qed.

Lemma separator_windows (cur : string) :
  separator cur = (if String.eqb cur "windows" then ";" else ":")
  /\ (separator cur = ";" <-> cur = "windows").
Proof.
  split; [reflexivity|]. unfold separator.
  destruct (String.eqb cur "windows") eqn:E.
  - apply String.eqb_eq in E. split; auto.
  - apply String.eqb_neq in E. split; [discriminate|contradiction].
Qed.

Lemma await_returned {A} (o : Outcome A) (s s' : State) (a : A) :
  await o s = (s', Returned a) -> s' = s /\ o = Returned a.
Proof. unfold await. intros H. inversion H. auto. Qed.

End ClasspathFacts.

(** What [getClasses] returns: the resolved paths of the libraries that pass
    the filter, in the order in which their downloads completed. *)
Section ClassesFacts.
Import Pipeline.
Variable net : string -> string.

Lemma library_fold_libs (directory : Path) (ev : string) (n : nat)
    (libraries : list Library) (r : Run) :
  libs (fold_left (library_callback directory ev n) libraries r)
    ++ awaited (fold_left (library_callback directory ev n) libraries r)
  ≡ₚ (libs r ++ awaited r) ++ omap (library_path directory) libraries.
Proof.
  revert r. induction libraries as [|lib libraries IH]; intros r.
  - simpl. rewrite app_nil_r. reflexivity.
  - cbn [fold_left]. rewrite IH. clear IH.
    change (omap (library_path directory) (lib :: libraries))
      with (match library_path directory lib with
            | Some p => p :: omap (library_path directory) libraries
            | None => omap (library_path directory) libraries
            end).
    unfold library_callback, library_path, awaited.
    destruct (downloadObj lib) as [d|]; simpl; [|reflexivity].
    destruct (existsSync (files r) (directory ++ a_path d)); simpl.
    + rewrite <- !app_assoc. apply Permutation_app_head.
      simpl. apply Permutation_middle.
    + rewrite omap_app. simpl. rewrite <- !app_assoc.
      do 2 apply Permutation_app_head. reflexivity.
Qed.

Lemma settle_libs (ev : string) (n : nat) (sched : list nat) (r : Run) :
  libs (settle net ev n sched r) ++ awaited (settle net ev n sched r)
  ≡ₚ libs r ++ awaited r.
Proof.
  revert r. induction sched as [|k sched IH]; intros r; [reflexivity|].
  cbn [settle]. set (i := (k mod length (pending r))%nat).
  destruct (pending r !! i) as [t|] eqn:E; [|reflexivity].
  rewrite IH. unfold awaited. simpl.
  rewrite (omap_Permutation t_push _ _ (delete_Permutation _ _ _ E)).
  change (omap t_push (t :: delete i (pending r)))
    with (match t_push t with
          | Some p => p :: omap t_push (delete i (pending r))
          | None => omap t_push (delete i (pending r))
          end).
  destruct (t_push t); simpl.
  - rewrite <- app_assoc. simpl. reflexivity.
  - rewrite app_nil_r. reflexivity.
Qed.

Lemma getClasses_paths (sched : list nat) (cur : string) (libraryDirectory : Path)
    (libraries : list Library) (r0 : Run) :
  let r := getClasses net sched cur libraryDirectory libraries r0 in
  pending r = [] ->
  libs r ≡ₚ omap (library_path libraryDirectory)
              (filter (fun lib => on_classpath cur lib = true) libraries).
Proof.
  intros r Hr. unfold r, getClasses in *.
  set (chosen := filter (fun lib => on_classpath cur lib = true) libraries) in *.
  set (d := downloadToDirectory net sched libraryDirectory chosen "classes" r0) in *.
  assert (Hd : pending d = []).
  { destruct (pending d) eqn:E; [reflexivity|]. rewrite E in Hr. discriminate. }
  rewrite Hd. simpl.
  pose proof (settle_libs "classes" (length chosen) sched
                (fold_left (library_callback libraryDirectory "classes" (length chosen)) chosen
                   (mkRun (files r0) 0
                          (events r0 ++ [mkProgress "classes" 0 (length chosen)])
                          (fetched r0) [] []))) as Hs.
  rewrite library_fold_libs in Hs.
  change (settle net "classes" (length chosen) sched _) with d in Hs.
  unfold awaited in Hs at 1. rewrite Hd in Hs. simpl in Hs.
  rewrite app_nil_r in Hs. exact Hs.
Qed.

End ClassesFacts.

(** C7: whenever [launch] starts the process, the argument list is the JVM
    flags, then the token [-cp], then ONE token holding the class path, then
    the main class, then the game arguments. The class-path token is the
    library paths (those [getClasses] returned or, when the caller overrides
    them, [overrides.classes]) joined with [;] when the OS is ["windows"] and
    with [:] for every other OS, followed by the same separator and the path
    of the jar. *)
Theorem classpath_token (env : Launch.Env) (o : Launch.LaunchOptions) :
  let sep := if String.eqb (Launch.os o) "windows" then ";" else ":" in
  let dir := default (Launch.root o ++ ["versions"; Launch.version_number o])
                     (Launch.directory o) in
  let jar :=
    if Launch.jar_exists_after env
    then default (dir ++ [Launch.version_number o +:+ ".jar"]) (Launch.minecraftJar o)
    else dir ++ [Launch.version_number o +:+ ".jar"] in
  Launch.started (Launch.launch env o).2 = true ->
  exists v jvm cls launchOptions,
    Launch.getVersion env = Js.Returned (inr v)
    /\ match Launch.classes o with
       | Some cs => cls = cs
       | None => exists libs, Launch.getClasses env = Js.Returned libs
                              /\ cls = Launch.render <$> libs
       end
    /\ Launch.getLaunchOptions env = Js.Returned launchOptions
    /\ (Launch.launch env o).2 =
       Launch.Process
         (jvm ++ [ Js.VStr "-cp";
                   Js.VStr (String.concat sep cls +:+ sep +:+ Launch.render jar);
                   Launch.mainClass v ]
              ++ launchOptions).
Proof.
  intros sep dir jar Hstarted.
  unfold Launch.launch in *.
  destruct (Launch.launch_try env o (Launch.mkState [] [])) as [s out] eqn:Htry.
  destruct out as [r|e|]; simpl in Hstarted; try discriminate.
  destruct r as [args| |]; simpl in Hstarted; try discriminate. clear Hstarted.
  simpl. unfold Launch.launch_try in Htry.
  apply seq_returned in Htry as (? & s1 & _ & Htry).
  destruct (negb (Launch.checkJava env).1).
  { cbv [Launch.seq Launch.emit Launch.ret] in Htry. discriminate. }
  apply seq_returned in Htry as (? & s2 & _ & Htry).
  apply seq_returned in Htry as (versionFile & s3 & Hv & Htry).
  apply await_returned in Hv as [_ Hv].
  destruct versionFile as [message|v].
  { cbv [Launch.seq Launch.emit Launch.ret] in Htry. discriminate. }
  apply seq_returned in Htry as (nativePath & s4 & _ & Htry).
  apply seq_returned in Htry as (? & s5 & _ & Htry).
  apply seq_returned in Htry as (jvm & s6 & _ & Htry).
  apply seq_returned in Htry as (cls & s7 & Hcls & Htry).
  apply seq_returned in Htry as (? & s8 & _ & Htry).
  apply seq_returned in Htry as (? & s9 & _ & Htry).
  apply seq_returned in Htry as (? & s10 & _ & Htry).
  apply seq_returned in Htry as (launchOptions & s11 & Hlo & Htry).
  apply await_returned in Hlo as [_ Hlo].
  apply seq_returned in Htry as (? & s12 & _ & Htry).
  apply seq_returned in Htry as (? & s13 & _ & Htry).
  unfold Launch.startMinecraft in Htry.
  apply seq_returned in Htry as (? & s14 & _ & Htry).
  unfold Launch.ret in Htry. inversion Htry; subst.
  exists v, jvm, cls, launchOptions.
  split; [exact Hv|]. split; [|split; [exact Hlo|reflexivity]].
  destruct (Launch.classes o) as [cs|].
  - unfold Launch.ret in Hcls. inversion Hcls. reflexivity.
  - apply seq_returned in Hcls as (libs & s' & Hlibs & Hret).
    apply await_returned in Hlibs as [_ Hlibs].
    unfold Launch.ret in Hret. inversion Hret.
    exists libs. split; [exact Hlibs|].
    rewrite list_fmap_compose. apply cleanUp_some.
Qed.

Lemma classpath_token_witness :
  Launch.started (Launch.launch (sample_env [Download.Success]) sample_options).2 = true
  /\ exists v jvm cls launchOptions,
    Launch.getVersion (sample_env [Download.Success]) = Js.Returned (inr v)
    /\ (exists libs, Launch.getClasses (sample_env [Download.Success]) = Js.Returned libs
                     /\ cls = Launch.render <$> libs)
    /\ Launch.getLaunchOptions (sample_env [Download.Success]) = Js.Returned launchOptions
    /\ (Launch.launch (sample_env [Download.Success]) sample_options).2 =
       Launch.Process
         (jvm ++ [ Js.VStr "-cp";
                   Js.VStr (String.concat ":" cls +:+ ":"
                            +:+ Launch.render ["home"; "steve"; ".minecraft"; "versions";
                                               "1.20.1"; "1.20.1.jar"]);
                   Launch.mainClass v ]
              ++ launchOptions).
Proof.
  split; [reflexivity|].
  exact (classpath_token (sample_env [Download.Success]) sample_options eq_refl).
Defined.

(** * Further properties of the code *)

(** ** Download batches: what is fetched and what is left alone *)

Section BatchFrame.
Import Pipeline.
Context {X : Type}.
Variable check : X -> option Path.
Variable callback : Run -> X -> Run.
Variable net : string -> string.
Variable ev : string.
Variable n : nat.
Hypothesis Hcb : checks_then_fetches check callback ev n.
Variable fs0 : gmap Path string.

Lemma untouched_fold (xs : list X) (r : Run) :
  files r = fs0 -> (forall t, t ∈ pending r -> fs0 !! write_path t = None) ->
  More.untouched fs0 (fold_left callback xs r).
Proof.
  revert r. induction xs as [|x xs IH]; intros r Hf Hp.
  - split; [exact Hp|]. intros p c H. simpl. rewrite Hf. exact H.
  - simpl. apply IH.
    + rewrite (callback_files check callback ev n Hcb). exact Hf.
    + destruct (callback_cases check callback ev n Hcb r x)
        as [[_ ->]|[(p & push & _ & _ & ->)|(p & t & _ & Hex & -> & Hw)]];
        [exact Hp|exact Hp|].
      intros t' Ht'. simpl in Ht'. apply elem_of_app in Ht' as [Ht'|Ht'].
      * apply Hp. exact Ht'.
      * apply list_elem_of_singleton in Ht'. subst t'. rewrite Hw.
        rewrite Hf in Hex. unfold existsSync in Hex.
        apply orb_false_iff in Hex as [_ Hex].
        apply bool_decide_eq_false in Hex.
        destruct (fs0 !! p) eqn:E; [|reflexivity]. exfalso. apply Hex. eauto.
Qed.

Lemma untouched_settle (sched : list nat) (r : Run) :
  More.untouched fs0 r -> More.untouched fs0 (settle net ev n sched r).
Proof.
  revert r. induction sched as [|k sched IH]; intros r H; [exact H|].
  cbn [settle]. set (i := (k mod length (pending r))%nat).
  destruct (pending r !! i) as [t|] eqn:E; [|exact H].
  apply IH. destruct H as [Hp Hf]. split.
  - intros t' Ht'. simpl in Ht'. apply Hp.
    eapply list_elem_of_delete_inv. exact Ht'.
  - intros p c Hpc. simpl.
    assert (Hne : write_path t <> p).
    { intros Heq. rewrite <- Heq in Hpc.
      rewrite (Hp t) in Hpc; [discriminate|].
      apply list_elem_of_lookup. eauto. }
    unfold write_path in Hne. rewrite lookup_insert_ne by exact Hne.
    apply Hf. exact Hpc.
Qed.

End BatchFrame.

Section BatchExtras.
Import Pipeline.
Variable net : string -> string.



Lemma getAssets_files (sched : list nat) (assetDirectory : Path) (resource : string)
    (objects : list Asset) (r0 : Run) :
  files (getAssets net sched assetDirectory resource objects r0) =
  files (settle net "assets" (length objects) sched
           (fold_left (asset_callback assetDirectory resource (length objects)) objects
              (mkRun (files r0) 0
                     (events r0 ++ [mkProgress "assets" 0 (length objects)])
                     (fetched r0) (libs r0) []))).
Proof. unfold getAssets. destruct (pending _); reflexivity. Qed.

End BatchExtras.

(** X1: a download batch never changes a file that was there when it began:
    whatever the libraries, the assets, the network and the order in which
    downloads complete, every file that existed before
    [downloadToDirectory], or before the asset loop of [getAssets], is still
    there afterwards with the same contents. Downloads only ever create
    files. *)
Theorem batch_keeps_existing_files (net : string -> string) (sched : list nat)
    (directory : Pipeline.Path) (libraries : list Pipeline.Library) (eventName : string)
    (assetDirectory : Pipeline.Path) (resource : string) (objects : list Pipeline.Asset)
    (r0 : Pipeline.Run) :
  Pipeline.files r0 ⊆
    Pipeline.files (Pipeline.downloadToDirectory net sched directory libraries eventName r0)
  /\ Pipeline.files r0 ⊆
    Pipeline.files (Pipeline.getAssets net sched assetDirectory resource objects r0).
Proof.
  split; apply map_subseteq_spec; intros p c Hpc.
  - unfold Pipeline.downloadToDirectory.
    eapply (untouched_settle net eventName (length libraries) (Pipeline.files r0)); [|exact Hpc].
    apply (untouched_fold (Pipeline.library_path directory) _ eventName (length libraries)
             (library_callback_checks directory eventName (length libraries)));
      [reflexivity|].
    intros t Ht. apply elem_of_nil in Ht. contradiction.
  - rewrite getAssets_files.
    eapply (untouched_settle net "assets" (length objects) (Pipeline.files r0)); [|exact Hpc].
    apply (untouched_fold (Pipeline.asset_path assetDirectory) _ "assets" (length objects)
             (asset_callback_checks assetDirectory resource (length objects)));
      [reflexivity|].
    intros t Ht. apply elem_of_nil in Ht. contradiction.
Qed.


(** X3: when [getClasses] is resolved, the array it returns holds the
    resolved path of every library that has an artifact and is not excluded
    by its rules, each as often as the library is listed and nothing else
    (their order is that in which the files became available), and every one
    of these paths is a file that exists. *)
Theorem getClasses_resolved (net : string -> string) (sched : list nat) (cur : string)
    (libraryDirectory : Pipeline.Path) (libraries : list Pipeline.Library)
    (r0 : Pipeline.Run) :
  let r := Pipeline.getClasses net sched cur libraryDirectory libraries r0 in
  Pipeline.pending r = [] ->
  Pipeline.libs r ≡ₚ
    omap (Pipeline.library_path libraryDirectory)
         (filter (fun lib => Pipeline.on_classpath cur lib = true) libraries)
  /\ Forall (fun p => Pipeline.existsSync (Pipeline.files r) p = true) (Pipeline.libs r).
Proof.
  intros r Hr.
  pose proof (getClasses_paths net sched cur libraryDirectory libraries r0 Hr) as Hperm.
  fold r in Hperm. split; [exact Hperm|].
  apply Forall_forall. intros p Hp. rewrite Hperm in Hp.
  apply list_elem_of_omap in Hp as (lib & Hlib & Hpath).
  unfold r, Pipeline.getClasses in *.
  set (chosen := filter (fun lib => Pipeline.on_classpath cur lib = true) libraries) in *.
  set (d := Pipeline.downloadToDirectory net sched libraryDirectory chosen "classes" r0) in *.
  assert (Hd : Pipeline.pending d = []).
  { destruct (Pipeline.pending d) eqn:E; [reflexivity|]. rewrite E in Hr. discriminate. }
  rewrite Hd. simpl. unfold d, Pipeline.downloadToDirectory in *.
  exact (batch_materialises (Pipeline.library_path libraryDirectory) _ net "classes"
           (length chosen)
           (library_callback_checks libraryDirectory "classes" (length chosen))
           sched chosen _ lib p Hd Hlib Hpath).
Qed.

Lemma getClasses_resolved_witness :
  let r := Pipeline.getClasses sample_net [1; 0]%nat "linux" ["root"; "libraries"]
             sample_libraries sample_run in
  Pipeline.pending r = []
  /\ Pipeline.libs r ≡ₚ
       omap (Pipeline.library_path ["root"; "libraries"])
            (filter (fun lib => Pipeline.on_classpath "linux" lib = true) sample_libraries)
  /\ Forall (fun p => Pipeline.existsSync (Pipeline.files r) p = true) (Pipeline.libs r).
Proof.
  split; [vm_compute; reflexivity|].
  apply (getClasses_resolved sample_net [1; 0]%nat "linux" ["root"; "libraries"]
           sample_libraries sample_run).
  vm_compute. reflexivity.
Defined.

(** ** One download: requests and the call without retry *)

Section RequestCount.
Import Download.
Variable w : World.
Variable rq : Request.

Lemma handle_all_final_issued self (evs : list StreamEvent) (p : Settled) (st : State) :
  issued (handle_all self false rq evs p st).2 = issued st.
Proof.
  revert p st. induction evs as [|ev evs IH]; intros p st; [reflexivity|].
  cbn [handle_all].
  destruct (handle self false rq ev p st) as [p' st'] eqn:Hh.
  rewrite IH.
  destruct ev as [statusCode|error| |error]; cbn [handle on_failure] in Hh;
    try destruct (statusCode =? 200); inversion Hh; reflexivity.
Qed.

(** The nested call issues its own request and no other. *)
Lemma retry_issued (st : State) :
  issued (downloadAsync_body w (fun _ _ st' => (Pending, st')) false rq st).2
  = issued st ++ [rq].
Proof. unfold downloadAsync_body. rewrite handle_all_final_issued. reflexivity. Qed.

(** With [retry] set, every failure event starts one nested call. *)
Lemma handle_all_retry_issued (evs : list StreamEvent) (p : Settled) (st : State) :
  issued (handle_all (downloadAsync_body w (fun _ _ st' => (Pending, st'))) true rq
                     evs p st).2
  = issued st ++ repeat rq (More.failures evs).
Proof.
  revert p st. induction evs as [|ev evs IH]; intros p st.
  - cbn. rewrite app_nil_r. reflexivity.
  - cbn [handle_all More.failures].
    destruct (handle _ true rq ev p st) as [p' st'] eqn:Hh.
    rewrite IH.
    assert (Hst : issued st' = issued st ++ repeat rq (if More.failure ev then 1 else 0)).
    { destruct ev as [statusCode|error| |error]; cbn [handle on_failure More.failure] in *.
      - destruct (statusCode =? 200); cbn [negb].
        + inversion Hh; subst. cbn. rewrite app_nil_r. reflexivity.
        + pose proof (retry_issued st) as Hr.
          destruct (downloadAsync_body w _ false rq st) as [q st1].
          inversion Hh; subst. exact Hr.
      - pose proof (retry_issued st) as Hr.
        destruct (downloadAsync_body w _ false rq st) as [q st1].
        inversion Hh; subst. exact Hr.
      - inversion Hh; subst. cbn. rewrite app_nil_r. reflexivity.
      - inversion Hh; subst. cbn. rewrite app_nil_r. reflexivity. }
    rewrite Hst, <- app_assoc, <- repeat_app. reflexivity.
Qed.

End RequestCount.

(** X4: the requests of one call of [downloadAsync]. Without [retry] it
    makes its request and no other. With [retry] it makes its request and,
    with the same parameters, one more for every failure event of that first
    request's stream (a response with a status other than 200, an error of
    the stream); the requests made for a retry never lead to further ones,
    whatever they are answered. So a fetch that ends in one way, with a
    status or with a transport error, is followed by one retry when it fails
    and by none when it succeeds, and a stream that reports a bad status and
    then an error by two. *)
Theorem downloadAsync_request_count (w : Download.World) (answers : list Download.Fetch)
    (retry : bool) (rq : Download.Request) :
  Download.issued (Download.downloadAsync w retry rq Download.init).2
  = rq :: (if retry then repeat rq (More.failures (w 0%nat)) else [])
  /\ Download.issued
       (Download.downloadAsync (Download.world_of answers) retry rq Download.init).2
     = (if retry && More.failed (answers !! 0%nat) then [rq; rq] else [rq])
  /\ (w 0%nat = [Download.Response 404; Download.StreamError "ECONNRESET"] ->
      Download.issued (Download.downloadAsync w true rq Download.init).2 = [rq; rq; rq]).
Proof.
  assert (H : forall w',
            Download.issued (Download.downloadAsync w' retry rq Download.init).2
            = rq :: (if retry then repeat rq (More.failures (w' 0%nat)) else [])).
  { intros w'. destruct retry.
    - exact (handle_all_retry_issued w' rq (w' 0%nat) Download.Pending
               (Download.mkState [rq] [])).
    - exact (handle_all_final_issued rq _ (w' 0%nat) Download.Pending
               (Download.mkState [rq] [])). }
  split; [apply H|]. split.
  - rewrite H. unfold Download.world_of.
    destruct (answers !! 0%nat) as [[|c|e]|]; cbn [More.failed More.failures
      Download.events_of More.failure]; rewrite ?andb_false_r; try reflexivity.
    + destruct retry; reflexivity.
    + destruct retry; [|reflexivity]. destruct (c =? 200); reflexivity.
    + destruct retry; reflexivity.
    + destruct retry; reflexivity.
  - intros Hw.
    pose proof (handle_all_retry_issued w rq (w 0%nat) Download.Pending
                  (Download.mkState [rq] [])) as Hthree.
    rewrite Hw in Hthree at 2. exact Hthree.
Qed.

(** X5: called without [retry], [downloadAsync] settles as the fetch went:
    resolved after a response with status 200, rejected with
    "Download failed: <status>" after any other status (the later ['finish']
    of the write stream does not undo the rejection), rejected with the
    transport error after a transport failure, and pending as long as the
    network does not answer. *)
Theorem downloadAsync_without_retry (answers : list Download.Fetch) (rq : Download.Request) :
  (Download.downloadAsync (Download.world_of answers) false rq Download.init).1
  = match answers !! 0%nat with
    | Some Download.Success => Download.Resolved
    | Some (Download.BadStatus c) =>
        if c =? 200 then Download.Resolved
        else Download.Rejected ("Error: Download failed: " +:+ Js.show c)
    | Some (Download.TransportError e) => Download.Rejected e
    | None => Download.Pending
    end.
Proof.
  unfold Download.downloadAsync, Download.downloadAsync_body, Download.world_of.
  destruct answers as [|first rest]; [reflexivity|].
  cbn [lookup list_lookup Download.init Download.issued length].
  destruct first as [|c|e]; cbn; try reflexivity.
  destruct (c =? 200); reflexivity.
Qed.

(** ** Heap sizes: the two calls of [launch] *)

(** X6: [launch] calls [getMemory] twice, once for [-Xmx] and once for
    [-Xms]. The second call always returns the pair the first one returned,
    changes nothing and reports nothing, so the two flags come from one and
    the same pair, also when the first call has reset the configuration. *)
Theorem getMemory_twice (options_memory : option Memory.Config) :
  let r1 := Memory.getMemory options_memory in
  let r2 := Memory.getMemory (Some (Memory.memory r1)) in
  Memory.pair r2 = Memory.pair r1
  /\ Memory.memory r2 = Memory.memory r1
  /\ Memory.debug r2 = []
  /\ exists a b, Memory.pair r1 = [a; b]
                 /\ Memory.heap_flags options_memory = ["-Xmx" +:+ a; "-Xms" +:+ b].
Proof.
  assert (Hsome : forall m,
            let r1 := Memory.getMemory (Some m) in
            let r2 := Memory.getMemory (Some (Memory.memory r1)) in
            Memory.pair r2 = Memory.pair r1
            /\ Memory.memory r2 = Memory.memory r1
            /\ Memory.debug r2 = []
            /\ exists a b, Memory.pair r1 = [a; b]
                           /\ Memory.heap_flags (Some m) = ["-Xmx" +:+ a; "-Xms" +:+ b]).
  { intros m. unfold Memory.heap_flags, Memory.getMemory.
    destruct (Memory.isNaN (Memory.max m)) eqn:E1; cbn [negb andb].
    - cbn [Memory.memory]. rewrite E1. cbn. repeat split; eauto.
    - destruct (Memory.isNaN (Memory.min m)) eqn:E2; cbn [negb andb].
      + cbn [Memory.memory]. rewrite E1, E2. cbn. repeat split; eauto.
      + destruct (Memory.lt (Memory.max m) (Memory.min m)) eqn:E3.
        * cbn. repeat split; eauto.
        * cbn [Memory.memory]. rewrite E1, E2, E3. cbn. repeat split; eauto. }
  destruct options_memory as [m|]; [apply Hsome|].
  cbn. repeat split; eauto.
Qed.

(** X7: when both heap sizes are numeric and at least one of them is given
    as a number, [getMemory] leaves a configuration whose maximum is not
    below its minimum: the comparison is then made on numbers, and a pair in
    the wrong order is replaced by 1023 and 512. *)
Theorem getMemory_orders_numbers (m : Memory.Config) :
  (exists n, Memory.max m = Memory.MNum n \/ Memory.min m = Memory.MNum n) ->
  Memory.isNaN (Memory.max m) = false ->
  Memory.isNaN (Memory.min m) = false ->
  let r := Memory.getMemory (Some m) in
  exists x y,
    Memory.toNumber (Memory.max (Memory.memory r)) = Some x
    /\ Memory.toNumber (Memory.min (Memory.memory r)) = Some y
    /\ y <= x
    /\ Memory.pair r = [Memory.show (Memory.max (Memory.memory r)) +:+ "M";
                        Memory.show (Memory.min (Memory.memory r)) +:+ "M"].
Proof.
  intros [n Hn] H1 H2 r. unfold r, Memory.getMemory. rewrite H1, H2. cbn [negb andb].
  unfold Memory.isNaN in H1, H2.
  destruct (Memory.toNumber (Memory.max m)) as [x|] eqn:Ex; [|discriminate].
  destruct (Memory.toNumber (Memory.min m)) as [y|] eqn:Ey; [|discriminate].
  assert (Hlt : Memory.lt (Memory.max m) (Memory.min m) = (x <? y)).
  { unfold Memory.lt. rewrite Ex, Ey.
    destruct Hn as [Hn|Hn]; rewrite Hn in *;
      destruct (Memory.max m), (Memory.min m); try reflexivity; discriminate. }
  rewrite Hlt. destruct (x <? y) eqn:E.
  - exists 1023, 512. cbn. repeat split. lia.
  - exists x, y. cbn [Memory.memory Memory.pair]. rewrite Ex, Ey.
    apply Z.ltb_ge in E. repeat split. exact E.
Qed.

Lemma getMemory_orders_numbers_witness :
  let m := Memory.mkConfig (Memory.MNum 512) (Memory.MStr "1024") in
  ((exists n, Memory.max m = Memory.MNum n \/ Memory.min m = Memory.MNum n)
   /\ Memory.isNaN (Memory.max m) = false
   /\ Memory.isNaN (Memory.min m) = false)
  /\ exists x y,
    Memory.toNumber (Memory.max (Memory.memory (Memory.getMemory (Some m)))) = Some x
    /\ Memory.toNumber (Memory.min (Memory.memory (Memory.getMemory (Some m)))) = Some y
    /\ y <= x
    /\ Memory.pair (Memory.getMemory (Some m))
       = [Memory.show (Memory.max (Memory.memory (Memory.getMemory (Some m)))) +:+ "M";
          Memory.show (Memory.min (Memory.memory (Memory.getMemory (Some m)))) +:+ "M"].
Proof.
  assert (H : exists n, Memory.MNum 512 = Memory.MNum n \/ Memory.MStr "1024" = Memory.MNum n).
  { exists 512. left. reflexivity. }
  split; [split; [exact H|split; reflexivity]|].
  exact (getMemory_orders_numbers
           (Memory.mkConfig (Memory.MNum 512) (Memory.MStr "1024")) H eq_refl eq_refl).
Defined.

(** ** The orchestration: the ['close'] event *)

Section CloseEvent.
Import Js Launch.

Lemma quiet_emit_debug (message : string) : More.quiet (emit (Debug message)).
Proof.
  intros s. unfold emit, More.closes, More.announced. cbn [fst log].
  rewrite !omap_app. cbn. rewrite !app_nil_r. auto.
Qed.

Lemma quiet_await {A} (o : Outcome A) : More.quiet (await o).
Proof. intros s. split; reflexivity. Qed.

Lemma quiet_ret {A} (a : A) : More.quiet (ret a).
Proof. intros s. split; reflexivity. Qed.

Lemma quiet_downloadAsync (env : Env) (rq : Download.Request) :
  More.quiet (downloadAsync env rq).
Proof. intros s. split; reflexivity. Qed.

Lemma quiet_seq {A B} (m : M A) (k : A -> M B) :
  More.quiet m -> (forall a, More.quiet (k a)) -> More.quiet (seq m k).
Proof.
  intros Hm Hk s. unfold seq. specialize (Hm s).
  destruct (m s) as [s1 [a|e|]]; cbn [fst] in *; try exact Hm.
  specialize (Hk a s1). destruct Hk as [H1 H2], Hm as [H3 H4].
  split; congruence.
Qed.

Lemma quiet_when (b : bool) (m : M unit) : More.quiet m -> More.quiet (when b m).
Proof. intros H. destruct b; [exact H|apply quiet_ret]. Qed.

Lemma closing_seq {A} (m : M A) (k : A -> M Result) :
  More.quiet m -> (forall a, More.closing (k a)) -> More.closing (seq m k).
Proof.
  intros Hm Hk s Hs. unfold seq. specialize (Hm s). destruct Hm as [H1 H2].
  destruct (m s) as [s1 [a|e|]]; cbn [fst snd] in *; try congruence.
  specialize (Hk a s1). rewrite H1 in Hk. specialize (Hk Hs).
  destruct (k a s1) as [s2 [[args| |]|e|]]; cbn [fst snd] in *; try exact Hk.
  rewrite <- H2. exact Hk.
Qed.

Lemma closing_null (message : string) :
  More.closing (emit (Debug message) ;;; emit (Close 1) ;;; ret Null).
Proof.
  intros s Hs. unfold seq, emit, ret. cbn [fst snd log].
  unfold More.closes in *. rewrite !omap_app, Hs. split; [reflexivity|].
  rewrite last_snoc. reflexivity.
Qed.

Lemma closing_start (env : Env) (launchArguments : list Value) (message : string) :
  More.closing (emit (Arguments launchArguments) ;;; emit (Debug message) ;;;
                startMinecraft env launchArguments).
Proof.
  intros s Hs. unfold startMinecraft, seq, emit, await, ret. cbn [fst snd log].
  unfold More.closes, More.announced in *.
  destruct (spawn env launchArguments) as [[]|e|]; cbn [fst snd log];
    rewrite !omap_app, ?Hs; cbn; rewrite ?app_nil_r; auto.
Qed.

Lemma quiet_log4j (env : Env) (o : LaunchOptions) (v : Version) (jvm : list Value) :
  More.quiet (log4j env o v jvm).
Proof.
  unfold log4j, log4j_configuration.
  apply quiet_seq; [|intros; apply quiet_ret].
  destruct (nan_lt (minor (id v)) 17); [|apply quiet_ret].
  apply quiet_seq; [apply quiet_await|]. intros [flag|]; [apply quiet_ret|].
  destruct (log4j_file (minor (id v))) as [[url file]|]; [|apply quiet_ret].
  apply quiet_seq; [apply quiet_downloadAsync|]. intros. apply quiet_ret.
Qed.

Lemma closing_launch_try (env : Env) (o : LaunchOptions) :
  More.closing (launch_try env o).
Proof.
  unfold launch_try.
  apply closing_seq; [apply quiet_emit_debug|]. intros _.
  destruct (negb (checkJava env).1); [apply closing_null|].
  apply closing_seq; [apply quiet_when, quiet_emit_debug|]. intros _.
  apply closing_seq; [apply quiet_await|]. intros [message|v]; [apply closing_null|].
  apply closing_seq; [apply quiet_await|]. intros nativePath.
  apply closing_seq.
  { apply quiet_when, quiet_seq; [apply quiet_emit_debug|]. intros _.
    unfold getJar. destruct (jar_exists env); [apply quiet_ret|apply quiet_downloadAsync]. }
  intros _.
  apply closing_seq; [apply quiet_log4j|]. intros jvm.
  apply closing_seq.
  { destruct (classes o); [apply quiet_ret|].
    apply quiet_seq; [apply quiet_await|]. intros. apply quiet_ret. }
  intros cls.
  apply closing_seq; [apply quiet_emit_debug|]. intros _.
  apply closing_seq; [apply quiet_emit_debug|]. intros _.
  apply closing_seq; [apply quiet_await|]. intros _.
  apply closing_seq; [apply quiet_await|]. intros launchOptions.
  apply closing_start.
Qed.

End CloseEvent.

(** X8: [launch] emits ['close'] itself exactly when it returns [null], and
    then once, with code 1, as its last event. When it returns the process
    handle it has emitted no ['close'] event and exactly one ['arguments']
    event, which carries the very list the process was started with; when it
    never returns it has emitted no ['close'] event either. *)
Theorem launch_close_event (env : Launch.Env) (o : Launch.LaunchOptions) :
  match (Launch.launch env o).2 with
  | Launch.Process args =>
      More.closes (Launch.log (Launch.launch env o).1) = []
      /\ More.announced (Launch.log (Launch.launch env o).1) = [args]
  | Launch.Null =>
      More.closes (Launch.log (Launch.launch env o).1) = [1]
      /\ last (Launch.log (Launch.launch env o).1) = Some (Launch.Close 1)
  | Launch.NoReturn =>
      More.closes (Launch.log (Launch.launch env o).1) = []
  end.
Proof.
  pose proof (closing_launch_try env o (Launch.mkState [] []) eq_refl) as H.
  unfold Launch.launch.
  destruct (Launch.launch_try env o (Launch.mkState [] [])) as [s [[args| |]|e|]];
    cbn [fst snd Launch.log] in *; try exact H; try contradiction.
  unfold More.closes in *. rewrite omap_app, H. split; [reflexivity|].
  change ([Launch.Debug ("[VoidBeam]: Failed to start due to " +:+ e +:+ ", closing...");
           Launch.Close 1])
    with ([Launch.Debug ("[VoidBeam]: Failed to start due to " +:+ e +:+ ", closing...")]
          ++ [Launch.Close 1]).
  rewrite app_assoc, last_snoc. reflexivity.
Qed.

(** ** The log4j patches: versions that need none *)

(** X9: for a descriptor whose minor version is 19 or more, and for one
    whose id has no numeric minor version at all (a snapshot id such as
    "23w13a"), the log4j sections of [launch] request no file and leave the
    JVM flags as they are. *)
Theorem log4j_not_applied (env : Launch.Env) (o : Launch.LaunchOptions) (v : Launch.Version)
    (jvm : list Js.Value) (s : Launch.State) :
  match Launch.minor (Launch.id v) with
  | Some n => 19 <= n
  | None => True
  end ->
  Launch.log4j env o v jvm s = (s, Js.Returned jvm).
Proof.
  intros H. unfold Launch.log4j, Launch.log4j_configuration, Launch.log4j_lookups.
  destruct (Launch.minor (Launch.id v)) as [n|]; cbn.
  - replace (n <? 17) with false by (symmetry; apply Z.ltb_ge; lia).
    replace (n =? 18) with false by (symmetry; apply Z.eqb_neq; lia).
    replace (n =? 17) with false by (symmetry; apply Z.eqb_neq; lia).
    reflexivity.
  - reflexivity.
Qed.

Lemma log4j_not_applied_witness :
  match Launch.minor (Launch.id sample_version) with
  | Some n => 19 <= n
  | None => True
  end
  /\ Launch.log4j (sample_env []) sample_options sample_version
       [Js.VStr "-Xss1M"] (Launch.mkState [] [])
     = (Launch.mkState [] [], Js.Returned [Js.VStr "-Xss1M"]).
Proof.
  assert (H : match Launch.minor (Launch.id sample_version) with
              | Some n => 19 <= n
              | None => True
              end) by (vm_compute; discriminate).
  split; [exact H|].
  exact (log4j_not_applied (sample_env []) sample_options sample_version
           [Js.VStr "-Xss1M"] (Launch.mkState [] []) H).
Defined.

(** ** Game arguments: what [getLaunchOptions] returns *)

Section OptionsExtras.
Import Options.

Lemma plain_defined (l : list Arg) : Forall (fun v => v <> Js.VUndef) (omap plain l).
Proof.
  apply Forall_forall. intros v Hv.
  apply list_elem_of_omap in Hv as (a & _ & Ha).
  destruct a as [[s|n|]|o]; simpl in Ha; inversion Ha; discriminate.
Qed.

(** A token that does not begin with [${] is not a key of the table. *)
Lemma substitute_other (i : Input) (a : Authorization) (t : string) :
  String.prefix "${" t = false -> substitute (fields i a) (Js.VStr t) = Js.VStr t.
Proof.
  intros Ht. unfold substitute, lookup_field, fields. cbn [find fst].
  repeat match goal with
         | |- context [String.eqb ?k t] =>
             let E := fresh "E" in
             destruct (String.eqb k t) eqn:E;
             [apply String.eqb_eq in E; rewrite <- E in Ht; discriminate|]
         end.
  reflexivity.
Qed.

End OptionsExtras.

(** X10: [getLaunchOptions] returns whenever the authorization object
    exists: the loop over the arguments ends, however conditional tokens and
    their values are nested in the list, and the result holds strings and
    numbers only, never [undefined]. *)
Theorem getLaunchOptions_defined (cur : string) (i : Options.Input)
    (heap : gmap Options.Ref Options.Authorization) :
  is_Some (heap !! Options.authorization i) ->
  exists args,
    (Options.getLaunchOptions cur i heap).2 = Js.Returned args
    /\ Forall (fun v => v <> Js.VUndef) args.
Proof.
  intros [a Ha]. unfold Options.getLaunchOptions. rewrite Ha.
  match goal with
  | |- context [Options.loop (Options.iterations ?l) ?c ?t [] ?l] =>
      destruct (loop_total c t (Options.iterations l) [] l) as [args2 Hargs]; [lia|];
      rewrite Hargs
  end.
  eexists. split; [reflexivity|]. apply plain_defined.
Qed.

Lemma getLaunchOptions_defined_witness :
  is_Some (({[ 1%nat := sample_identity ]} : gmap Options.Ref Options.Authorization)
             !! Options.authorization sample_input)
  /\ exists args,
    (Options.getLaunchOptions "osx" sample_input {[ 1%nat := sample_identity ]}).2
      = Js.Returned args
    /\ Forall (fun v => v <> Js.VUndef) args.
Proof.
  assert (H : is_Some (({[ 1%nat := sample_identity ]}
                         : gmap Options.Ref Options.Authorization)
                        !! Options.authorization sample_input)).
  { eexists. reflexivity. }
  split; [exact H|].
  exact (getLaunchOptions_defined "osx" sample_input {[ 1%nat := sample_identity ]} H).
Defined.

(** X11: for a version with a legacy argument string (and no custom
    arguments, no window options) [getLaunchOptions] returns the string's
    tokens, split at single spaces, each looked up in the table of
    placeholders: the token [${auth_player_name}] becomes the identity's
    name, [${auth_uuid}] its uuid, [${user_type}] the type of its [meta]
    ("offline" when the identity came without one), [${game_directory}] the
    game directory override, or the root when that is missing or empty,
    [${version_type}] the version type, or "release" when that is missing or
    empty, and a token that does not begin with [${] is passed on
    unchanged. *)
Theorem getLaunchOptions_legacy (cur : string) (i : Options.Input)
    (heap : gmap Options.Ref Options.Authorization) (a : Options.Authorization)
    (s : string) :
  heap !! Options.authorization i = Some a ->
  Options.minecraftArguments i = Some s -> s <> "" ->
  Options.customLaunchArgs i = None -> Options.window i = None ->
  let tbl := Options.fields i (Options.default_meta a) in
  (Options.getLaunchOptions cur i heap).2
    = Js.Returned (omap Options.plain
                     (Options.Lit ∘ Options.substitute tbl ∘ Js.VStr <$> Js.split " " s))
  /\ Options.substitute tbl (Js.VStr "${auth_player_name}") = Js.VStr (Options.name a)
  /\ Options.substitute tbl (Js.VStr "${auth_uuid}") = Js.VStr (Options.uuid a)
  /\ Options.substitute tbl (Js.VStr "${user_type}")
     = Js.VStr (match Options.meta a with Some m => Options.type m | None => "offline" end)
  /\ Options.substitute tbl (Js.VStr "${game_directory}")
     = Js.VStr (match Options.gameDirectory i with
                | Some "" | None => Options.root i
                | Some directory => directory
                end)
  /\ Options.substitute tbl (Js.VStr "${version_type}")
     = Js.VStr (match Options.version_type i with
                | Some "" | None => "release"
                | Some type => type
                end)
  /\ (forall t, String.prefix "${" t = false ->
                Options.substitute tbl (Js.VStr t) = Js.VStr t).
Proof.
  intros Ha Hs Hne Hc Hw tbl.
  split; [|split; [reflexivity|split; [reflexivity|split; [|split; [|split]]]]].
  - unfold Options.getLaunchOptions. rewrite Ha, Hs, Hc, Hw.
    assert (E : String.eqb s "" = false) by (apply String.eqb_neq; exact Hne).
    rewrite E, list_fmap_compose.
    rewrite iterations_literals.
    rewrite (loop_literals_enough cur (Options.fields i (Options.default_meta a))
               (Js.VStr <$> Js.split " " s)) by reflexivity.
    cbn [app Options.window_args]. rewrite app_nil_r.
    rewrite <- !list_fmap_compose. reflexivity.
  - unfold tbl. destruct a as [t c u nm up [m|]]; reflexivity.
  - destruct (Options.gameDirectory i) as [[|c g]|] eqn:E;
      unfold tbl, Options.substitute, Options.lookup_field, Options.fields;
      cbn; rewrite E; reflexivity.
  - destruct (Options.version_type i) as [[|c g]|] eqn:E;
      unfold tbl, Options.substitute, Options.lookup_field, Options.fields;
      cbn; rewrite E; reflexivity.
  - intros t Ht. apply substitute_other. exact Ht.
Qed.

Lemma getLaunchOptions_legacy_witness :
  (Options.getLaunchOptions "linux" sample_legacy_input {[ 1%nat := sample_identity ]}).2
  = Js.Returned [Js.VStr "--username"; Js.VStr "Steve";
                 Js.VStr "--session"; Js.VStr "${auth_session}"].
Proof.
  assert (Hne : "--username ${auth_player_name} --session ${auth_session}" <> "")
    by discriminate.
  assert (Ha : ({[ 1%nat := sample_identity ]} : gmap Options.Ref Options.Authorization)
                 !! Options.authorization sample_legacy_input = Some sample_identity)
    by (vm_compute; reflexivity).
  destruct (getLaunchOptions_legacy "linux" sample_legacy_input
              {[ 1%nat := sample_identity ]} sample_identity
              "--username ${auth_player_name} --session ${auth_session}"
              Ha eq_refl Hne eq_refl eq_refl) as [H _].
  rewrite H. vm_compute. reflexivity.
Defined.

(** ** Version resolution *)

Section ResolverFacts.
Import Resolver.

Lemma versionFile_exists_after_insert (fs : gmap Pipeline.Path Document) (p : Pipeline.Path) (d : Document) :
  existsSync (<[p := d]> fs) p = true.
Proof.
  unfold existsSync. rewrite lookup_insert_eq.
  rewrite (bool_decide_eq_true_2 (is_Some (Some d))) by eauto.
  apply orb_true_r.
Qed.

Lemma versionFile_exists (fs : gmap Pipeline.Path Document) (p : Pipeline.Path) (d : Document) :
  fs !! p = Some d -> existsSync fs p = true.
Proof.
  intros H. unfold existsSync. rewrite H.
  rewrite (bool_decide_eq_true_2 (is_Some (Some d))) by eauto.
  apply orb_true_r.
Qed.

Lemma versionFile_missing (fs : gmap Pipeline.Path Document) (p : Pipeline.Path) :
  p <> [] -> fs !! p = None -> existsSync fs p = false.
Proof.
  intros Hp H. unfold existsSync. rewrite H.
  rewrite (bool_decide_eq_false_2 (is_Some None)) by (intros [? ?]; discriminate).
  rewrite bool_decide_eq_false_2; [reflexivity|exact Hp].
Qed.

End ResolverFacts.

Ltac resolver_cases env o fs :=
  unfold Resolver.getVersion, Resolver.fetch_descriptor;
  destruct (Resolver.existsSync fs (Resolver.versionJsonPath o)) eqn:Hex;
  [ destruct (fs !! Resolver.versionJsonPath o) as [[|?v]|] eqn:Hfile
  | destruct (Resolver.net env (Resolver.manifest_url o)) as [code message|body] eqn:Hnet;
    [ destruct (negb (String.eqb code "ENOTFOUND")) eqn:Hcode
    | destruct (Resolver.writeFile_error env) as [err|] eqn:Hwrite;
      [ | destruct body as [|[versions|?v|]];
          [ | destruct (Resolver.desiredVersion o versions) as [desired|] eqn:Hfind;
              [ destruct (Resolver.net env (Resolver.url desired)) as [?c ?m|[|?v]] eqn:Hnet2
              | ]
            | | ] ] ] ];
  cbn [Resolver.files Resolver.requests Resolver.outcome].

(** X12: a version that [getVersion] resolved with after reading the version
    file or after downloading the descriptor is served from the disk from
    then on: a further call on the files the first one left, whatever the
    network answers by then, makes no request, writes nothing and resolves
    with the same version. (The exception is a version answered from the
    offline cache, the one case that ends after the manifest request
    alone.) *)
Theorem getVersion_served_from_disk (env env' : Resolver.Env) (o : Resolver.Options)
    (fs : gmap Pipeline.Path Resolver.Document) (v : Resolver.JsonValue) :
  Resolver.outcome (Resolver.getVersion env o fs) = Js.Returned (inr v) ->
  Resolver.requests (Resolver.getVersion env o fs) <> [Resolver.manifest_url o] ->
  Resolver.getVersion env' o (Resolver.files (Resolver.getVersion env o fs))
  = Resolver.mkResult (Resolver.files (Resolver.getVersion env o fs)) []
                      (Js.Returned (inr v)).
Proof.
  revert env'. 
  assert (Hdisk : forall env' fs' w,
            Resolver.existsSync fs' (Resolver.versionJsonPath o) = true ->
            fs' !! Resolver.versionJsonPath o = Some (Resolver.Json w) ->
            Resolver.getVersion env' o fs'
            = Resolver.mkResult fs' [] (Js.Returned (inr w))).
  { intros env' fs' w H1 H2. unfold Resolver.getVersion. rewrite H1, H2. reflexivity. }
  intros env'. resolver_cases env o fs; intros Hout Hreq;
    try discriminate Hout; try (exfalso; apply Hreq; reflexivity).
  - injection Hout as <-. apply Hdisk; assumption.
  - injection Hout as <-. apply Hdisk.
    + apply versionFile_exists_after_insert.
    + apply lookup_insert_eq.
Qed.

Lemma getVersion_served_from_disk_witness :
  Resolver.getVersion sample_offline_env sample_resolver_options
    (Resolver.files (Resolver.getVersion sample_resolver_env sample_resolver_options ∅))
  = Resolver.mkResult
      (Resolver.files (Resolver.getVersion sample_resolver_env sample_resolver_options ∅))
      [] (Js.Returned (inr (Resolver.Descriptor sample_version))).
Proof.
  apply (getVersion_served_from_disk sample_resolver_env sample_offline_env
           sample_resolver_options ∅ (Resolver.Descriptor sample_version)).
  - vm_compute. reflexivity.
  - vm_compute. discriminate.
Defined.

(** X13: what [getVersion] touches. It makes no request when the version
    file exists, and otherwise one for the manifest, followed by at most one
    more, for the url the manifest gives for the version. Of the files, only
    the cached manifest and the version file can change, and the version file
    is written only with the version the promise is resolved with: a call
    that ends in an error leaves no version file behind. *)
Theorem getVersion_footprint (env : Resolver.Env) (o : Resolver.Options)
    (fs : gmap Pipeline.Path Resolver.Document) :
  let r := Resolver.getVersion env o fs in
  (Resolver.existsSync fs (Resolver.versionJsonPath o) = true ->
   Resolver.requests r = [] /\ Resolver.files r = fs)
  /\ (Resolver.requests r = []
      \/ Resolver.requests r = [Resolver.manifest_url o]
      \/ exists versions e,
           Resolver.net env (Resolver.manifest_url o)
             = Resolver.Body (Resolver.Json (Resolver.Manifest versions))
           /\ e ∈ versions /\ Resolver.id e = Resolver.number o
           /\ Resolver.requests r = [Resolver.manifest_url o; Resolver.url e])
  /\ (forall p, p <> Resolver.cache_directory o ++ ["version_manifest.json"] ->
        Resolver.files r !! p = fs !! p
        \/ (p = Resolver.versionJsonPath o
            /\ exists v, Resolver.outcome r = Js.Returned (inr v)
                         /\ Resolver.files r !! p = Some (Resolver.Json v))).
Proof.
  cbv zeta. split; [|split].
  - intros H. unfold Resolver.getVersion. rewrite H.
    destruct (fs !! Resolver.versionJsonPath o) as [[|v]|]; split; reflexivity.
  - resolver_cases env o fs; auto.
    all: right; right; exists versions, desired;
      apply find_some in Hfind as [Hin Heq];
      apply String.eqb_eq in Heq; apply list_elem_of_In in Hin; auto.
  - intros p Hp. resolver_cases env o fs; auto.
    all: try (left; apply lookup_insert_ne; congruence).
    destruct (decide (p = Resolver.versionJsonPath o)) as [->|Hne].
    + right. split; [reflexivity|]. exists v. split; [reflexivity|].
      apply lookup_insert_eq.
    + left. rewrite lookup_insert_ne by congruence.
      apply lookup_insert_ne. congruence.
Qed.

(** X14: without a connection (the manifest request fails with the code
    ENOTFOUND) and without a version file, [getVersion] writes nothing and
    asks for nothing more. It resolves with a version only when the cached
    manifest lists the version and [<cache>/json/<number>.json] holds it,
    and with the error "No internet connection and no cached version
    available" when either file is missing. *)
Theorem getVersion_offline (env : Resolver.Env) (o : Resolver.Options)
    (fs : gmap Pipeline.Path Resolver.Document) (message : string) :
  Resolver.existsSync fs (Resolver.versionJsonPath o) = false ->
  Resolver.net env (Resolver.manifest_url o) = Resolver.Failed "ENOTFOUND" message ->
  let r := Resolver.getVersion env o fs in
  let cachedManifest := Resolver.cache_directory o ++ ["version_manifest.json"] in
  let cachedVersion := Resolver.cache_directory o ++ [Resolver.number o +:+ ".json"] in
  Resolver.files r = fs
  /\ Resolver.requests r = [Resolver.manifest_url o]
  /\ (forall v, Resolver.outcome r = Js.Returned (inr v) ->
        fs !! cachedVersion = Some (Resolver.Json v)
        /\ exists versions e,
             fs !! cachedManifest = Some (Resolver.Json (Resolver.Manifest versions))
             /\ e ∈ versions /\ Resolver.id e = Resolver.number o)
  /\ (fs !! cachedManifest = None \/ fs !! cachedVersion = None ->
        Resolver.outcome r = Js.Returned (inl Resolver.no_connection)
        \/ Resolver.outcome r = Js.Never).
Proof.
  intros Hex Hnet. cbv zeta. unfold Resolver.getVersion. rewrite Hex, Hnet.
  cbn [String.eqb Ascii.eqb Bool.eqb negb Resolver.files Resolver.requests Resolver.outcome].
  split; [reflexivity|]. split; [reflexivity|].
  unfold Resolver.offline.
  set (cm := Resolver.cache_directory o ++ ["version_manifest.json"]).
  set (cv := Resolver.cache_directory o ++ [Resolver.number o +:+ ".json"]).
  assert (Hcm : cm <> []).
  { unfold cm. intros H. apply app_eq_nil in H as [_ H]. discriminate. }
  assert (Hcv : cv <> []).
  { unfold cv. intros H. apply app_eq_nil in H as [_ H]. discriminate. }
  destruct (fs !! cm) as [[|[versions|w|]]|] eqn:Em.
  all: try (rewrite (versionFile_exists fs cm _ Em)).
  all: try (rewrite (versionFile_missing fs cm Hcm Em)).
  all: try (split; [intros v Hv; discriminate Hv | intros _; auto]).
  destruct (Resolver.desiredVersion o versions) as [e|] eqn:Ef.
  - destruct (fs !! cv) as [[|w]|] eqn:Ev.
    all: try (rewrite (versionFile_exists fs cv _ Ev)).
    all: try (rewrite (versionFile_missing fs cv Hcv Ev)).
    all: split; [intros v Hv; try discriminate Hv | intros [H|H]; try discriminate H; auto].
    injection Hv as <-. split; [reflexivity|].
    apply find_some in Ef as [Hin Heq]. apply String.eqb_eq in Heq.
    apply list_elem_of_In in Hin. eauto.
  - split; [intros v Hv; discriminate Hv | intros _; auto].
Qed.

Lemma getVersion_offline_witness :
  Resolver.files (Resolver.getVersion sample_offline_env sample_resolver_options ∅) = ∅
  /\ Resolver.outcome (Resolver.getVersion sample_offline_env sample_resolver_options ∅)
     = Js.Returned (inl Resolver.no_connection).
Proof.
  assert (H1 : Resolver.existsSync ∅ (Resolver.versionJsonPath sample_resolver_options)
               = false) by (vm_compute; reflexivity).
  destruct (getVersion_offline sample_offline_env sample_resolver_options ∅
              "getaddrinfo ENOTFOUND" H1 eq_refl) as (Hf & _ & _ & He).
  split; [exact Hf|].
  destruct (He (or_introl eq_refl)) as [H|H]; [exact H|].
  vm_compute in H. discriminate H.
Defined.

(** X15: asking for a version the manifest does not list. With no version
    file on disk and a manifest without an entry of that id, [getVersion]
    makes the manifest request only, and a launch on that result emits
    ['debug'] with "[VoidBeam]: Version <number> not found", then ['close']
    with code 1, returns [null] and starts no download. *)
Theorem launch_unlisted_version (renv : Resolver.Env) (ro : Resolver.Options)
    (fs : gmap Pipeline.Path Resolver.Document) (versions : list Resolver.ManifestEntry)
    (env : Launch.Env) (o : Launch.LaunchOptions) :
  Resolver.existsSync fs (Resolver.versionJsonPath ro) = false ->
  Resolver.net renv (Resolver.manifest_url ro)
    = Resolver.Body (Resolver.Json (Resolver.Manifest versions)) ->
  Resolver.writeFile_error renv = None ->
  Resolver.desiredVersion ro versions = None ->
  fst (Launch.checkJava env) = true ->
  let r := Resolver.getVersion renv ro fs in
  let out := Launch.launch (More.resolving env r) o in
  Resolver.requests r = [Resolver.manifest_url ro]
  /\ out.2 = Launch.Null
  /\ Launch.requests out.1 = []
  /\ exists before,
       Launch.log out.1
       = before ++ [Launch.Debug ("[VoidBeam]: Version " +:+ Resolver.number ro +:+ " not found");
                    Launch.Close 1].
Proof.
  intros Hex Hnet Hw Hfind Hjava. cbv zeta.
  assert (Hr : Resolver.getVersion renv ro fs
               = Resolver.mkResult
                   (<[Resolver.cache_directory ro ++ ["version_manifest.json"]
                      := Resolver.Json (Resolver.Manifest versions)]> fs)
                   [Resolver.manifest_url ro]
                   (Js.Returned (inl ("Version " +:+ Resolver.number ro +:+ " not found")))).
  { unfold Resolver.getVersion. rewrite Hex, Hnet, Hw, Hfind. reflexivity. }
  rewrite Hr. split; [reflexivity|].
  destruct (launch_version_error
              (More.resolving env
                 (Resolver.mkResult
                    (<[Resolver.cache_directory ro ++ ["version_manifest.json"]
                       := Resolver.Json (Resolver.Manifest versions)]> fs)
                    [Resolver.manifest_url ro]
                    (Js.Returned (inl ("Version " +:+ Resolver.number ro +:+ " not found")))))
              o ("Version " +:+ Resolver.number ro +:+ " not found") Hjava eq_refl)
    as [before Hl].
  rewrite Hl. cbn [fst snd Launch.log Launch.requests].
  split; [reflexivity|]. split; [reflexivity|]. exists before. reflexivity.
Qed.

Lemma launch_unlisted_version_witness :
  (Launch.launch
     (More.resolving (sample_env [])
        (Resolver.getVersion sample_resolver_env sample_unlisted_options ∅))
     sample_options).2 = Launch.Null.
Proof.
  assert (H1 : Resolver.existsSync ∅ (Resolver.versionJsonPath sample_unlisted_options)
               = false) by (vm_compute; reflexivity).
  destruct (launch_unlisted_version sample_resolver_env sample_unlisted_options ∅
              [Resolver.mkEntry "1.20.1" "https://piston-meta.mojang.com/1.20.1.json"]
              (sample_env []) sample_options H1 eq_refl eq_refl eq_refl eq_refl)
    as (_ & H & _).
  exact H.
Defined.

(** ** Native libraries *)

Section NativesFacts.
Import Pipeline Natives.

Lemma below_app (dir : Path) (x : string) (rest : Path) :
  below dir (dir ++ x :: rest) = true.
Proof.
  induction dir as [|d dir IH]; [reflexivity|].
  cbn [app below]. rewrite String.eqb_refl. exact IH.
Qed.

Lemma populated_none (fs : gmap Path string) (dir p : Path) :
  populated fs dir = false -> below dir p = true -> fs !! p = None.
Proof.
  intros Hp Hb. destruct (fs !! p) as [c|] eqn:E; [|reflexivity].
  exfalso. unfold populated in Hp.
  assert (H : existsb (fun kv : Path * string => below dir kv.1) (map_to_list fs) = true).
  { apply existsb_exists. exists (p, c). split; [|exact Hb].
    apply list_elem_of_In, elem_of_map_to_list. exact E. }
  congruence.
Qed.

Lemma existsSync_unpopulated (fs : gmap Path string) (dir p : Path) :
  populated fs dir = false -> below dir p = true -> existsSync fs p = false.
Proof.
  intros Hp Hb. unfold existsSync. rewrite (populated_none fs dir p Hp Hb).
  rewrite (bool_decide_eq_false_2 (is_Some None)) by (intros [? ?]; discriminate).
  rewrite bool_decide_eq_false_2; [reflexivity|].
  intros ->. destruct dir; discriminate Hb.
Qed.

Lemma native_fold (dir : Path) (fs : gmap Path string) (found : list Artifact) (r : Run) :
  populated fs dir = false -> files r = fs ->
  fold_left (native_callback dir) found r
  = mkRun fs (fetched r ++ (a_url <$> found))
          (pending r
           ++ ((fun n => mkTask (a_url n) (dir ++ [basename (a_path n)])) <$> found)).
Proof.
  intros Hp. revert r. induction found as [|n found IH]; intros r Hf.
  - rewrite !fmap_nil, !app_nil_r. destruct r; cbn in *; subst; reflexivity.
  - cbn [fold_left]. 
    assert (Hn : native_callback dir r n
                 = mkRun (files r) (fetched r ++ [a_url n])
                         (pending r ++ [mkTask (a_url n) (dir ++ [basename (a_path n)])])).
    { unfold native_callback. rewrite Hf.
      rewrite (existsSync_unpopulated fs dir _ Hp (below_app dir _ [])). reflexivity. }
    rewrite Hn, IH by exact Hf.
    cbn [fetched pending]. rewrite !fmap_cons, <- !app_assoc. reflexivity.
Qed.


Lemma native_settle_all (net : string -> string) (sched : list nat) (r : Run) :
  (length (pending r) <= length sched)%nat -> pending (settle net sched r) = [].
Proof.
  revert r. induction sched as [|k sched IH]; intros r Hl.
  - cbn [settle]. destruct (pending r); [reflexivity|cbn in Hl; lia].
  - cbn [settle]. destruct (pending r) as [|t ts] eqn:Ep.
    + rewrite lookup_nil. exact Ep.
    + set (i := (k mod length (t :: ts))%nat).
      assert (Hi : (i < length (t :: ts))%nat)
        by (apply Nat.mod_upper_bound; discriminate).
      destruct (lookup_lt_is_Some_2 (t :: ts) i Hi) as [t' Ht'].
      rewrite Ht'. apply IH. cbn [pending].
      rewrite length_delete by eauto. cbn [length] in *. lia.
Qed.

Lemma natives_found_length (cur : string) (libraries : list Library) :
  (length (omap (native cur) libraries) <= length libraries)%nat.
Proof.
  induction libraries as [|lib libraries IH]; [reflexivity|].
  change (omap (native cur) (lib :: libraries))
    with (match native cur lib with
          | Some n => n :: omap (native cur) libraries
          | None => omap (native cur) libraries
          end).
  destruct (native cur lib); cbn [length]; lia.
Qed.

End NativesFacts.


(** X17: when the schedule lets every download complete (it has at least
    as many steps as there are libraries), the promise of [getNatives]
    settles with no download left in flight; unless the natives directory is
    a file, it is resolved: with [overrides.cwd] or the root for a version
    from 1.19 on, with the natives directory otherwise. *)
Theorem getNatives_returns (net : string -> string)
    (unzip : string -> list (Pipeline.Path * string)) (sched : list nat) (cur : string)
    (o : Natives.Options) (id : string) (libraries : list Natives.Library)
    (fs : gmap Pipeline.Path string) :
  (length libraries <= length sched)%nat ->
  let dir := default (Natives.root o ++ ["natives"; id]) (Natives.natives o) in
  let out := Natives.getNatives net unzip sched cur o id libraries fs in
  Natives.pending out.1 = []
  /\ out.2 <> Js.Never
  /\ (fs !! dir = None ->
      out.2 = Js.Returned (if Js.nan_ge (Launch.minor id) 19
                           then default (Natives.root o) (Natives.cwd o)
                           else dir)).
Proof.
  intros Hl. cbv zeta. unfold Natives.getNatives.
  destruct (Js.nan_ge (Launch.minor id) 19).
  { split; [reflexivity|]. split; [discriminate|reflexivity]. }
  destruct (fs !! _) as [c|] eqn:Ed.
  { rewrite (bool_decide_eq_true_2 (is_Some (Some c))) by eauto.
    split; [reflexivity|]. split; [discriminate|]. intros H; discriminate H. }
  rewrite (bool_decide_eq_false_2 (is_Some None)) by (intros [? ?]; discriminate).
  destruct (Natives.populated fs _) eqn:Hp.
  { split; [reflexivity|]. split; [discriminate|reflexivity]. }
  rewrite (native_fold _ fs _ (Natives.mkRun fs [] []) Hp eq_refl).
  cbn [Natives.fetched Natives.pending app].
  match goal with
  | |- context [Natives.settle net sched ?r0] =>
      assert (He : Natives.pending (Natives.settle net sched r0) = [])
  end.
  { apply native_settle_all. cbn [Natives.pending].
    rewrite length_fmap.
    etransitivity; [apply natives_found_length|exact Hl]. }
  rewrite He. cbn [fst snd Natives.pending].
  split; [reflexivity|]. split; [discriminate|reflexivity].
Qed.

Lemma getNatives_returns_witness :
  (Natives.getNatives sample_net (fun _ => []) [0%nat; 0%nat; 0%nat] "linux"
     sample_native_options "1.16.5" sample_native_libraries ∅).2
  = Js.Returned ["home"; "steve"; ".minecraft"; "natives"; "1.16.5"].
Proof.
  assert (Hl : (length sample_native_libraries <= length [0%nat; 0%nat; 0%nat])%nat)
    by (vm_compute; lia).
  destruct (getNatives_returns sample_net (fun _ => []) [0%nat; 0%nat; 0%nat] "linux"
              sample_native_options "1.16.5" sample_native_libraries ∅ Hl)
    as (_ & _ & H).
  exact (H eq_refl).
Defined.

Section NativesFrame.
Import Pipeline Natives.

Variable dir : Path.
Variable p : Path.
Hypothesis outside : forall k, p <> dir ++ k.

Lemma native_settle_frame (net : string -> string) (sched : list nat) (r : Run) :
  Forall (fun t => exists x, t_file t = dir ++ [x]) (pending r) ->
  files (settle net sched r) !! p = files r !! p.
Proof.
  revert r. induction sched as [|k sched IH]; intros r Hall; [reflexivity|].
  cbn [settle]. destruct (pending r !! _) as [t|] eqn:Et; [|reflexivity].
  rewrite IH.
  - cbn [files]. apply lookup_insert_ne.
    destruct (Forall_lookup_1 _ _ _ _ Hall Et) as [x Hx]. rewrite Hx.
    intros E. apply (outside [x]). symmetry. exact E.
  - cbn [pending]. apply Forall_delete. exact Hall.
Qed.

Lemma extract_frame (unzip : string -> list (Path * string)) (fs : gmap Path string)
    (file : string) :
  extract unzip dir fs file !! p = fs !! p.
Proof.
  unfold extract.
  rewrite lookup_delete_ne by (intros E; apply (outside [file]); symmetry; exact E).
  destruct (fs !! (dir ++ [file])) as [bytes|]; [|reflexivity].
  generalize (unzip bytes). intros es. revert fs.
  induction es as [|e es IH]; intros fs; [reflexivity|].
  cbn [fold_left]. rewrite IH. apply lookup_insert_ne.
  intros E. apply (outside e.1). symmetry. exact E.
Qed.

Lemma extract_all_frame (unzip : string -> list (Path * string)) (names : list string)
    (fs : gmap Path string) :
  fold_left (extract unzip dir) names fs !! p = fs !! p.
Proof.
  revert fs. induction names as [|file names IH]; intros fs; [reflexivity|].
  cbn [fold_left]. rewrite IH. apply extract_frame.
Qed.

End NativesFrame.

(** X18: [getNatives] stays inside the natives directory. Downloads are
    written to, archives are unpacked into and removed from that directory
    (an archive's entries land below the directory it is extracted to), so a
    file whose path does not begin with the natives directory is afterwards
    what it was before, however the downloads are scheduled. *)
Theorem getNatives_frame (net : string -> string)
    (unzip : string -> list (Pipeline.Path * string)) (sched : list nat) (cur : string)
    (o : Natives.Options) (id : string) (libraries : list Natives.Library)
    (fs : gmap Pipeline.Path string) (p : Pipeline.Path) :
  let dir := default (Natives.root o ++ ["natives"; id]) (Natives.natives o) in
  (forall k, p <> dir ++ k) ->
  Natives.files (Natives.getNatives net unzip sched cur o id libraries fs).1 !! p
  = fs !! p.
Proof.
  cbv zeta. intros Hp. unfold Natives.getNatives.
  destruct (Js.nan_ge (Launch.minor id) 19); [reflexivity|].
  destruct (bool_decide (is_Some (fs !! _))); [reflexivity|].
  destruct (Natives.populated fs _) eqn:Hpop; [reflexivity|].
  rewrite (native_fold _ fs _ (Natives.mkRun fs [] []) Hpop eq_refl).
  cbn [Natives.fetched Natives.pending app].
  match goal with
  | |- context [Natives.settle net sched ?r0] =>
      assert (Hs : Natives.files (Natives.settle net sched r0) !! p = fs !! p)
  end.
  { rewrite (native_settle_frame _ p Hp); [reflexivity|].
    cbn [Natives.pending]. apply Forall_fmap, Forall_forall.
    intros n _. cbn. eexists. reflexivity. }
  match goal with
  | |- context [Natives.settle net sched ?r0] =>
      destruct (Natives.pending (Natives.settle net sched r0))
  end; cbn [fst Natives.files].
  - rewrite (extract_all_frame _ p Hp). exact Hs.
  - exact Hs.
Qed.

Lemma getNatives_frame_witness :
  Natives.files
    (Natives.getNatives sample_net (fun _ => [(["liblwjgl.so"], "ELF")])
       [0%nat; 0%nat; 0%nat] "linux" sample_native_options "1.16.5"
       sample_native_libraries
       {[ ["home"; "steve"; ".minecraft"; "options.txt"] := "fov:0.5" ]}).1
    !! ["home"; "steve"; ".minecraft"; "options.txt"]
  = Some "fov:0.5".
Proof.
  rewrite (getNatives_frame sample_net (fun _ => [(["liblwjgl.so"], "ELF")])
             [0%nat; 0%nat; 0%nat] "linux" sample_native_options "1.16.5"
             sample_native_libraries
             {[ ["home"; "steve"; ".minecraft"; "options.txt"] := "fov:0.5" ]}
             ["home"; "steve"; ".minecraft"; "options.txt"]).
  - vm_compute. reflexivity.
  - intros k H. vm_compute in H. discriminate H.
Defined.

(** ** Offline identities *)

Section AuthenticatorFacts.
Import Authenticator.

Lemma string_length_append (a b : string) :
  String.length (a +:+ b) = (String.length a + String.length b)%nat.
Proof.
  induction a as [|c a IH]; [reflexivity|].
  change (S (String.length (a +:+ b)) = S (String.length a + String.length b)).
  rewrite IH. reflexivity.
Qed.

Lemma repeat_char_length (k : nat) (c : ascii) : String.length (repeat_char k c) = k.
Proof.
  induction k as [|k IH]; [reflexivity|].
  change (S (String.length (repeat_char k c)) = S k).
  rewrite IH. reflexivity.
Qed.

Lemma toInt32_range (z : Z) : - 2 ^ 31 <= toInt32 z < 2 ^ 31.
Proof.
  unfold toInt32.
  pose proof (Z.mod_pos_bound (z + 2 ^ 31) (2 ^ 32) ltac:(lia)). lia.
Qed.

Lemma toInt32_shift (z k : Z) : toInt32 (z + 2 ^ 32 * k) = toInt32 z.
Proof.
  unfold toInt32. f_equal.
  replace (z + 2 ^ 32 * k + 2 ^ 31) with (z + 2 ^ 31 + k * 2 ^ 32) by lia.
  apply Z_mod_plus_full.
Qed.

Lemma toInt32_spec (z : Z) : exists k, toInt32 z = z + 2 ^ 32 * k.
Proof.
  exists (- ((z + 2 ^ 31) / 2 ^ 32)). unfold toInt32.
  rewrite (Z.mod_eq (z + 2 ^ 31) (2 ^ 32)) by lia. lia.
Qed.

(** One step of the loop is one step of the polynomial hash with
    multiplier 31, cut to 32 bits. *)
Lemma hash_step_31 (h c : Z) : hash_step h c = toInt32 (31 * h + c).
Proof.
  unfold hash_step.
  destruct (toInt32_spec h) as [k1 H1].
  destruct (toInt32_spec (toInt32 h * 2 ^ 5)) as [k2 H2].
  rewrite H2, H1.
  replace ((h + 2 ^ 32 * k1) * 2 ^ 5 + 2 ^ 32 * k2 - h + c)
    with (31 * h + c + 2 ^ 32 * (32 * k1 + k2)) by lia.
  apply toInt32_shift.
Qed.

Lemma hash_step_toInt32 (x c : Z) : hash_step (toInt32 x) c = toInt32 (31 * x + c).
Proof.
  rewrite hash_step_31. destruct (toInt32_spec x) as [k H]. rewrite H.
  replace (31 * (x + 2 ^ 32 * k) + c) with (31 * x + c + 2 ^ 32 * (31 * k)) by lia.
  apply toInt32_shift.
Qed.

Lemma hashCode_range (codes : list Z) : - 2 ^ 31 <= hashCode codes < 2 ^ 31.
Proof.
  unfold hashCode. destruct codes as [|c codes] using rev_ind.
  - cbn. lia.
  - rewrite fold_left_app. cbn [fold_left]. rewrite hash_step_31. apply toInt32_range.
Qed.

Lemma toString16_from_length (fuel : nat) :
  forall (k : nat) (n : Z) (acc : string),
    (1 <= k)%nat -> 0 <= n < 16 ^ Z.of_nat k ->
    (String.length (toString16_from fuel n acc) <= k + String.length acc)%nat.
Proof.
  induction fuel as [|fuel IH]; intros k n acc Hk Hn; cbn [toString16_from]; [lia|].
  destruct (n / 16 =? 0) eqn:E.
  - cbn [String.length]. lia.
  - apply Z.eqb_neq in E.
    assert (Hq : 0 < n / 16) by (pose proof (Z.div_pos n 16 ltac:(lia) ltac:(lia)); lia).
    assert (H16 : 16 <= n).
    { destruct (Z_lt_le_dec n 16) as [Hlt|Hge]; [|exact Hge].
      rewrite Z.div_small in Hq by lia. lia. }
    destruct k as [|[|k]]; [lia| |].
    + change (16 ^ Z.of_nat 1) with 16 in Hn. lia.
    + specialize (IH (S k) (n / 16) (String (hex_char (n mod 16)) acc)).
      cbn [String.length] in IH.
      assert (Hb : 0 <= n / 16 < 16 ^ Z.of_nat (S k)).
      { split; [lia|]. apply Z.div_lt_upper_bound; [lia|].
        replace (Z.of_nat (S (S k))) with (Z.succ (Z.of_nat (S k))) in Hn by lia.
        rewrite Z.pow_succ_r in Hn by lia. lia. }
      specialize (IH ltac:(lia) Hb). lia.
Qed.

(** The eight characters [hex] of [generateOfflineUuid]. *)
Lemma hex_length (codes : list Z) :
  String.length (padStart 8 "0" (toString16 (Z.abs (hashCode codes)))) = 8%nat.
Proof.
  unfold padStart. rewrite string_length_append, repeat_char_length.
  pose proof (hashCode_range codes) as Hr.
  assert (Hl : (String.length (toString16 (Z.abs (hashCode codes))) <= 8 + 0)%nat).
  { unfold toString16. apply (toString16_from_length _ 8 _ ""); [lia|].
    change (16 ^ Z.of_nat 8) with 4294967296. lia. }
  lia.
Qed.

Lemma chop_slash_append (b : string) : chop_slash (b +:+ "/") = b.
Proof.
  induction b as [|c b IH]; [reflexivity|].
  change (String c b +:+ "/") with (String c (b +:+ "/")).
  cbn [chop_slash]. rewrite IH.
  destruct b; reflexivity.
Qed.

End AuthenticatorFacts.

(** X19: the hash inside [generateOfflineUuid] is the 32-bit polynomial hash
    with multiplier 31 of the code units (the shift-and-subtract of the loop
    is a multiplication by 31, cut to a signed 32-bit integer at every step),
    so it lies between -2^31 and 2^31 - 1 whatever the name. *)
Theorem hashCode_polynomial (codes : list Z) :
  Authenticator.hashCode codes
  = Authenticator.toInt32 (fold_left (fun h c => 31 * h + c) codes 0)
  /\ - 2 ^ 31 <= Authenticator.hashCode codes < 2 ^ 31.
Proof.
  split; [|apply hashCode_range].
  unfold Authenticator.hashCode. induction codes as [|c codes IH] using rev_ind.
  - reflexivity.
  - rewrite !fold_left_app. cbn [fold_left]. rewrite IH. apply hash_step_toInt32.
Qed.

(** X20: the identifier [generateOfflineUuid] builds is made of eight
    characters [hex] only: it is [hex], the first four characters of [hex],
    "4" and characters 1 to 3, "8" and the first three, and [hex] once more,
    joined by dashes. The last group has the eight characters of [hex], not
    twelve, so the identifier is 32 characters long for every name, never the
    36 of a UUID. *)
Theorem generateOfflineUuid_shape (username : string) :
  exists hex,
    String.length hex = 8%nat
    /\ Authenticator.generateOfflineUuid username
       = hex +:+ "-" +:+ String.substring 0 4 hex
             +:+ "-4" +:+ String.substring 1 3 hex
             +:+ "-8" +:+ String.substring 0 3 hex
             +:+ "-" +:+ hex
    /\ String.length (Authenticator.generateOfflineUuid username) = 32%nat.
Proof.
  unfold Authenticator.generateOfflineUuid. cbv zeta.
  pose proof (hex_length (Authenticator.charCodes ("OfflinePlayer:" +:+ username))) as Hl.
  set (hex := Authenticator.padStart 8 "0" _) in *.
  exists hex. split; [exact Hl|].
  destruct hex as [|a [|b [|c [|d [|e [|f [|g [|h [|i hex]]]]]]]]]; try discriminate Hl.
  split; reflexivity.
Qed.

(** X21: [changeApiUrl] drops one slash at the end of the url before it
    appends the endpoint names, so a url given with a trailing slash
    configures the endpoints of the url without it. For a service other than
    "yggdrasil" and "all" it changes nothing and still returns the urls,
    without an error. *)
Theorem changeApiUrl_trailing_slash (b service : string) (urls : Authenticator.Urls) :
  Authenticator.changeApiUrl (Js.VStr (b +:+ "/")) service urls
  = (if String.eqb service "yggdrasil" || String.eqb service "all"
     then (Authenticator.endpoints b, Js.Returned (Authenticator.endpoints b))
     else (urls, Js.Returned urls)).
Proof.
  unfold Authenticator.changeApiUrl.
  assert (E : String.eqb (b +:+ "/") "" = false).
  { apply String.eqb_neq. destruct b; discriminate. }
  rewrite E, chop_slash_append.
  destruct (String.eqb service "yggdrasil" || String.eqb service "all"); reflexivity.
Qed.

(** X22: refreshing an offline profile does not give the profile back:
    [refreshAuth] with the tokens of the profile [getOfflineAuth] made for a
    name, and a type other than "yggdrasil" and "microsoft", returns a profile
    with the same tokens and uuid whose name is "OfflineUser". *)
Theorem refreshAuth_offline_renames (username type : string)
    (yggdrasil : Js.Outcome Authenticator.Profile) (p : Authenticator.Profile) :
  Authenticator.getOfflineAuth (Js.VStr username) = Js.Returned p ->
  String.eqb type "yggdrasil" = false -> String.eqb type "microsoft" = false ->
  Authenticator.name p = username
  /\ Authenticator.refreshAuth yggdrasil (Authenticator.access_token p)
       (Authenticator.client_token p) type
     = Js.Returned
         (Authenticator.mkProfile (Authenticator.access_token p)
            (Authenticator.client_token p) (Authenticator.uuid p) "OfflineUser"
            (Authenticator.user_properties p) (Authenticator.meta p)).
Proof.
  intros Hp Hy Hm. unfold Authenticator.getOfflineAuth in Hp.
  destruct (String.eqb username ""); [discriminate Hp|].
  injection Hp as <-. split; [reflexivity|].
  unfold Authenticator.refreshAuth. rewrite Hy, Hm. reflexivity.
Qed.

Lemma refreshAuth_offline_renames_witness :
  Authenticator.refreshAuth Js.Never "18cd6cc3-18cd-48cd-818c-18cd6cc3"
    "18cd6cc3-18cd-48cd-818c-18cd6cc3" "offline"
  = Js.Returned
      (Authenticator.mkProfile "18cd6cc3-18cd-48cd-818c-18cd6cc3"
         "18cd6cc3-18cd-48cd-818c-18cd6cc3" "18cd6cc3-18cd-48cd-818c-18cd6cc3"
         "OfflineUser" "{}" (Authenticator.mkProfileMeta "offline" false None None)).
Proof.
  assert (Hp : Authenticator.getOfflineAuth (Js.VStr "Steve")
               = Js.Returned
                   (Authenticator.mkProfile "18cd6cc3-18cd-48cd-818c-18cd6cc3"
                      "18cd6cc3-18cd-48cd-818c-18cd6cc3"
                      "18cd6cc3-18cd-48cd-818c-18cd6cc3" "Steve" "{}"
                      (Authenticator.mkProfileMeta "offline" false None None)))
    by (vm_compute; reflexivity).
  destruct (refreshAuth_offline_renames "Steve" "offline" Js.Never _ Hp eq_refl eq_refl)
    as [_ H].
  exact H.
Defined.
